(** * scilpy: chunked voxel-wise processing and reproducible seeding

    A shallow embedding of
      - scilpy/reconst/multi_processes.py  (module [MultiProcesses]),
      - scilpy/tracking/seed.py and the [Seed] class of
        scilpy/tracking/trackable_dataset.py (module [Seeding]),
      - the [Dataset] class of scilpy/tracking/trackable_dataset.py
        (module [TrackableDataset]),
      - the path checks of scilpy/io/utils.py (module [IoUtils]),
      - the PYTHON_VERSION block of scilpy/version.py (module [Version]),
    together with the numpy operations they call (modules [Np] and [F]).
    The definitions come first; the facts proved about them follow, from
    "numpy: facts" on.

    Conventions.
      - float64 array elements are Rocq's primitive binary64 floats;
      - an ndarray whose first three axes are spatial is kept as its shape and
        its C-order (row-major) ravel over those axes: voxel (x, y, z) of an
        array of spatial shape (X, Y, Z) is entry (x * Y + y) * Z + z;
      - a Python exception is a [Raise] result; [None] is [option]'s [None];
      - dipy's numerical kernels and the fitted models are parameters, and so
        are the reductions of numpy whose bits depend on the order and the
        fusing of the additions ([np.sum], [np.dot], [np.linalg.norm]): an
        operation takes them in a record [F.kernels]. [F.sequential] holds
        the plain left-to-right versions, which give numpy's values where
        every partial result is exact, as in the examples of this file. *)

From Stdlib Require Import Ascii String ZArith List Lia Bool.
From Corelib Require Import PrimFloat SpecFloat FloatOps FloatAxioms.
From Equations Require Import Equations.
Import ListNotations.

Set Implicit Arguments.

(** ** Python results *)

Inductive exn : Set :=
| ValueError
| IndexError
| AttributeError.

Inductive result (A : Type) : Type :=
| Ok (a : A)
| Raise (e : exn).

Arguments Ok {A} a.
Arguments Raise {A} e.

Definition is_ok {A} (r : result A) : bool :=
  match r with Ok _ => true | Raise _ => false end.

(** ** numpy *)

Module Np.

Section Sequences.
Context {A : Type}.

  (** [ary[st:en]] for non-negative bounds. *)
Definition slice (ary : list A) (st en : nat) : list A :=
    firstn (en - st) (skipn st ary).

  (** [tmp[st:en] = vals] where [vals] has the length of the slice. *)
Definition slice_assign (tmp : list A) (st en : nat) (vals : list A) : list A :=
    firstn st tmp ++ vals ++ skipn en tmp.

  (** [tmp[st:en, :] = row]: a rank-1 right-hand side is broadcast to every
      row of the slice. *)
Definition slice_fill (tmp : list A) (st en : nat) (row : A) : list A :=
    firstn st tmp ++ repeat row (length (slice tmp st en)) ++ skipn en tmp.

  (** [ary[mask]] on the ravelled arrays: the entries whose mask entry is
      true, in C order. *)
Fixpoint compress (mask : list bool) (ary : list A) : list A :=
    match mask, ary with
    | m :: mask', a :: ary' =>
        if m then a :: compress mask' ary' else compress mask' ary'
    | _, _ => []
    end.

  (** [out[mask] = vals] on the ravelled arrays: the true positions of the
      mask receive the entries of [vals] in order. *)
Fixpoint place (mask : list bool) (out vals : list A) : list A :=
    match mask, out with
    | m :: mask', o :: out' =>
        if m then
          match vals with
          | v :: vals' => v :: place mask' out' vals'
          | [] => o :: place mask' out' []
          end
        else o :: place mask' out' vals
    | _, _ => out
    end.
End Sequences.

(** [np.count_nonzero(mask)] *)
Definition count_nonzero (mask : list bool) : nat :=
  length (filter (fun b => b) mask).

(** [np.cumsum] of a rank-1 integer array. *)
Fixpoint cumsum_from (acc : nat) (l : list nat) : list nat :=
  match l with
  | [] => []
  | x :: l' => (acc + x) :: cumsum_from (acc + x) l'
  end.

Definition cumsum (l : list nat) : list nat := cumsum_from 0 l.

(** [numpy.array_split(ary, Nsections)] with an integer second argument
    (numpy/lib/shape_base.py):
<<
    Nsections = int(indices_or_sections)
    if Nsections <= 0: raise ValueError(...)
    Neach_section, extras = divmod(Ntotal, Nsections)
    section_sizes = ([0] + extras * [Neach_section+1] +
                     (Nsections-extras) * [Neach_section])
    div_points = _nx.array(section_sizes).cumsum()
    for i in range(Nsections):
        sub_arys.append(sary[div_points[i]:div_points[i + 1]])
>> *)
Definition section_sizes (Ntotal Nsections : nat) : list nat :=
  let Neach_section := Ntotal / Nsections in
  let extras := Ntotal mod Nsections in
  0 :: repeat (Neach_section + 1) extras
       ++ repeat Neach_section (Nsections - extras).

Definition array_split {A} (ary : list A) (indices_or_sections : Z)
  : result (list (list A)) :=
  if (indices_or_sections <=? 0)%Z then Raise ValueError
  else
    let Nsections := Z.to_nat indices_or_sections in
    let div_points := cumsum (section_sizes (length ary) Nsections) in
    Ok (map (fun i => slice ary (nth i div_points 0) (nth (S i) div_points 0))
            (seq 0 Nsections)).

(** [chunk_len = np.cumsum([0] + [len(c) for c in chunks])] *)
Definition chunk_offsets {A} (chunks : list (list A)) : list nat :=
  cumsum (0 :: map (@length A) chunks).

End Np.

(** ** float64 helpers *)

Module F.
Local Open Scope float_scope.

(** Truth value of a float: [x.astype(bool)], [bool(x)], an element's part in
    [.any()]. NaN is true, both zeros are false. *)
Definition truthy (x : float) : bool := negb (x =? 0).

(** [row.any()] *)
Definition any (row : list float) : bool := existsb truthy row.

(** Python's builtin [max(a, b)]: [b] when [b > a], else [a]. *)
Definition py_max (a b : float) : float := if a <? b then b else a.

(** [np.maximum(a, b)]: the larger one, NaN when either is NaN. *)
Definition maximum (a b : float) : float :=
  if is_nan a then a else if is_nan b then b else if a <? b then b else a.

Definition minimum (a b : float) : float :=
  if is_nan a then a else if is_nan b then b else if b <? a then b else a.

(** [row.max()] and [row.min()]; numpy raises on an empty row, which the
    callers below never pass (a sphere has vertices, and the peak rows are
    read only when they hold a peak). *)
Definition max (row : list float) : float :=
  match row with [] => nan | x :: r => fold_left maximum r x end.

Definition min (row : list float) : float :=
  match row with [] => nan | x :: r => fold_left minimum r x end.

(** [x.clip(min=0)] on one element. *)
Definition clip0 (x : float) : float := if x <? 0 then 0 else x.

(** The reductions of numpy that an operation calls and whose result, bit
    for bit, depends on the order in which numpy or BLAS adds and on the
    fusing of multiplications with additions:
      - [np_sum row] is [np.sum] of a rank-1 array, and the entry of
        [np.sum(data, axis=3)] for a voxel whose channels are [row];
      - [np_dot u v] is [np.dot(u, v)] for two rank-1 arrays;
      - [np_vec_mat v B] is [np.dot(v, B)] for a rank-1 [v] and a matrix [B]
        given by its rows;
      - [np_tmat_vec M v] is [np.dot(M.T, v)] for a matrix [M] given by its
        rows and a rank-1 [v];
      - [np_norm v] is [np.linalg.norm(v)] for a rank-1 [v].
    Each is a function of the values, for arrays laid out in memory as
    those of the call at hand are. *)
Record kernels : Type := Kernels {
  np_sum : list float -> float;
  np_dot : list float -> list float -> float;
  np_vec_mat : list float -> list (list float) -> list float;
  np_tmat_vec : list (list float) -> list float -> list float;
  np_norm : list float -> float
}.

(** Whatever the order of the additions, a sum of zeros is a zero. *)
Definition sums_zeros (np : kernels) : Prop :=
  forall row, any row = false -> truthy (np_sum np row) = false.

(** *** The same reductions, added left to right

    What numpy returns on inputs whose products and partial sums are all
    exact, such as the small integer arrays on which the operations are
    run below; on other inputs numpy may differ in the last bits. *)

(** The sum of a row, added left to right from 0. [np.sum] adds in this
    order only along a row of fewer than 8 entries (longer rows are added
    pairwise, with 8 running sums). *)
Definition sum_seq (row : list float) : float := fold_left add row 0.

(** The inner product with separately rounded products, added left to
    right. [np.dot] goes through BLAS, which may fuse a product with the
    addition that follows it. *)
Definition dot_seq (u v : list float) : float :=
  sum_seq (map (fun p => fst p * snd p) (combine u v)).

Definition ncols (B : list (list float)) : nat :=
  match B with [] => 0%nat | r :: _ => length r end.

(** The product of a rank-1 [v] with a matrix [B] given by its rows. *)
Definition vec_mat_seq (v : list float) (B : list (list float)) : list float :=
  fold_left
    (fun acc p => map (fun q => fst q + fst p * snd q) (combine acc (snd p)))
    (combine v B) (repeat 0 (ncols B)).

(** The product of the transpose of [M], given by its rows, with a rank-1
    [v]: one inner product per column of [M]. *)
Definition tmat_vec_seq (M : list (list float)) (v : list float)
  : list float :=
  map (fun c => dot_seq (map (fun r => nth c r nan) M) v) (seq 0 (ncols M)).

(** The Euclidean norm. *)
Definition norm_seq (v : list float) : float := sqrt (dot_seq v v).

Definition sequential : kernels :=
  Kernels sum_seq dot_seq vec_mat_seq tmat_vec_seq norm_seq.

(** Conversion of an integer element stored into a float64 array (exact
    below 2^53). *)
Fixpoint of_pos (p : positive) : float :=
  match p with
  | xH => 1
  | xO p' => 2 * of_pos p'
  | xI p' => 2 * of_pos p' + 1
  end.

Definition of_Z (z : Z) : float :=
  match z with
  | Z0 => 0
  | Zpos p => of_pos p
  | Zneg p => - of_pos p
  end.

Definition of_nat (n : nat) : float := of_Z (Z.of_nat n).

End F.

(** ** scilpy/reconst/multi_processes.py *)

Module MultiProcesses.

(** *** Arrays over a voxel grid *)

(** An ndarray with three leading spatial axes: its spatial shape and the
    C-order ravel of its voxels. For a 4-D array the element type is the
    channel row [list float]. *)
Record volume (A : Type) : Type := Volume {
  shape : nat * nat * nat;
  voxels : list A
}.

Definition size3 (s : nat * nat * nat) : nat :=
  let '(X, Y, Z) := s in X * Y * Z.

Definition shape_eqb (s t : nat * nat * nat) : bool :=
  let '(a, b, c) := s in
  let '(d, e, f) := t in
  (a =? d) && (b =? e) && (c =? f).

Definition well_shaped {A} (v : volume A) : Prop :=
  length (voxels v) = size3 (shape v).

Definition in_shape (s : nat * nat * nat) (x y z : nat) : bool :=
  let '(X, Y, Z) := s in (x <? X) && (y <? Y) && (z <? Z).

Definition ravel (s : nat * nat * nat) (x y z : nat) : nat :=
  let '(_, Y, Z) := s in (x * Y + y) * Z + z.

(** The coordinates of entry [i] of the ravel of an array of shape [s]. *)
Definition unravel (s : nat * nat * nat) (i : nat) : nat * nat * nat :=
  let '(_, Y, Z) := s in (i / (Y * Z), (i / Z) mod Y, i mod Z)%nat.

(** [v[x, y, z]] *)
Definition voxel {A} (v : volume A) (x y z : nat) : option A :=
  if in_shape (shape v) x y z then nth_error (voxels v) (ravel (shape v) x y z)
  else None.

(** [np.zeros(shape3 + rest)], one default entry per voxel. *)
Definition zeros {A} (s : nat * nat * nat) (zero : A) : volume A :=
  Volume s (repeat zero (size3 s)).

(** [np.sum(data, axis=3).astype(bool)] *)
Definition sum_axis3_astype_bool (np : F.kernels) (data : volume (list float))
  : volume bool :=
  Volume (shape data) (map (fun row => F.truthy (F.np_sum np row)) (voxels data)).

(** [data[mask]] with a boolean mask over the spatial axes. *)
Definition getitem_mask {A} (data : volume A) (mask : volume bool)
  : result (list A) :=
  if shape_eqb (shape mask) (shape data)
  then Ok (Np.compress (voxels mask) (voxels data))
  else Raise IndexError.

(** [out[mask] = vals] *)
Definition setitem_mask {A} (out : volume A) (mask : volume bool)
  (vals : list A) : result (volume A) :=
  if negb (shape_eqb (shape mask) (shape out)) then Raise IndexError
  else if negb (length vals =? Np.count_nonzero (voxels mask)) then Raise ValueError
  else Ok (Volume (shape out) (Np.place (voxels mask) (voxels out) vals)).

(** *** Effects: the caller's mask object and the logging output

    A mask passed by the caller is an object the callee can write through;
    [mask_obj] holds its current content ([None] when the caller passed no
    mask). [log] collects the [logging.warning] messages. *)

Record heap : Type := Heap {
  mask_obj : option (volume bool);
  log : list string
}.

Definition M (A : Type) : Type := heap -> result A * heap.

Definition ret {A} (a : A) : M A := fun h => (Ok a, h).

Definition bind {A B} (c : M A) (k : A -> M B) : M B :=
  fun h =>
    match c h with
    | (Ok a, h') => k a h'
    | (Raise e, h') => (Raise e, h')
    end.

Definition lift {A} (r : result A) : M A := fun h => (r, h).

Definition get_mask : M (option (volume bool)) := fun h => (Ok (mask_obj h), h).

Definition logging_warning (msg : string) : M unit :=
  fun h => (Ok tt, Heap (mask_obj h) (log h ++ [msg])).

(** numpy's broadcasting of a 3-D array against an array of shape [s]: the
    shapes agree axis by axis, or the axis of the first has length 1 and
    its one entry is repeated along it. *)
Definition broadcastable (from to : nat * nat * nat) : bool :=
  let '(a, b, c) := from in
  let '(d, e, f) := to in
  ((a =? d) || (a =? 1)) && ((b =? e) || (b =? 1)) && ((c =? f) || (c =? 1)).

Definition broadcast_to {A} (v : volume A) (s : nat * nat * nat) (default : A)
  : list A :=
  let '(X, Y, Z) := shape v in
  map (fun i =>
         let '(x, y, z) := unravel s i in
         nth (ravel (shape v) (if X =? 1 then 0 else x)
                    (if Y =? 1 then 0 else y) (if Z =? 1 then 0 else z))
             (voxels v) default)
      (seq 0 (size3 s)).

(** [mask *= mask_any] on the caller's boolean mask object: [mask_any] is
    broadcast against the mask and the elementwise product is stored into
    the object itself; numpy raises ValueError when [mask_any] cannot be
    broadcast to the mask's shape. For equal shapes the product is entry by
    entry. *)
Definition imul_mask (mask_any : volume bool) : M (volume bool) :=
  fun h =>
    match mask_obj h with
    | None => (Raise ValueError, h)
    | Some mask =>
        if shape_eqb (shape mask) (shape mask_any) then
          let mask' :=
            Volume (shape mask)
                   (map (fun p => andb (fst p) (snd p))
                        (combine (voxels mask) (voxels mask_any))) in
          (Ok mask', Heap (Some mask') (log h))
        else if broadcastable (shape mask_any) (shape mask) then
          let mask' :=
            Volume (shape mask)
                   (map (fun p => andb (fst p) (snd p))
                        (combine (voxels mask)
                                 (broadcast_to mask_any (shape mask) false))) in
          (Ok mask', Heap (Some mask') (log h))
        else (Raise ValueError, h)
    end.

(** The mask the caller passed, if any, has the spatial extent of [data]. *)
Definition mask_fits {A} (data : volume A) (h : heap) : Prop :=
  match mask_obj h with
  | None => True
  | Some mask =>
      shape mask = shape data /\ length (voxels mask) = length (voxels data)
  end.

Declare Scope py_scope.
Delimit Scope py_scope with py.
Notation "x <- c ;; k" := (bind c (fun x => k))
  (at level 61, c at next level, right associativity) : py_scope.
Notation "' pat <- c ;; k" := (bind c (fun x => match x with pat => k end))
  (at level 61, pat pattern, c at next level, right associativity) : py_scope.
Local Open Scope py_scope.

(** *** The steps the six operations share *)

(** [mask = np.sum(data, axis=3).astype(bool)] when [mask is None], else the
    caller's mask unchanged (peaks_from_sh, maps_from_sh, convert_sh_basis,
    convert_sh_to_sf, fit_gamma). *)
Definition mask_or_derived (np : F.kernels) (data : volume (list float))
  : M (volume bool) :=
  m <- get_mask ;;
  match m with
  | None => ret (sum_axis3_astype_bool np data)
  | Some mask => ret mask
  end.

(** fit_from_model:
<<
    if mask is None:
        mask = np.sum(data, axis=3).astype(bool)
    else:
        mask_any = np.sum(data, axis=3).astype(bool)
        mask *= mask_any
>> *)
Definition fit_from_model_mask (np : F.kernels) (data : volume (list float))
  : M (volume bool) :=
  m <- get_mask ;;
  match m with
  | None => ret (sum_axis3_astype_bool np data)
  | Some _ =>
      let mask_any := sum_axis3_astype_bool np data in
      imul_mask mask_any
  end.

(** [multiprocessing.cpu_count() if nbr_processes is None or
    nbr_processes <= 0 else nbr_processes] (fit_from_model, fit_gamma). *)
Definition cpu_count_if_none_or_le0 (cpu_count : Z) (nbr_processes : option Z) : Z :=
  match nbr_processes with
  | None => cpu_count
  | Some n => if (n <=? 0)%Z then cpu_count else n
  end.

(** [multiprocessing.cpu_count() if nbr_processes is None or
    nbr_processes < 0 else nbr_processes] (peaks_from_sh, maps_from_sh,
    convert_sh_basis). *)
Definition cpu_count_if_none_or_lt0 (cpu_count : Z) (nbr_processes : option Z) : Z :=
  match nbr_processes with
  | None => cpu_count
  | Some n => if (n <? 0)%Z then cpu_count else n
  end.

(** [rows = data[mask].reshape((np.count_nonzero(mask), data_shape[3]))],
    [chunks = np.array_split(rows, nbr_processes)],
    [chunk_len = np.cumsum([0] + [len(c) for c in chunks])]. *)
Definition split_masked {A} (data : volume A) (mask : volume bool)
  (nbr_processes : Z) : result (list (list A) * list nat) :=
  match getitem_mask data mask with
  | Raise e => Raise e
  | Ok rows =>
      match Np.array_split rows nbr_processes with
      | Raise e => Raise e
      | Ok chunks => Ok (chunks, Np.chunk_offsets chunks)
      end
  end.

(** The first half of every operation: the mask, the rows inside it cut into
    chunks, and the chunk offsets. *)
Definition masked_chunks {A} (mask_step : M (volume bool)) (nbr_processes : Z)
  (data : volume A) : M (volume bool * list (list A) * list nat) :=
  mask <- mask_step ;;
  ' (chunks, chunk_len) <- lift (split_masked data mask nbr_processes) ;;
  ret (mask, chunks, chunk_len).

(** [pool.map(worker, zip(..., chunks, ..., np.arange(len(chunks))))]: the
    results come back in the order of the chunks, each carrying its
    [chunk_id]. *)
Definition pool_map {A B} (worker : A -> nat -> B) (chunks : list A) : list B :=
  map (fun p => worker (fst p) (snd p)) (combine chunks (seq 0 (length chunks))).

(** The re-assembly loop for one output array:
<<
    for i, ..., out, ... in results:
        tmp[chunk_len[i]:chunk_len[i+1]] = out
>> *)
Definition reassemble {A} (chunk_len : list nat) (results : list (nat * list A))
  (tmp : list A) : list A :=
  fold_left
    (fun tmp r =>
       Np.slice_assign tmp (nth (fst r) chunk_len 0) (nth (S (fst r)) chunk_len 0)
                       (snd r))
    results tmp.

(** *** Outputs *)

(** An entry of a [dtype='object'] array created by [np.zeros]: the integer
    0 it starts with, or the object stored into it. *)
Inductive cell (Fit : Type) : Type :=
| Zero
| Obj (f : Fit).

Arguments Zero {Fit}.
Arguments Obj {Fit} f.

(** [MultiVoxelFit(model, fit_array, mask)] *)
Record MultiVoxelFit (Fit : Type) : Type := {
  fit_array : volume (cell Fit);
  fit_mask : volume bool
}.

(** The array bound to [qa_map] when a chunk returns: the rank-2 array of
    zeros it was created as, or the rank-1 array a voxel rebound it to. *)
Inductive qa_array : Type :=
| QaRows (rows : list (list float))
| QaRow (row : list float).

(** The tuple a [maps_from_sh_parallel] call returns, after its chunk_id. *)
Record maps_chunk : Type := MapsChunk {
  nufo_map : list float;
  afd_max : list float;
  afd_sum : list float;
  rgb_map : list (list float);
  gfa_map : list float;
  qa_map : qa_array;
  max_odf : float;
  global_max : float
}.

(** The tuple [maps_from_sh] returns. *)
Record maps : Type := Maps {
  nufo_map_array : volume float;
  afd_max_array : volume float;
  afd_sum_array : volume float;
  rgb_map_array : volume (list float);
  gfa_map_array : volume float;
  qa_map_array : volume (list float)
}.

Inductive dtype : Set := float32 | float64.

(** [arr[idx] = v] on a rank-1 view. *)
Definition setitem {A} (arr : list A) (idx : nat) (v : A) : list A :=
  firstn idx arr ++ v :: skipn (S idx) arr.

(** [arr /= d] and [arr *= c] over every entry of an array of rows. *)
Definition idiv_rows (arr : volume (list float)) (d : float) : volume (list float) :=
  Volume (shape arr) (map (map (fun x => (x / d)%float)) (voxels arr)).

Definition imul_rows (arr : volume (list float)) (c : float) : volume (list float) :=
  Volume (shape arr) (map (map (fun x => (x * c)%float)) (voxels arr)).

(** The loop of maps_from_sh over the chunk results, for its two running
    maxima:
<<
    all_time_max_odf = -np.inf
    all_time_global_max = -np.inf
    for (i, ..., max_odf, global_max) in results:
        all_time_max_odf = max(all_time_global_max, max_odf)
        all_time_global_max = max(all_time_global_max, global_max)
>>
    The result is the pair (all_time_max_odf, all_time_global_max). *)
Definition all_time_maxima (results : list (nat * maps_chunk)) : float * float :=
  fold_left
    (fun acc r =>
       let all_time_global_max := snd acc in
       let all_time_max_odf := F.py_max all_time_global_max (max_odf (snd r)) in
       let all_time_global_max := F.py_max all_time_global_max (global_max (snd r)) in
       (all_time_max_odf, all_time_global_max))
    results (neg_infinity, neg_infinity).

(** [tmp_qa_map_array[chunk_len[i]:chunk_len[i+1], :] = qa_map] over the
    results; a rank-1 [qa_map] is broadcast to the rows of the slice. *)
Definition reassemble_qa (chunk_len : list nat) (results : list (nat * maps_chunk))
  (tmp : list (list float)) : list (list float) :=
  fold_left
    (fun tmp r =>
       let st := nth (fst r) chunk_len 0 in
       let en := nth (S (fst r)) chunk_len 0 in
       match qa_map (snd r) with
       | QaRows rows => Np.slice_assign tmp st en rows
       | QaRow row => Np.slice_fill tmp st en row
       end)
    results tmp.

(** [np.array_equal(np.array([0, 1]), afd_unique) or
    np.array_equal(np.array([1]), afd_unique)] for
    [afd_unique = np.unique(afd_max_array)]. *)
Definition afd_all_one (afd : volume float) : bool :=
  existsb (fun x => (x =? 1)%float) (voxels afd)
  && forallb (fun x => (x =? 0)%float || (x =? 1)%float) (voxels afd).

Section Operations.
Local Open Scope float_scope.

(** numpy's reductions, as the process that runs the operation computes
    them. *)
Variable np : F.kernels.

(** [multiprocessing.cpu_count()] *)
Variable cpu_count : Z.

(** *** fit_from_model *)

(** The fitted-model objects; [model_fit row] is [model.fit(row)], [None]
    when it raises [cvx.error.SolverError]; [nan_fit] is
    [MSDeconvFit(model, np.full((len(model.n)), np.NaN), None)]. *)
Variable Fit : Type.
Variable model_fit : list float -> option Fit.
Variable nan_fit : Fit.

Definition fit_from_model_parallel (data : list (list float)) (chunk_id : nat)
  : nat * list (cell Fit) :=
  (chunk_id,
   map (fun row =>
          if F.any row then
            match model_fit row with
            | Some fit => Obj fit
            | None => Obj nan_fit
            end
          else Zero)
       data).

(** fit_from_model up to [chunk_len = np.cumsum(...)]. *)
Definition fit_from_model_chunks (data : volume (list float))
  (nbr_processes : option Z) : M (volume bool * list (list (list float)) * list nat) :=
  masked_chunks (fit_from_model_mask np data)
                (cpu_count_if_none_or_le0 cpu_count nbr_processes) data.

Definition fit_from_model (data : volume (list float)) (nbr_processes : option Z)
  : M (MultiVoxelFit Fit) :=
  let data_shape := shape data in
  ' (mask, chunks, chunk_len) <- fit_from_model_chunks data nbr_processes ;;
  let results := pool_map fit_from_model_parallel chunks in
  let fit_array := zeros data_shape Zero in
  let tmp_fit_array := repeat Zero (Np.count_nonzero (voxels mask)) in
  let tmp_fit_array := reassemble chunk_len results tmp_fit_array in
  fit_array <- lift (setitem_mask fit_array mask tmp_fit_array) ;;
  ret {| fit_array := fit_array; fit_mask := mask |}.

(** *** peaks_from_sh *)

(** dipy's [peak_directions(odf, sphere, relative_peak_threshold,
    min_separation_angle, is_symmetric)]: directions, values, indices. *)
Variable peak_directions : list float -> list (list float) * list float * list Z.

Definition peaks_of_voxel (B : list (list float)) (absolute_threshold : float)
  (npeaks : nat) (normalize_peaks : bool) (shm : list float)
  : list (list float) * list float * list Z :=
  let peak_dirs := repeat (repeat 0 3) npeaks in
  let peak_values := repeat 0 npeaks in
  let peak_indices := repeat (-1)%Z npeaks in
  if F.any shm then
    let odf := F.np_vec_mat np shm B in
    let odf := map (fun x => if x <? absolute_threshold then 0 else x) odf in
    let '(dirs, peaks, ind) := peak_directions odf in
    if negb (length peaks =? 0)%nat then
      let n := Nat.min npeaks (length peaks) in
      let peak_dirs := firstn n dirs ++ skipn n peak_dirs in
      let peak_indices := firstn n ind ++ skipn n peak_indices in
      let peak_values := firstn n peaks ++ skipn n peak_values in
      if normalize_peaks then
        let peak_values :=
          map (fun v => v / nth 0 peaks nan) (firstn n peak_values)
          ++ skipn n peak_values in
        let peak_dirs :=
          map (fun p => map (fun c => c * snd p) (fst p))
              (combine peak_dirs peak_values) in
        (peak_dirs, peak_values, peak_indices)
      else (peak_dirs, peak_values, peak_indices)
    else (peak_dirs, peak_values, peak_indices)
  else (peak_dirs, peak_values, peak_indices).

Definition peaks_from_sh_parallel (B : list (list float))
  (absolute_threshold : float) (npeaks : nat) (normalize_peaks : bool)
  (shm_coeff : list (list float)) (chunk_id : nat)
  : nat * (list (list (list float)) * list (list float) * list (list Z)) :=
  let rows :=
    map (peaks_of_voxel B absolute_threshold npeaks normalize_peaks) shm_coeff in
  (chunk_id,
   (map (fun r => fst (fst r)) rows, map (fun r => snd (fst r)) rows,
    map (fun r => snd r) rows)).

(** Lines 191-203 of peaks_from_sh, from [data_shape = shm_coeff.shape] to
    [chunk_len = np.cumsum(...)]: the mask and the chunks. They are reached
    when the two calls before them, [order_from_ncoef] and
    [sh_to_sf_matrix] (lines 188-189), have returned, which takes a number
    of coefficients that belongs to an SH order (1, 6, 15, ...). *)
Definition peaks_from_sh_chunks (shm_coeff : volume (list float))
  (nbr_processes : option Z) : M (volume bool * list (list (list float)) * list nat) :=
  masked_chunks (mask_or_derived np shm_coeff)
                (cpu_count_if_none_or_lt0 cpu_count nbr_processes) shm_coeff.

(** [B] is the matrix [sh_to_sf_matrix(sphere, sh_order, sh_basis_type,
    full_basis)] returns for [sh_order = order_from_ncoef(shm_coeff.shape[-1],
    full_basis)]. The two calls come first in the function and raise for a
    number of coefficients that belongs to no SH order, before the mask is
    looked at: the definition is about the calls in which they returned. *)
Definition peaks_from_sh (B : list (list float)) (shm_coeff : volume (list float))
  (absolute_threshold : float) (normalize_peaks : bool) (npeaks : nat)
  (nbr_processes : option Z)
  : M (volume (list (list float)) * volume (list float) * volume (list float)) :=
  let data_shape := shape shm_coeff in
  ' (mask, chunks, chunk_len) <- peaks_from_sh_chunks shm_coeff nbr_processes ;;
  let results :=
    pool_map (peaks_from_sh_parallel B absolute_threshold npeaks normalize_peaks)
             chunks in
  let peak_dirs_array := zeros data_shape (repeat (repeat 0 3) npeaks) in
  let peak_values_array := zeros data_shape (repeat 0 npeaks) in
  let peak_indices_array := zeros data_shape (repeat 0 npeaks) in
  let M := Np.count_nonzero (voxels mask) in
  let tmp_peak_dirs_array :=
    reassemble chunk_len (map (fun r => (fst r, fst (fst (snd r)))) results)
               (repeat (repeat (repeat 0 3) npeaks) M) in
  let tmp_peak_values_array :=
    reassemble chunk_len (map (fun r => (fst r, snd (fst (snd r)))) results)
               (repeat (repeat 0 npeaks) M) in
  let tmp_peak_indices_array :=
    reassemble chunk_len
               (map (fun r => (fst r, map (map F.of_Z) (snd (snd r)))) results)
               (repeat (repeat 0 npeaks) M) in
  peak_dirs_array <- lift (setitem_mask peak_dirs_array mask tmp_peak_dirs_array) ;;
  peak_values_array <- lift (setitem_mask peak_values_array mask tmp_peak_values_array) ;;
  peak_indices_array <- lift (setitem_mask peak_indices_array mask tmp_peak_indices_array) ;;
  ret (peak_dirs_array, peak_values_array, peak_indices_array).

(** *** maps_from_sh *)

(** dipy's [gfa(odf)]. *)
Variable gfa : list float -> float.

(** One pass of the loop body of maps_from_sh_parallel, at index [idx] of the
    chunk; [vertices] is [sphere.vertices], one (x, y, z) row per direction. *)
Definition maps_of_voxel (B : list (list float)) (vertices : list (list float))
  (gfa_thr : float) (st : maps_chunk) (idx : nat)
  (shm peak_values peak_indices : list float) : maps_chunk :=
  if F.any shm then
    let odf := F.np_vec_mat np shm B in
    let odf := map F.clip0 odf in
    let sum_odf := F.np_sum np odf in
    let max_odf := F.maximum (max_odf st) sum_odf in
    let rgb_map :=
      if 0 <? sum_odf then
        let rgb := F.np_tmat_vec np (map (map abs) vertices) odf in
        let nrm := F.np_norm np rgb in
        let rgb := map (fun x => x / nrm) rgb in
        let rgb := map (fun x => x * sum_odf) rgb in
        setitem (rgb_map st) idx rgb
      else rgb_map st in
    let g := gfa odf in
    let gfa_map := setitem (gfa_map st) idx g in
    if g <? gfa_thr then
      MapsChunk (nufo_map st) (afd_max st) (afd_sum st) rgb_map gfa_map
                (qa_map st) max_odf
                (F.py_max (global_max st) (F.max odf))
    else
      let count := length (filter (fun i => (-1) <? i) peak_indices) in
      if negb (count =? 0)%nat then
        MapsChunk (setitem (nufo_map st) idx (F.of_nat count))
                  (setitem (afd_max st) idx (F.max peak_values))
                  (setitem (afd_sum st) idx (sqrt (F.np_dot np shm shm)))
                  rgb_map gfa_map
                  (QaRow (map (fun v => v - F.min odf) peak_values))
                  max_odf
                  (F.py_max (global_max st) (nth 0 peak_values nan))
      else
        MapsChunk (nufo_map st) (afd_max st) (afd_sum st) rgb_map gfa_map
                  (qa_map st) max_odf (global_max st)
  else st.

(** [npeaks] is [peak_values.shape[1]]; the three chunks have the same
    number of rows, being cut from arrays indexed by the same mask. *)
Definition maps_from_sh_parallel (B : list (list float))
  (vertices : list (list float)) (gfa_thr : float) (npeaks : nat)
  (shm_coeff peak_values peak_indices : list (list float)) (chunk_id : nat)
  : nat * maps_chunk :=
  let data_shape := length shm_coeff in
  let init :=
    MapsChunk (repeat 0 data_shape) (repeat 0 data_shape) (repeat 0 data_shape)
              (repeat (repeat 0 3) data_shape) (repeat 0 data_shape)
              (QaRows (repeat (repeat 0 npeaks) data_shape))
              0 neg_infinity in
  (chunk_id,
   fold_left
     (fun st r =>
        maps_of_voxel B vertices gfa_thr st (fst r)
                      (fst (fst (snd r))) (snd (fst (snd r))) (snd (snd r)))
     (combine (seq 0 data_shape)
              (combine (combine shm_coeff peak_values) peak_indices))
     init).

(** Lines 326-346 of maps_from_sh, from [data_shape = shm_coeff.shape] to
    [chunk_len = np.cumsum(...)], for [shm_coeff]: the mask and the chunks.
    They are reached when [order_from_ncoef] and [sh_to_sf_matrix] (lines
    323-324) have returned. *)
Definition maps_from_sh_chunks (shm_coeff : volume (list float))
  (nbr_processes : option Z) : M (volume bool * list (list (list float)) * list nat) :=
  masked_chunks (mask_or_derived np shm_coeff)
                (cpu_count_if_none_or_lt0 cpu_count nbr_processes) shm_coeff.

(** [npeaks] is [peak_values.shape[3]]; [B] is the matrix
    [sh_to_sf_matrix(sphere, sh_order, sh_basis_type)] returns for
    [sh_order = order_from_ncoef(shm_coeff.shape[-1])], the first two calls
    of the function, which raise for a number of coefficients that belongs
    to no SH order: the definition is about the calls in which they
    returned. *)
Definition maps_from_sh (B : list (list float)) (vertices : list (list float))
  (shm_coeff : volume (list float)) (peak_dirs : volume (list (list float)))
  (peak_values peak_indices : volume (list float)) (npeaks : nat)
  (gfa_thr : float) (nbr_processes : option Z) : M maps :=
  let data_shape := shape shm_coeff in
  ' (mask, shm_coeff_chunks, chunk_len) <-
      maps_from_sh_chunks shm_coeff nbr_processes ;;
  let nbr_processes := cpu_count_if_none_or_lt0 cpu_count nbr_processes in
  ' (peak_dirs_chunks, _) <- lift (split_masked peak_dirs mask nbr_processes) ;;
  ' (peak_values_chunks, _) <- lift (split_masked peak_values mask nbr_processes) ;;
  ' (peak_indices_chunks, _) <- lift (split_masked peak_indices mask nbr_processes) ;;
  let results :=
    map (fun a =>
           maps_from_sh_parallel B vertices gfa_thr npeaks
             (fst (fst (fst (fst a)))) (snd (fst (fst a))) (snd (fst a)) (snd a))
        (combine (combine (combine (combine shm_coeff_chunks peak_dirs_chunks)
                                   peak_values_chunks)
                          peak_indices_chunks)
                 (seq 0 (length shm_coeff_chunks))) in
  let nufo_map_array := zeros data_shape 0 in
  let afd_max_array := zeros data_shape 0 in
  let afd_sum_array := zeros data_shape 0 in
  let rgb_map_array := zeros data_shape (repeat 0 3) in
  let gfa_map_array := zeros data_shape 0 in
  let qa_map_array := zeros data_shape (repeat 0 npeaks) in
  let M := Np.count_nonzero (voxels mask) in
  let out (f : maps_chunk -> list float) :=
    reassemble chunk_len (map (fun r => (fst r, f (snd r))) results) (repeat 0 M) in
  let tmp_rgb_map_array :=
    reassemble chunk_len (map (fun r => (fst r, rgb_map (snd r))) results)
               (repeat (repeat 0 3) M) in
  let tmp_qa_map_array :=
    reassemble_qa chunk_len results (repeat (repeat 0 npeaks) M) in
  let '(all_time_max_odf, all_time_global_max) := all_time_maxima results in
  nufo_map_array <- lift (setitem_mask nufo_map_array mask (out nufo_map)) ;;
  afd_max_array <- lift (setitem_mask afd_max_array mask (out afd_max)) ;;
  afd_sum_array <- lift (setitem_mask afd_sum_array mask (out afd_sum)) ;;
  rgb_map_array <- lift (setitem_mask rgb_map_array mask tmp_rgb_map_array) ;;
  gfa_map_array <- lift (setitem_mask gfa_map_array mask (out gfa_map)) ;;
  qa_map_array <- lift (setitem_mask qa_map_array mask tmp_qa_map_array) ;;
  let rgb_map_array := idiv_rows rgb_map_array all_time_max_odf in
  let rgb_map_array := imul_rows rgb_map_array 255 in
  let qa_map_array := idiv_rows qa_map_array all_time_global_max in
  _ <- (if afd_all_one afd_max_array
        then logging_warning "All AFD_max values are 1. The peaks seem normalized."
        else ret tt) ;;
  ret (Maps nufo_map_array afd_max_array afd_sum_array
            rgb_map_array gfa_map_array qa_map_array).

(** *** convert_sh_basis *)

Definition convert_sh_basis_parallel (B_in invB_out : list (list float))
  (sh : list (list float)) (chunk_id : nat) : nat * list (list float) :=
  (chunk_id,
   map (fun row =>
          if F.any row then
            let sf := F.np_vec_mat np row B_in in
            F.np_vec_mat np sf invB_out
          else row)
       sh).

(** Lines 473-486 of convert_sh_basis, from [data_shape = shm_coeff.shape]
    to [chunk_len = np.cumsum(...)]: the mask and the chunks. They are
    reached when [order_from_ncoef] and the two calls of [sh_to_sf_matrix]
    (lines 467-471) have returned. *)
Definition convert_sh_basis_chunks (shm_coeff : volume (list float))
  (nbr_processes : option Z) : M (volume bool * list (list (list float)) * list nat) :=
  masked_chunks (mask_or_derived np shm_coeff)
                (cpu_count_if_none_or_lt0 cpu_count nbr_processes) shm_coeff.

(** [B_in] and [invB_out] are the matrices [sh_to_sf_matrix] returns for the
    input and the output basis, called first in the function with the order
    [order_from_ncoef] gives (they raise for a number of coefficients that
    belongs to no SH order); [ncoef] is [data_shape[3]]. *)
Definition convert_sh_basis (B_in invB_out : list (list float))
  (shm_coeff : volume (list float)) (ncoef : nat) (nbr_processes : option Z)
  : M (volume (list float)) :=
  let data_shape := shape shm_coeff in
  ' (mask, shm_coeff_chunks, chunk_len) <-
      convert_sh_basis_chunks shm_coeff nbr_processes ;;
  let results :=
    pool_map (convert_sh_basis_parallel B_in invB_out) shm_coeff_chunks in
  let shm_coeff_array := zeros data_shape (repeat 0 ncoef) in
  let tmp_shm_coeff_array :=
    reassemble chunk_len results
               (repeat (repeat 0 ncoef) (Np.count_nonzero (voxels mask))) in
  lift (setitem_mask shm_coeff_array mask tmp_shm_coeff_array).

(** *** convert_sh_to_sf *)

(** Rounding of a float64 value to float32 precision (the worker's output
    array has [dtype=np.float32]). *)
Variable as_float32 : float -> float.

Definition convert_sh_to_sf_parallel (B_in : list (list float))
  (new_output_dim : nat) (sh : list (list float)) (chunk_id : nat)
  : nat * list (list float) :=
  (chunk_id,
   map (fun row =>
          if F.any row then map as_float32 (F.np_vec_mat np row B_in)
          else repeat 0 new_output_dim)
       sh).

(** Lines 564-573 of convert_sh_to_sf, from [data_shape = shm_coeff.shape]
    to [chunk_len = np.cumsum(...)]: the mask and the chunks;
    [nbr_processes] is used as passed. They are reached when
    [order_from_ncoef] and [sh_to_sf_matrix] (lines 558-562) have
    returned. *)
Definition convert_sh_to_sf_chunks (shm_coeff : volume (list float))
  (nbr_processes : Z) : M (volume bool * list (list (list float)) * list nat) :=
  masked_chunks (mask_or_derived np shm_coeff) nbr_processes shm_coeff.

(** [nbr_processes] has the default value [multiprocessing.cpu_count()] and
    is used as passed; [n_vertices] is [len(sphere.vertices)]; [B_in] is the
    matrix the first two calls of the function, [order_from_ncoef] and
    [sh_to_sf_matrix], return (they raise for a number of coefficients that
    belongs to no SH order). *)
Definition convert_sh_to_sf (B_in : list (list float)) (n_vertices : nat)
  (shm_coeff : volume (list float)) (dt : dtype) (nbr_processes : Z)
  : M (volume (list float)) :=
  let B_in :=
    match dt with
    | float32 => map (map as_float32) B_in
    | float64 => B_in
    end in
  let data_shape := shape shm_coeff in
  ' (mask, shm_coeff_chunks, chunk_len) <-
      convert_sh_to_sf_chunks shm_coeff nbr_processes ;;
  let results :=
    pool_map (convert_sh_to_sf_parallel B_in n_vertices) shm_coeff_chunks in
  let sf_array := zeros data_shape (repeat 0 n_vertices) in
  let tmp_sf_array :=
    reassemble chunk_len results
               (repeat (repeat 0 n_vertices) (Np.count_nonzero (voxels mask))) in
  lift (setitem_mask sf_array mask tmp_sf_array).

(** *** fit_gamma *)

(** scilpy's [gamma_data2fit(data[i], gtab_infos, fit_iters, random_iters,
    do_weight_bvals, do_weight_pa, do_multiple_s0)]: the four fitted
    parameters. The fit starts from [random_iters] random sets of
    parameters and is given no seed and no generator, so what a call
    returns belongs to the call and not to the row alone:
    [gamma_data2fit chunk_id i row] is what the call made for row [i] of
    chunk [chunk_id] returned in the run at hand. *)
Variable gamma_data2fit : nat -> nat -> list float -> list float.

Definition fit_gamma_parallel (data : list (list float)) (chunk_id : nat)
  : nat * list (list float) :=
  (chunk_id,
   map (fun r =>
          if F.any (snd r) then gamma_data2fit chunk_id (fst r) (snd r)
          else repeat 0 4)
       (combine (seq 0 (length data)) data)).

(** fit_gamma up to [chunk_len = np.cumsum(...)]. *)
Definition fit_gamma_chunks (data : volume (list float))
  (nbr_processes : option Z) : M (volume bool * list (list (list float)) * list nat) :=
  masked_chunks (mask_or_derived np data)
                (cpu_count_if_none_or_le0 cpu_count nbr_processes) data.

Definition fit_gamma (data : volume (list float)) (nbr_processes : option Z)
  : M (volume (list float)) :=
  let data_shape := shape data in
  ' (mask, chunks, chunk_len) <- fit_gamma_chunks data nbr_processes ;;
  let results := pool_map fit_gamma_parallel chunks in
  let fit_array := zeros data_shape (repeat 0 4) in
  let tmp_fit_array :=
    reassemble chunk_len results
               (repeat (repeat 0 4) (Np.count_nonzero (voxels mask))) in
  lift (setitem_mask fit_array mask tmp_fit_array).

End Operations.

End MultiProcesses.

(** ** scilpy/tracking/seed.py and the Seed class of
       scilpy/tracking/trackable_dataset.py *)

Module Seeding.
Import MultiProcesses.
Local Open Scope float_scope.

(** The nibabel image a seed generator is built from: its voxel sizes and
    its 3-D data. *)
Record image : Type := Image {
  zooms : float * float * float;
  fdata : volume float
}.

Record SeedGenerator : Type := {
  pixdim : float * float * float;
  seeds : list (float * float * float)
}.

(** [np.array(np.where(data > 0)).transpose()]: the coordinates of the
    positive voxels, in C order. *)
Definition where_positive (data : volume float) : list (nat * nat * nat) :=
  map (fun p => unravel (shape data) (fst p))
      (filter (fun p => 0 <? snd p)
              (combine (seq 0 (length (voxels data))) (voxels data))).

(** [SeedGenerator.__init__]: the object and the warnings it logged. The
    image is 3-D with no axis of length one, so that [np.squeeze] returns
    it as it is. *)
Definition SeedGenerator_init (img : image) : SeedGenerator * list string :=
  let pixdim := zooms img in
  let data := fdata img in
  let seeds :=
    map (fun c => let '(x, y, z) := c in
                  (F.of_nat x + 0.5, F.of_nat y + 0.5, F.of_nat z + 0.5))
        (where_positive data) in
  let self := {| pixdim := pixdim; seeds := seeds |} in
  if (length seeds =? 0)%nat
  then (self, ["There are positive voxels in the seeding mask!"%string])
  else (self, []).

Section Generator.

(** [np.random.RandomState]: the generator state, seeding, one uniform
    double in [0, 1), and the in-place shuffle of an index array. *)
Variable rng : Type.
Variable RandomState : Z -> rng.
Variable next_double : rng -> float * rng.
Variable shuffle : list nat -> rng -> list nat * rng.

(** [np.asscalar(a)], that is [a.item()]: the Python integer of a numpy
    integer scalar. On a plain Python int it raises AttributeError, and so
    does every call from numpy 1.23 on, where the function is gone. *)
Variable asscalar : Z -> result Z.

(** [n] successive doubles. *)
Fixpoint draws (n : nat) (g : rng) : list float * rng :=
  match n with
  | O => ([], g)
  | S n' =>
      let (x, g1) := next_double g in
      let (xs, g2) := draws n' g1 in
      (x :: xs, g2)
  end.

(** [random_generator.random_sample(size)], the same stream as
    [random_generator.rand(size)]: the array of [size] successive doubles;
    a negative size is refused. *)
Definition random_sample (size : Z) (g : rng) : result (list float * rng) :=
  if (size <? 0)%Z then Raise ValueError else Ok (draws (Z.to_nat size) g).

Definition rand (size : Z) (g : rng) : result (list float * rng) :=
  random_sample size g.

(** [random_generator.uniform(low, high)] *)
Definition uniform (low high : float) (g : rng) : float * rng :=
  let (u, g') := next_double g in (low + (high - low) * u, g').

#[local] Opaque random_sample rand.

(** The discard loop of init_generator:
<<
    while random_numbers_to_skip > 100000:
        random_generator.random_sample(100000)
        random_numbers_to_skip -= 100000
    random_generator.random_sample(random_numbers_to_skip)
>> *)
Equations skip_random_numbers (random_numbers_to_skip : Z) (g : rng)
  : result rng by wf (Z.to_nat random_numbers_to_skip) lt :=
skip_random_numbers n g with Z_lt_dec 100000 n := {
  | left _ with random_sample 100000 g := {
      | Ok r => skip_random_numbers (n - 100000) (snd r)
      | Raise e => Raise e }
  | right _ with random_sample n g := {
      | Ok r => Ok (snd r)
      | Raise e => Raise e }
  }.
Next Obligation. lia. Qed.

(** [SeedGenerator.init_generator] *)
Definition init_generator (self : SeedGenerator) (random_initial_value : Z)
  (first_seed_of_chunk : Z) : result (rng * list nat) :=
  let random_generator := RandomState random_initial_value in
  let indices := seq 0 (length (seeds self)) in
  let (indices, random_generator) := shuffle indices random_generator in
  let random_numbers_to_skip := (first_seed_of_chunk * 3)%Z in
  match skip_random_numbers random_numbers_to_skip random_generator with
  | Ok random_generator => Ok (random_generator, indices)
  | Raise e => Raise e
  end.

(** [Seed.init_pos] of trackable_dataset.py: the same steps, drawing with
    [rand]:
<<
    seed_to_go = np.asscalar(first_seed_of_chunk)*3
    while seed_to_go > 100000:
        random_generator.rand(100000)
        seed_to_go -= 100000
    random_generator.rand(seed_to_go)
>> *)
Equations skip_seeds (seed_to_go : Z) (g : rng)
  : result rng by wf (Z.to_nat seed_to_go) lt :=
skip_seeds n g with Z_lt_dec 100000 n := {
  | left _ with rand 100000 g := {
      | Ok r => skip_seeds (n - 100000) (snd r)
      | Raise e => Raise e }
  | right _ with rand n g := {
      | Ok r => Ok (snd r)
      | Raise e => Raise e }
  }.
Next Obligation. lia. Qed.
#[local] Transparent random_sample rand.

Definition init_pos (n_seeds : nat) (random_initial_value : Z)
  (first_seed_of_chunk : Z) : result (rng * list nat) :=
  let random_generator := RandomState random_initial_value in
  let indices := seq 0 n_seeds in
  let (indices, random_generator) := shuffle indices random_generator in
  match asscalar first_seed_of_chunk with
  | Raise e => Raise e
  | Ok first_seed =>
      let seed_to_go := (first_seed * 3)%Z in
      match skip_seeds seed_to_go random_generator with
      | Ok random_generator => Ok (random_generator, indices)
      | Raise e => Raise e
      end
  end.

(** [SeedGenerator.get_next_pos]: [None] is the empty list it returns when
    there is no seed voxel. *)
Definition get_next_pos (self : SeedGenerator) (random_generator : rng)
  (indices : list nat) (which_seed : nat)
  : option (float * float * float) * rng :=
  let len_seeds := length (seeds self) in
  if (len_seeds =? 0)%nat then (None, random_generator)
  else
    let '(p0, p1, p2) := pixdim self in
    let ind := (which_seed mod len_seeds)%nat in
    let '(x, y, z) := nth (nth ind indices 0%nat) (seeds self) (nan, nan, nan) in
    let (r_x, g1) := uniform (- (p0 / 2)) (p0 / 2) random_generator in
    let (r_y, g2) := uniform (- (p1 / 2)) (p1 / 2) g1 in
    let (r_z, g3) := uniform (- (p2 / 2)) (p2 / 2) g2 in
    (Some (x * p0 + r_x, y * p1 + r_y, z * p2 + r_z), g3).

End Generator.

(** A small linear congruential generator, to run the model on. *)
Definition lcg_next (s : Z) : float * Z :=
  let s' := ((1103515245 * s + 12345) mod 2147483648)%Z in
  (F.of_Z s' / 2147483648, s').

Definition lcg_shuffle (indices : list nat) (s : Z) : list nat * Z :=
  (rev indices, snd (lcg_next s)).

End Seeding.

(** ** The Dataset class of scilpy/tracking/trackable_dataset.py *)

Module TrackableDataset.

(** [self.data], indexed [data[x][y][z]], with [self.dim = data.shape];
    an entry is the row of values along the fourth axis. *)
Record Dataset (A : Type) : Type := {
  dim : Z * Z * Z;
  data : list (list (list A))
}.

(** [dim] is the shape of [data]. *)
Definition has_shape {A} (self : Dataset A) : Prop :=
  let '(X, Y, Z) := dim self in
  Z.of_nat (length (data self)) = X
  /\ Forall (fun plane =>
       Z.of_nat (length plane) = Y
       /\ Forall (fun line => Z.of_nat (length line) = Z) plane)
       (data self).

(** [arr[i]] for a Python integer [i]: negative indices count from the end,
    anything outside [-n, n) raises. *)
Definition getitem {A} (arr : list A) (i : Z) : result A :=
  let n := Z.of_nat (length arr) in
  let j := if (i <? 0)%Z then (i + n)%Z else i in
  if ((0 <=? j) && (j <? n))%Z then
    match nth_error arr (Z.to_nat j) with
    | Some a => Ok a
    | None => Raise IndexError
    end
  else Raise IndexError.

Definition isVoxelInBound {A} (self : Dataset A) (x y z : Z) : bool :=
  let '(X, Y, Z) := dim self in
  ((x <? X) && (y <? Y) && (z <? Z) && (x >=? 0) && (y >=? 0) && (z >=? 0))%Z.

Definition getVoxelValue {A} (self : Dataset A) (x y z : Z) : result A :=
  let '(X, Y, Z) := dim self in
  let '(x, y, z) :=
    if negb (isVoxelInBound self x y z)
    then (Z.max 0 (Z.min (X - 1) x), Z.max 0 (Z.min (Y - 1) y),
          Z.max 0 (Z.min (Z - 1) z))
    else (x, y, z) in
  match getitem (data self) x with
  | Raise e => Raise e
  | Ok plane =>
      match getitem plane y with
      | Raise e => Raise e
      | Ok line => getitem line z
      end
  end.

End TrackableDataset.

(** ** Stand-ins for dipy's peak search, to run the model on *)

Definition three_peaks (odf : list float)
  : list (list float) * list float * list Z :=
  ([[1; 0; 0]; [0; 1; 0]; [0; 0; 1]]%float, [5; 3; 2]%float, [4; 7; 9]%Z).

Definition one_peak (odf : list float)
  : list (list float) * list float * list Z :=
  ([[1; 0; 0]]%float, [5]%float, [4]%Z).


(** ** What an operation does to the heap *)

(** A computation that leaves the heap as it found it, whatever it returns. *)
Definition leaves_heap {A} (c : MultiProcesses.M A) : Prop :=
  forall h, snd (c h) = h.

(** A computation that leaves the caller's mask as it found it and can only
    add to the logging output. *)
Definition only_logs {A} (c : MultiProcesses.M A) : Prop :=
  forall h, MultiProcesses.mask_obj (snd (c h)) = MultiProcesses.mask_obj h
            /\ exists l, MultiProcesses.log (snd (c h)) = MultiProcesses.log h ++ l.

(** ** maps_from_sh_parallel, voxel by voxel

    The values one pass of the loop body stores at its index, as functions
    of the voxel's rows of [shm_coeff], [peak_values] and [peak_indices]. *)

Section MapsOfVoxel.
Local Open Scope float_scope.
Variable np : F.kernels.
Variable gfa : list float -> float.
Variable B vertices : list (list float).
Variable gfa_thr : float.

(** [odf = np.dot(shm_coeff[idx], B).clip(min=0)] *)
Definition odf_of_voxel (shm : list float) : list float :=
  map F.clip0 (F.np_vec_mat np shm B).

(** [np.sum(peak_indices[idx] > -1)] *)
Definition peak_count (peak_indices : list float) : nat :=
  length (filter (fun i => (-1) <? i) peak_indices).

(** The voxels that reach the [elif] branch and enter it: a row with a
    nonzero entry, a GFA that is not below the threshold, and a peak index
    above -1. *)
Definition peaks_read (shm peak_indices : list float) : bool :=
  F.any shm && negb (gfa (odf_of_voxel shm) <? gfa_thr)
  && negb (peak_count peak_indices =? 0)%nat.

Definition nufo_of_voxel (shm peak_indices : list float) : float :=
  if peaks_read shm peak_indices then F.of_nat (peak_count peak_indices) else 0.

Definition afd_max_of_voxel (shm peak_values peak_indices : list float) : float :=
  if peaks_read shm peak_indices then F.max peak_values else 0.

Definition afd_sum_of_voxel (shm peak_indices : list float) : float :=
  if peaks_read shm peak_indices then sqrt (F.np_dot np shm shm) else 0.

Definition gfa_of_voxel (shm : list float) : float :=
  if F.any shm then gfa (odf_of_voxel shm) else 0.

(** The row of [rgb_map] before the division by [all_time_max_odf]. *)
Definition rgb_of_voxel (shm : list float) : list float :=
  let odf := odf_of_voxel shm in
  let sum_odf := F.np_sum np odf in
  if F.any shm && (0 <? sum_odf) then
    let rgb := F.np_tmat_vec np (map (map abs) vertices) odf in
    let nrm := F.np_norm np rgb in
    map (fun x => x * sum_odf) (map (fun x => x / nrm) rgb)
  else repeat 0 3.

(** [qa_map] as a chunk returns it: the array of zeros it was created as
    when no voxel of the chunk had its peaks read, else the row
    [peak_values[idx] - odf.min()] of the last voxel that had. *)
Definition qa_of_chunk (npeaks : nat)
  (rows : list (list float * list float * list float)) : MultiProcesses.qa_array :=
  match find (fun v => peaks_read (fst (fst v)) (snd v)) (rev rows) with
  | Some v =>
      MultiProcesses.QaRow
        (map (fun x => x - F.min (odf_of_voxel (fst (fst v)))) (snd (fst v)))
  | None => MultiProcesses.QaRows (repeat (repeat 0 npeaks) (length rows))
  end.

End MapsOfVoxel.

(** ** scilpy/io/utils.py: the checks on input and output paths *)

Module IoUtils.
Local Open Scope string_scope.

(** What a call of one of the two checks does: it returns, or it calls
    [parser.error(message)], which prints the usage with the message and
    exits the process. *)
Inductive outcome : Type :=
| Returns
| ParserError (message : string).

Section Files.

(** [os.path.isfile] on the file system the script runs on. *)
Variable isfile : string -> bool.

(** [for required_file in required: check(required_file)], which goes no
    further than the first call of [parser.error]. *)
Fixpoint check_required (check : string -> outcome) (required : list string)
  : outcome :=
  match required with
  | [] => Returns
  | required_file :: rest =>
      match check required_file with
      | Returns => check_required check rest
      | ParserError message => ParserError message
      end
  end.

(** The second loop:
<<
    for optional_file in optional or []:
        if optional_file is not None:
            check(optional_file)
>> *)
Fixpoint check_optional (check : string -> outcome)
  (optional : list (option string)) : outcome :=
  match optional with
  | [] => Returns
  | None :: rest => check_optional check rest
  | Some optional_file :: rest =>
      match check optional_file with
      | Returns => check_optional check rest
      | ParserError message => ParserError message
      end
  end.

(** [optional or []] *)
Definition or_empty {A} (optional : option (list A)) : list A :=
  match optional with
  | Some l => l
  | None => []
  end.

Definition assert_inputs_exist (required : list string)
  (optional : option (list (option string))) : outcome :=
  let check (path : string) :=
    if negb (isfile path)
    then ParserError ("Input file " ++ path ++ " does not exist")
    else Returns in
  match check_required check required with
  | Returns => check_optional check (or_empty optional)
  | ParserError message => ParserError message
  end.

(** [overwrite] is [args.overwrite], the flag [-f] sets. *)
Definition assert_outputs_exists (overwrite : bool) (required : list string)
  (optional : option (list (option string))) : outcome :=
  let check (path : string) :=
    if isfile path && negb overwrite
    then ParserError ("Output file " ++ path
                      ++ " exists. Use -f to force overwriting")
    else Returns in
  match check_required check required with
  | Returns => check_optional check (or_empty optional)
  | ParserError message => ParserError message
  end.

End Files.

(** The paths a call checks, in the order it checks them. *)
Definition checked_paths (required : list string)
  (optional : option (list (option string))) : list string :=
  required
  ++ flat_map (fun o => match o with Some p => [p] | None => [] end)
              (or_empty optional).

End IoUtils.

(** ** scilpy/version.py: PYTHON_VERSION *)

Module Version.
Local Open Scope string_scope.

Definition newline : ascii := "010"%char.

(** A string in which no newline occurs, as the text of a line is. *)
Definition no_newline (s : string) : Prop :=
  forall c, In c (list_ascii_of_string s) -> c <> newline.

(** [s.strip("\n")]: the newlines at both ends are dropped. *)
Fixpoint lstrip_newline (s : string) : string :=
  match s with
  | EmptyString => EmptyString
  | String c s' => if Ascii.eqb c newline then lstrip_newline s' else s
  end.

Fixpoint rstrip_newline (s : string) : string :=
  match s with
  | EmptyString => EmptyString
  | String c s' =>
      match rstrip_newline s' with
      | EmptyString =>
          if Ascii.eqb c newline then EmptyString else String c EmptyString
      | r => String c r
      end
  end.

Definition strip_newline (s : string) : string :=
  rstrip_newline (lstrip_newline s).

(** [s.split(".")]: the pieces between the dots, at least one. *)
Fixpoint split_dot (s : string) : list string :=
  match s with
  | EmptyString => [EmptyString]
  | String c s' =>
      if Ascii.eqb c "."%char then EmptyString :: split_dot s'
      else
        match split_dot s' with
        | piece :: rest => String c piece :: rest
        | [] => [String c EmptyString]
        end
  end.

(** The block that reads [.python-version], as a function of the line
    [f.readline()] returns:
<<
    py_version = f.readline().strip("\n").split(".")
    py_major = py_version[0]
    py_minor = py_version[1]
    py_micro = "*"
    py_extra = None
    if len(py_version) > 2:
        py_micro = py_version[2]
    if len(py_version) > 3:
        py_extra = py_version[3]
    PYTHON_VERSION = ".".join([py_major, py_minor, py_micro])
    if py_extra:
        PYTHON_VERSION = ".".join([PYTHON_VERSION, py_extra])
    PYTHON_VERSION = "".join(["==", PYTHON_VERSION])
>> *)
Definition PYTHON_VERSION (line : string) : result string :=
  let py_version := split_dot (strip_newline line) in
  match py_version with
  | py_major :: py_minor :: rest =>
      let py_micro := match rest with micro :: _ => micro | [] => "*" end in
      let py_extra := match rest with _ :: extra :: _ => Some extra | _ => None end in
      let version := String.concat "." [py_major; py_minor; py_micro] in
      let version :=
        match py_extra with
        | Some (String c extra) => String.concat "." [version; String c extra]
        | Some EmptyString | None => version
        end in
      Ok (String.concat "" ["=="; version])
  | _ => Raise IndexError
  end.

End Version.
(** ** numpy: facts *)

Lemma list_sum_repeat (x n : nat) : list_sum (repeat x n) = n * x.
Proof. induction n as [|n IH]; simpl; [reflexivity | rewrite IH; lia]. Qed.

Lemma nth_cumsum_from (l : list nat) (acc i : nat) :
  i < length l ->
  nth i (Np.cumsum_from acc l) 0 = acc + list_sum (firstn (S i) l).
Proof.
  revert acc i.
  induction l as [|x l IH]; intros acc i Hi; simpl in Hi; [lia|].
  destruct i as [|i].
  - simpl. lia.
  - cbn [Np.cumsum_from nth]. rewrite IH by lia.
    change (firstn (S (S i)) (x :: l)) with (x :: firstn (S i) l).
    simpl. lia.
Qed.

Lemma nth_cumsum_zero_cons (l : list nat) (i : nat) :
  i <= length l ->
  nth i (Np.cumsum (0 :: l)) 0 = list_sum (firstn i l).
Proof.
  intros Hi. unfold Np.cumsum.
  rewrite nth_cumsum_from by (simpl; lia).
  reflexivity.
Qed.

Lemma firstn_slice_app {A} (l : list A) (a b : nat) :
  a <= b -> firstn a l ++ Np.slice l a b = firstn b l.
Proof.
  unfold Np.slice. revert l b.
  induction a as [|a IH]; intros l b Hab.
  - simpl. now rewrite Nat.sub_0_r.
  - destruct b as [|b]; [lia|].
    destruct l as [|x l]; [now rewrite !firstn_nil|].
    simpl. f_equal. apply IH. lia.
Qed.

Lemma length_slice {A} (l : list A) (a b : nat) :
  b <= length l -> length (Np.slice l a b) = b - a.
Proof.
  intros Hb. unfold Np.slice.
  rewrite length_firstn, length_skipn. lia.
Qed.

Lemma list_sum_firstn_le (l : list nat) (i j : nat) :
  i <= j -> list_sum (firstn i l) <= list_sum (firstn j l).
Proof.
  revert i j. induction l as [|x l IH]; intros i j Hij.
  - now rewrite !firstn_nil.
  - destruct i as [|i]; [simpl; lia|].
    destruct j as [|j]; [lia|].
    simpl. specialize (IH i j). lia.
Qed.

Lemma list_sum_firstn_S (l : list nat) (i : nat) :
  i < length l ->
  list_sum (firstn (S i) l) = list_sum (firstn i l) + nth i l 0.
Proof.
  revert i. induction l as [|x l IH]; intros i Hi; simpl in Hi; [lia|].
  destruct i as [|i].
  - simpl. lia.
  - change (firstn (S (S i)) (x :: l)) with (x :: firstn (S i) l).
    change (firstn (S i) (x :: l)) with (x :: firstn i l).
    cbn [list_sum nth fold_right]. fold (list_sum (firstn (S i) l)).
    fold (list_sum (firstn i l)).
    rewrite IH by lia. lia.
Qed.

(** Cutting a sequence at the running sums of a list of sizes that add up to
    its length gives chunks of exactly those sizes whose concatenation is the
    sequence. *)
Section Cut.
Context {A : Type}.
Variable ary : list A.
Variable sizes : list nat.
Hypothesis sizes_total : list_sum sizes = length ary.

Let points := Np.cumsum (0 :: sizes).
Let cut (n : nat) : list (list A) :=
    map (fun i => Np.slice ary (nth i points 0) (nth (S i) points 0)) (seq 0 n).

Lemma cut_concat (n : nat) :
    n <= length sizes ->
    concat (cut n) = firstn (list_sum (firstn n sizes)) ary.
Proof.
    induction n as [|n IH]; intros Hn.
    - reflexivity.
    - unfold cut in *. rewrite seq_S, map_app, concat_app, IH by lia.
      cbn [map concat Nat.add]. rewrite app_nil_r.
      unfold points. rewrite !nth_cumsum_zero_cons by lia.
      apply firstn_slice_app, list_sum_firstn_le. lia.
Qed.

Lemma cut_lengths (n : nat) :
    n <= length sizes ->
    map (@length A) (cut n) = firstn n sizes.
Proof.
    induction n as [|n IH]; intros Hn.
    - reflexivity.
    - unfold cut in *. rewrite seq_S, map_app, map_app, IH by lia.
      cbn [map Nat.add]. unfold points.
      rewrite !nth_cumsum_zero_cons by lia.
      rewrite length_slice.
      + rewrite list_sum_firstn_S by lia.
        replace (list_sum (firstn n sizes) + nth n sizes 0
                 - list_sum (firstn n sizes)) with (nth n sizes 0) by lia.
        clear - Hn. revert n Hn.
        induction sizes as [|x l IHl]; intros n Hn; simpl in Hn; [lia|].
        destruct n as [|n]; [reflexivity|].
        change (firstn (S (S n)) (x :: l)) with (x :: firstn (S n) l).
        cbn [firstn app nth]. f_equal. apply IHl. lia.
      + rewrite <- sizes_total.
        rewrite <- (firstn_all sizes) at 2.
        apply list_sum_firstn_le. lia.
Qed.
End Cut.

Lemma nth_map_seq {B} (f : nat -> B) (d : B) (n i : nat) :
  i < n -> nth i (map f (seq 0 n)) d = f i.
Proof.
  intros Hi.
  rewrite (nth_indep _ d (f 0)) by now rewrite length_map, length_seq.
  rewrite map_nth, seq_nth by assumption. reflexivity.
Qed.

Lemma section_sizes_total (M k : nat) :
  0 < k ->
  list_sum (repeat (M / k + 1) (M mod k) ++ repeat (M / k) (k - M mod k)) = M.
Proof.
  intros Hk. rewrite list_sum_app, !list_sum_repeat.
  pose proof (Nat.div_mod_eq M k) as E.
  pose proof (Nat.mod_upper_bound M k ltac:(lia)) as B.
  nia.
Qed.

Lemma section_sizes_length (M k : nat) :
  0 < k ->
  length (repeat (M / k + 1) (M mod k) ++ repeat (M / k) (k - M mod k)) = k.
Proof.
  intros Hk. rewrite length_app, !repeat_length.
  pose proof (Nat.mod_upper_bound M k ltac:(lia)). lia.
Qed.

(** ** Chunking *)

Lemma array_split_ok {A} (ary : list A) (K : Z) :
  (0 < K)%Z ->
  Np.array_split ary K =
  Ok (map (fun i =>
             Np.slice ary
               (nth i (Np.cumsum (Np.section_sizes (length ary) (Z.to_nat K))) 0)
               (nth (S i) (Np.cumsum (Np.section_sizes (length ary) (Z.to_nat K))) 0))
          (seq 0 (Z.to_nat K))).
Proof.
  intros HK. unfold Np.array_split.
  destruct (Z.leb_spec K 0) as [Hle|_]; [lia | reflexivity].
Qed.

Lemma array_split_lengths {A} (ary : list A) (K : Z) (chunks : list (list A)) :
  Np.array_split ary K = Ok chunks ->
  (0 < K)%Z
  /\ map (@length A) chunks =
     repeat (length ary / Z.to_nat K + 1) (length ary mod Z.to_nat K)
     ++ repeat (length ary / Z.to_nat K)
               (Z.to_nat K - length ary mod Z.to_nat K)
  /\ concat chunks = ary.
Proof.
  intros H.
  assert (HK : (0 < K)%Z).
  { unfold Np.array_split in H.
    destruct (Z.leb_spec K 0); [discriminate | assumption]. }
  rewrite array_split_ok in H by assumption.
  injection H as <-.
  set (k := Z.to_nat K) in *.
  assert (Hk : 0 < k) by (subst k; lia).
  set (M := length ary) in *.
  set (sizes := repeat (M / k + 1) (M mod k) ++ repeat (M / k) (k - M mod k)).
  assert (Hsum : list_sum sizes = length ary) by (apply section_sizes_total, Hk).
  assert (Hlen : length sizes = k) by (apply section_sizes_length, Hk).
  change (Np.section_sizes M k) with (0 :: sizes).
  split; [assumption|]. split.
  - rewrite (cut_lengths ary sizes Hsum) by lia.
    rewrite <- Hlen. apply firstn_all.
  - rewrite (cut_concat ary sizes Hsum) by lia.
    rewrite <- Hlen, firstn_all, Hsum. apply firstn_all.
Qed.

(** C4. [np.array_split] of M rows into K >= 1 parts, as every operation
    calls it, returns K chunks: with q = M / K and r = M % K the first r have
    q+1 rows and the other K-r have q rows; the sizes add up to M; the
    offsets [chunk_len = np.cumsum([0] + sizes)] start at 0, end at M, each
    chunk is the range of rows between two consecutive offsets, and the
    chunks laid end to end are the rows. *)
Theorem array_split_chunk_rule {A} (ary : list A) (K : Z) :
  (0 < K)%Z ->
  let M := length ary in
  let k := Z.to_nat K in
  let q := M / k in
  let r := M mod k in
  exists chunks : list (list A),
    Np.array_split ary K = Ok chunks
    /\ length chunks = k
    /\ map (@length A) chunks = repeat (q + 1) r ++ repeat q (k - r)
    /\ list_sum (map (@length A) chunks) = M
    /\ concat chunks = ary
    /\ nth 0 (Np.chunk_offsets chunks) 0 = 0
    /\ nth k (Np.chunk_offsets chunks) 0 = M
    /\ forall i, i < k ->
         nth (S i) (Np.chunk_offsets chunks) 0
         = nth i (Np.chunk_offsets chunks) 0 + length (nth i chunks [])
         /\ nth i chunks []
            = Np.slice ary (nth i (Np.chunk_offsets chunks) 0)
                           (nth (S i) (Np.chunk_offsets chunks) 0).
Proof.
  intros HK M k q r.
  destruct (Np.array_split ary K) as [chunks|e] eqn:E.
  2:{ rewrite array_split_ok in E by assumption. discriminate. }
  exists chunks.
  pose proof (@array_split_lengths _ ary K chunks E) as (_ & Hlens & Hcat).
  fold M k q r in Hlens.
  assert (Hk : 0 < k) by (subst k; lia).
  assert (Hsum : list_sum (map (@length A) chunks) = M).
  { rewrite Hlens. apply section_sizes_total, Hk. }
  assert (Hn : length chunks = k).
  { rewrite <- (length_map (@length A)), Hlens. apply section_sizes_length, Hk. }
  assert (Hoff : Np.chunk_offsets chunks
                 = Np.cumsum (Np.section_sizes M k)).
  { unfold Np.chunk_offsets, Np.section_sizes. now rewrite Hlens. }
  split; [reflexivity|]. split; [exact Hn|]. split; [exact Hlens|].
  split; [exact Hsum|]. split; [exact Hcat|]. split; [reflexivity|].
  split.
  - unfold Np.chunk_offsets.
    rewrite nth_cumsum_zero_cons by (rewrite length_map; lia).
    rewrite <- Hn, <- (length_map (@length A)), firstn_all. exact Hsum.
  - intros i Hi. split.
    + unfold Np.chunk_offsets.
      rewrite !nth_cumsum_zero_cons by (rewrite length_map; lia).
      rewrite list_sum_firstn_S by (rewrite length_map; lia).
      f_equal.
      rewrite (nth_indep _ 0 (length (@nil A))) by (rewrite length_map; lia).
      apply map_nth.
    + rewrite Hoff.
      rewrite array_split_ok in E by assumption. injection E as <-.
      fold M k. now rewrite nth_map_seq.
Qed.

Lemma array_split_chunk_rule_witness :
  (0 < 3)%Z
  /\ exists chunks : list (list nat),
       Np.array_split [10; 11; 12; 13; 14; 15; 16] 3 = Ok chunks
       /\ map (@length nat) chunks = [3; 2; 2].
Proof.
  split; [lia|].
  destruct (array_split_chunk_rule [10; 11; 12; 13; 14; 15; 16] (K := 3))
    as (chunks & E & _ & Hl & _); [lia|].
  exists chunks. split; [exact E | exact Hl].
Defined.

(** ** Re-assembly: the loop over the chunk results rebuilds the row order *)

Import MultiProcesses.

Lemma combine_snoc {A B} (l : list A) (s : list B) (a : A) (b : B) :
  length l = length s ->
  combine (l ++ [a]) (s ++ [b]) = combine l s ++ [(a, b)].
Proof.
  revert s. induction l as [|x l IH]; intros [|y s] H; simpl in H; try discriminate.
  - reflexivity.
  - simpl. f_equal. apply IH. lia.
Qed.

Lemma pool_map_snoc {A B} (w : A -> nat -> B) (chunks : list A) (c : A) :
  pool_map w (chunks ++ [c]) = pool_map w chunks ++ [w c (length chunks)].
Proof.
  unfold pool_map.
  rewrite length_app, Nat.add_comm. cbn [length Nat.add].
  rewrite seq_S, combine_snoc by now rewrite length_seq.
  now rewrite map_app.
Qed.

Lemma pool_map_length {A B} (w : A -> nat -> B) (chunks : list A) :
  length (pool_map w chunks) = length chunks.
Proof.
  unfold pool_map. rewrite length_map, length_combine, length_seq. lia.
Qed.

Lemma map_pool_map {A B C} (g : B -> C) (w : A -> nat -> B) (chunks : list A) :
  map g (pool_map w chunks) = pool_map (fun c i => g (w c i)) chunks.
Proof. unfold pool_map. now rewrite map_map. Qed.

Lemma firstn_S_snoc {A} (l : list A) (n : nat) (d : A) :
  n < length l -> firstn (S n) l = firstn n l ++ [nth n l d].
Proof.
  revert n. induction l as [|x l IH]; intros n Hn; simpl in Hn; [lia|].
  destruct n as [|n]; [reflexivity|].
  rewrite firstn_cons. cbn [firstn app nth]. f_equal. apply IH. lia.
Qed.

Lemma pool_map_unindexed {A B} (g : A -> B) (chunks : list A) :
  pool_map (fun c _ => g c) chunks = map g chunks.
Proof.
  induction chunks as [|c chunks IH] using rev_ind; [reflexivity|].
  now rewrite pool_map_snoc, IH, map_app.
Qed.

Lemma length_concat_pool_map {A B} (g : list A -> nat -> list B)
  (chunks : list (list A)) :
  (forall c i, length (g c i) = length c) ->
  length (concat (pool_map g chunks)) = length (concat chunks).
Proof.
  intros Hg. induction chunks as [|c chunks IH] using rev_ind; [reflexivity|].
  rewrite pool_map_snoc, !concat_app, !length_app, IH. cbn [concat].
  now rewrite !app_nil_r, Hg.
Qed.

Lemma Forall2_map_self {A B} (P : A -> B -> Prop) (f : A -> B) (l : list A) :
  (forall a, P a (f a)) -> Forall2 P l (map f l).
Proof. intros H. induction l; cbn [map]; constructor; auto. Qed.

Lemma Forall2_map_indexed {A B} (P : A -> B -> Prop) (f : nat * A -> B)
  (l : list A) (a : nat) :
  (forall i x, P x (f (i, x))) ->
  Forall2 P l (map f (combine (seq a (length l)) l)).
Proof.
  intros H. revert a. induction l as [|x l IH]; intros a;
    cbn [length seq combine map]; constructor; auto.
Qed.

Lemma Forall2_concat_pool_map {A B} (P : A -> B -> Prop)
  (g : list A -> nat -> list B) (chunks : list (list A)) :
  (forall c i, Forall2 P c (g c i)) ->
  Forall2 P (concat chunks) (concat (pool_map g chunks)).
Proof.
  intros Hg. induction chunks as [|c chunks IH] using rev_ind; [constructor|].
  rewrite pool_map_snoc, !concat_app. cbn [concat]. rewrite !app_nil_r.
  apply Forall2_app; [exact IH | apply Hg].
Qed.

Section Reassembly.
Context {A B : Type}.
Variable g : list A -> nat -> list B.
Hypothesis g_length : forall c i, length (g c i) = length c.
Variable chunks : list (list A).
Variable tmp0 : list B.
Hypothesis tmp0_length : length tmp0 = length (concat chunks).

Lemma reassemble_prefix_indexed (n : nat) :
  n <= length chunks ->
  reassemble (Np.chunk_offsets chunks)
             (pool_map (fun c i => (i, g c i)) (firstn n chunks)) tmp0
  = concat (pool_map g (firstn n chunks))
    ++ skipn (length (concat (firstn n chunks))) tmp0.
Proof.
  induction n as [|n IH]; intros Hn.
  - reflexivity.
  - rewrite (firstn_S_snoc chunks [] (n := n)) by lia.
    rewrite !pool_map_snoc. unfold reassemble in *.
    rewrite fold_left_app, IH by lia. cbn [fold_left fst snd].
    rewrite length_firstn, Nat.min_l by lia.
    unfold Np.chunk_offsets.
    rewrite !nth_cumsum_zero_cons by (rewrite length_map; lia).
    rewrite list_sum_firstn_S by (rewrite length_map; lia).
    rewrite !firstn_map, <- !length_concat.
    rewrite (nth_indep _ 0 (length (@nil A))) by (rewrite length_map; lia).
    rewrite map_nth.
    set (pre := firstn n chunks). set (c := nth n chunks []).
    pose proof (length_concat_pool_map g pre g_length) as Hpre.
    pose proof (g_length c n) as Hc.
    unfold Np.slice_assign.
    rewrite firstn_app, <- Hpre, firstn_all, Nat.sub_diag, firstn_O, app_nil_r.
    rewrite skipn_app.
    rewrite (skipn_all2 (concat (pool_map g pre))) by lia.
    replace (length (concat (pool_map g pre)) + length c
             - length (concat (pool_map g pre))) with (length c) by lia.
    rewrite skipn_skipn, Hpre.
    rewrite !concat_app. cbn [concat]. rewrite !app_nil_r.
    rewrite <- app_assoc, length_app. cbn [app].
    now rewrite (Nat.add_comm (length c)).
Qed.

Lemma reassemble_all_indexed :
  reassemble (Np.chunk_offsets chunks) (pool_map (fun c i => (i, g c i)) chunks) tmp0
  = concat (pool_map g chunks).
Proof.
  pose proof (reassemble_prefix_indexed (n := length chunks) (Nat.le_refl _)) as H.
  rewrite firstn_all in H. rewrite H, <- tmp0_length, skipn_all.
  apply app_nil_r.
Qed.
End Reassembly.

Section ReassemblyUnindexed.
Context {A B : Type}.
Variable g : list A -> list B.
Hypothesis g_length : forall c, length (g c) = length c.
Variable chunks : list (list A).
Variable tmp0 : list B.
Hypothesis tmp0_length : length tmp0 = length (concat chunks).

Lemma reassemble_prefix (n : nat) :
  n <= length chunks ->
  reassemble (Np.chunk_offsets chunks)
             (pool_map (fun c i => (i, g c)) (firstn n chunks)) tmp0
  = concat (map g (firstn n chunks))
    ++ skipn (length (concat (firstn n chunks))) tmp0.
Proof.
  intros Hn.
  rewrite (@reassemble_prefix_indexed _ _ (fun c _ => g c)
             (fun c _ => g_length c) chunks tmp0 tmp0_length n Hn).
  now rewrite pool_map_unindexed.
Qed.

Lemma reassemble_all :
  reassemble (Np.chunk_offsets chunks) (pool_map (fun c i => (i, g c)) chunks) tmp0
  = concat (map g chunks).
Proof.
  rewrite (@reassemble_all_indexed _ _ (fun c _ => g c)
             (fun c _ => g_length c) chunks tmp0 tmp0_length).
  now rewrite pool_map_unindexed.
Qed.
End ReassemblyUnindexed.

(** ** The effective mask *)

Section FloatZero.
Local Open Scope float_scope.

Lemma eqb_zero_cases (x : float) : (x =? 0) = true -> x = 0 \/ x = -0.
Proof.
  intros H. rewrite eqb_spec in H.
  rewrite <- (SF2Prim_Prim2SF x).
  destruct (Prim2SF x) as [s|s| |s m e] eqn:E.
  - destruct s; [right|left]; reflexivity.
  - destruct s; vm_compute in H; discriminate.
  - vm_compute in H. discriminate.
  - exfalso. revert H. change (Prim2SF 0) with (S754_zero false).
    unfold SFeqb, SFcompare. destruct s; discriminate.
Qed.

Lemma fold_add_zeros (row : list float) (acc : float) :
  acc = 0 \/ acc = -0 ->
  F.any row = false ->
  fold_left add row acc = 0 \/ fold_left add row acc = -0.
Proof.
  revert acc. induction row as [|x row IH]; intros acc Hacc Hrow.
  - exact Hacc.
  - cbn [F.any existsb] in Hrow. apply orb_false_iff in Hrow as [Hx Hrow].
    unfold F.truthy in Hx. apply negb_false_iff, eqb_zero_cases in Hx.
    cbn [fold_left]. apply IH; [|exact Hrow].
    destruct Hacc as [-> | ->], Hx as [-> | ->]; vm_compute; auto.
Qed.

(** A row without a nonzero entry sums to zero. *)
Lemma sum_of_zero_row (row : list float) :
  F.any row = false -> F.truthy (F.sum_seq row) = false.
Proof.
  intros H. unfold F.sum_seq, F.truthy.
  destruct (fold_add_zeros row (or_introl eq_refl) H) as [-> | ->]; reflexivity.
Qed.

Lemma sequential_sums_zeros : F.sums_zeros F.sequential.
Proof. exact sum_of_zero_row. Qed.

(** A row whose sum is not zero has a nonzero entry, in whatever order the
    sum was taken. *)
Lemma sum_nonzero_has_nonzero (np : F.kernels) (row : list float) :
  F.sums_zeros np ->
  F.truthy (F.np_sum np row) = true -> F.any row = true.
Proof.
  intros Hz H. destruct (F.any row) eqn:E; [reflexivity|].
  apply Hz in E. congruence.
Qed.
End FloatZero.

Lemma shape_eqb_eq (s t : nat * nat * nat) : shape_eqb s t = true <-> s = t.
Proof.
  destruct s as [[a b] c], t as [[d e] f]. unfold shape_eqb.
  rewrite !andb_true_iff, !Nat.eqb_eq.
  split; [intros [[-> ->] ->]; reflexivity | intros [= -> -> ->]; auto].
Qed.

Lemma shape_eqb_refl (s : nat * nat * nat) : shape_eqb s s = true.
Proof. now apply shape_eqb_eq. Qed.

Lemma voxel_map {A B} (f : A -> B) (s : nat * nat * nat) (l : list A)
  (x y z : nat) (a : A) :
  voxel (Volume s l) x y z = Some a ->
  voxel (Volume s (map f l)) x y z = Some (f a).
Proof.
  unfold voxel. cbn [shape voxels].
  destruct (in_shape s x y z); [|discriminate].
  apply map_nth_error.
Qed.

Lemma nth_error_combine {A B} (l : list A) (s : list B) (i : nat) (a : A) (b : B) :
  nth_error l i = Some a -> nth_error s i = Some b ->
  nth_error (combine l s) i = Some (a, b).
Proof.
  revert s i. induction l as [|x l IH]; intros [|y s] [|i] Ha Hb;
    simpl in *; try discriminate.
  - congruence.
  - now apply IH.
Qed.

Lemma masked_chunks_ok {A} (step : M (volume bool)) (K : Z) (data : volume A)
  (h h' : heap) (mask : volume bool) :
  step h = (Ok mask, h') ->
  shape mask = shape data ->
  (0 < K)%Z ->
  exists chunks,
    Np.array_split (Np.compress (voxels mask) (voxels data)) K = Ok chunks
    /\ masked_chunks step K data h = (Ok (mask, chunks, Np.chunk_offsets chunks), h').
Proof.
  intros Hs Hshape HK.
  pose proof (array_split_ok (Np.compress (voxels mask) (voxels data)) HK) as E.
  eexists. split; [exact E|].
  unfold masked_chunks, bind, lift, ret, split_masked, getitem_mask.
  rewrite Hs, Hshape, shape_eqb_refl, E. reflexivity.
Qed.

Lemma masked_chunks_inv {A} (step : M (volume bool)) (K : Z) (data : volume A)
  (h h' : heap) (mask : volume bool) (chunks : list (list A)) (cl : list nat) :
  masked_chunks step K data h = (Ok (mask, chunks, cl), h') ->
  step h = (Ok mask, h')
  /\ Np.array_split (Np.compress (voxels mask) (voxels data)) K = Ok chunks
  /\ cl = Np.chunk_offsets chunks.
Proof.
  unfold masked_chunks, bind, lift, ret, split_masked, getitem_mask.
  destruct (step h) as [[m|e] h1] eqn:Es; [|discriminate].
  destruct (shape_eqb (shape m) (shape data)); [|discriminate].
  destruct (Np.array_split _ K) as [c|e] eqn:Ea; [|discriminate].
  intros H. inversion H; subst. repeat split; [exact Ea].
Qed.

Lemma mask_or_derived_none (np : F.kernels) (data : volume (list float))
  (h : heap) :
  mask_obj h = None ->
  mask_or_derived np data h = (Ok (sum_axis3_astype_bool np data), h).
Proof. intros H. unfold mask_or_derived, bind, get_mask, ret. now rewrite H. Qed.

Lemma mask_or_derived_some (np : F.kernels) (data : volume (list float))
  (h : heap) (user : volume bool) :
  mask_obj h = Some user -> mask_or_derived np data h = (Ok user, h).
Proof. intros H. unfold mask_or_derived, bind, get_mask, ret. now rewrite H. Qed.

(** C5 (as the code has it). With no user mask, every operation takes
    [np.sum(data, axis=3).astype(bool)] as its mask: it has the spatial shape
    of the volume and is true at a voxel exactly when the sum numpy computes
    over the voxel's channel values is nonzero. Since a sum of zeros is zero
    in whatever order numpy adds, a voxel where the mask is true has a
    nonzero channel value; the converse does not hold. *)
Theorem derived_mask_is_channel_sum (np : F.kernels)
  (data : volume (list float)) (h : heap) :
  F.sums_zeros np ->
  mask_obj h = None ->
  let mask := sum_axis3_astype_bool np data in
  mask_or_derived np data h = (Ok mask, h)
  /\ fit_from_model_mask np data h = (Ok mask, h)
  /\ shape mask = shape data
  /\ forall x y z row,
       voxel data x y z = Some row ->
       voxel mask x y z = Some (F.truthy (F.np_sum np row))
       /\ (F.truthy (F.np_sum np row) = true -> F.any row = true).
Proof.
  intros Hz Hnone mask.
  split; [now apply mask_or_derived_none|].
  split.
  { unfold fit_from_model_mask, bind, get_mask, ret. now rewrite Hnone. }
  split; [reflexivity|].
  intros x y z row Hrow. split.
  - destruct data as [s l]. unfold mask, sum_axis3_astype_bool. cbn [shape voxels].
    now apply (voxel_map (fun row => F.truthy (F.np_sum np row))).
  - now apply sum_nonzero_has_nonzero.
Qed.

Lemma derived_mask_is_channel_sum_witness :
  voxel (sum_axis3_astype_bool F.sequential
           (Volume (1, 1, 2) [[1; 2]; [0; 0]]%float)) 0 0 0
  = Some true
  /\ voxel (sum_axis3_astype_bool F.sequential
              (Volume (1, 1, 2) [[1; 2]; [0; 0]]%float)) 0 0 1
     = Some false.
Proof.
  destruct (@derived_mask_is_channel_sum F.sequential
              (Volume (1, 1, 2) [[1; 2]; [0; 0]]%float) (Heap None [])
              sequential_sums_zeros eq_refl)
    as (_ & _ & _ & H).
  split.
  - exact (proj1 (H 0 0 0 [1; 2]%float eq_refl)).
  - exact (proj1 (H 0 0 1 [0; 0]%float eq_refl)).
Defined.

(** C5 as stated fails: the voxel with channel values (1, -1) has a nonzero
    channel value, and the derived mask is false there (1 + -1 is 0 in
    every order of addition). *)
Lemma derived_mask_misses_cancelling_channels :
  ~ (forall (data : volume (list float)) (x y z : nat) (row : list float)
            (mask : volume bool),
       mask_or_derived F.sequential data (Heap None [])
       = (Ok mask, Heap None []) ->
       voxel data x y z = Some row ->
       voxel mask x y z = Some (F.any row)).
Proof.
  intros H.
  specialize (H (Volume (1, 1, 1) [[1; -1]]%float) 0 0 0 [1; -1]%float _
                eq_refl eq_refl).
  vm_compute in H. discriminate.
Qed.

(** ** Worker counts and user masks, operation by operation *)

Lemma compress_length {A} (mask : list bool) (ary : list A) :
  length mask = length ary ->
  length (Np.compress mask ary) = Np.count_nonzero mask.
Proof.
  unfold Np.count_nonzero. revert ary.
  induction mask as [|m mask IH]; intros [|a ary] H; simpl in H; try discriminate.
  - reflexivity.
  - cbn [Np.compress filter]. destruct m; cbn [length]; rewrite IH; auto.
Qed.

Lemma filter_repeat {A} (p : A -> bool) (x : A) (n : nat) :
  filter p (repeat x n) = if p x then repeat x n else [].
Proof.
  induction n as [|n IH]; cbn [repeat filter].
  - now destruct (p x).
  - rewrite IH. now destruct (p x).
Qed.

Lemma filter_length_map {A B} (f : A -> B) (p : B -> bool) (l : list A) :
  length (filter (fun a => p (f a)) l) = length (filter p (map f l)).
Proof.
  induction l as [|a l IH]; [reflexivity|].
  cbn [map filter]. destruct (p (f a)); cbn [length]; now rewrite IH.
Qed.

(** [np.array_split(rows, K)] makes K chunks whatever the number of rows;
    min(K, M) of them are non-empty. *)
Lemma array_split_count {A} (rows : list A) (K : Z) (chunks : list (list A)) :
  Np.array_split rows K = Ok chunks ->
  length chunks = Z.to_nat K
  /\ length (filter (fun c => negb (length c =? 0)) chunks)
     = Nat.min (Z.to_nat K) (length rows).
Proof.
  intros E.
  destruct (array_split_lengths _ _ E) as (HK & Hlens & _).
  set (k := Z.to_nat K) in *. set (M := length rows) in *.
  assert (Hk : 0 < k) by (subst k; lia).
  split.
  - rewrite <- (length_map (@length A)), Hlens. apply section_sizes_length, Hk.
  - rewrite (filter_length_map (@length A) (fun n => negb (n =? 0))), Hlens.
    rewrite filter_app, !filter_repeat, length_app.
    pose proof (Nat.div_mod_eq M k) as Hdm.
    pose proof (Nat.mod_upper_bound M k ltac:(lia)) as Hr.
    destruct (Nat.eqb_spec (M / k) 0) as [Hq|Hq].
    + rewrite Hq in *. cbn [Nat.add Nat.eqb negb length].
      rewrite repeat_length. lia.
    + replace (M / k + 1 =? 0) with false by (symmetry; apply Nat.eqb_neq; lia).
      cbn [negb]. rewrite !repeat_length. nia.
Qed.

Lemma mask_or_derived_fits (np : F.kernels) (data : volume (list float))
  (h : heap) :
  mask_fits data h ->
  exists mask,
    mask_or_derived np data h = (Ok mask, h)
    /\ shape mask = shape data
    /\ length (voxels mask) = length (voxels data).
Proof.
  unfold mask_fits. intros H.
  destruct (mask_obj h) as [user|] eqn:E.
  - exists user. split; [now apply mask_or_derived_some | exact H].
  - exists (sum_axis3_astype_bool np data).
    split; [now apply mask_or_derived_none|].
    split; [reflexivity | apply length_map].
Qed.

Lemma fit_from_model_mask_fits (np : F.kernels) (data : volume (list float))
  (h : heap) :
  mask_fits data h ->
  exists mask h',
    fit_from_model_mask np data h = (Ok mask, h')
    /\ shape mask = shape data
    /\ length (voxels mask) = length (voxels data)
    /\ log h' = log h.
Proof.
  unfold mask_fits. intros H.
  unfold fit_from_model_mask, bind, get_mask, ret, imul_mask.
  destruct (mask_obj h) as [user|] eqn:E.
  - destruct H as [Hs Hl]. cbn [shape sum_axis3_astype_bool].
    rewrite E, Hs, shape_eqb_refl. eexists _, _.
    split; [reflexivity|]. cbn [shape voxels log].
    split; [reflexivity|]. split; [|reflexivity].
    unfold sum_axis3_astype_bool. cbn [voxels].
    rewrite length_map, length_combine, length_map. lia.
  - exists (sum_axis3_astype_bool np data), h.
    split; [reflexivity|]. split; [reflexivity|].
    split; [apply length_map | reflexivity].
Qed.

Lemma masked_chunks_count {A} (step : M (volume bool)) (K : Z) (data : volume A)
  (h h' : heap) (mask : volume bool) :
  step h = (Ok mask, h') ->
  shape mask = shape data ->
  length (voxels mask) = length (voxels data) ->
  (0 < K)%Z ->
  exists chunks cl,
    masked_chunks step K data h = (Ok (mask, chunks, cl), h')
    /\ concat chunks = Np.compress (voxels mask) (voxels data)
    /\ length chunks = Z.to_nat K
    /\ length (filter (fun c => negb (length c =? 0)) chunks)
       = Nat.min (Z.to_nat K) (Np.count_nonzero (voxels mask)).
Proof.
  intros Hs Hshape Hlen HK.
  destruct (masked_chunks_ok step data h Hs Hshape HK) as (chunks & E & Hm).
  exists chunks, (Np.chunk_offsets chunks).
  split; [exact Hm|].
  split; [apply (array_split_lengths _ _ E)|].
  rewrite <- (compress_length _ _ Hlen).
  exact (array_split_count _ _ E).
Qed.

Lemma cpu_count_if_none_or_le0_pos (cpu : Z) (nbr : option Z) :
  (0 < cpu)%Z -> (0 < cpu_count_if_none_or_le0 cpu nbr)%Z.
Proof.
  intros H. unfold cpu_count_if_none_or_le0.
  destruct nbr as [n|]; [|exact H]. destruct (Z.leb_spec n 0); lia.
Qed.

Lemma cpu_count_if_none_or_lt0_pos (cpu : Z) (nbr : option Z) :
  (0 < cpu)%Z -> nbr <> Some 0%Z -> (0 < cpu_count_if_none_or_lt0 cpu nbr)%Z.
Proof.
  intros H Hn. unfold cpu_count_if_none_or_lt0.
  destruct nbr as [n|]; [|exact H].
  destruct (Z.ltb_spec n 0); [exact H|].
  assert (n <> 0%Z) by congruence. lia.
Qed.

(** C7 (as the code has it). fit_from_model and fit_gamma replace a worker
    count that is None or <= 0 by the hardware concurrency; peaks_from_sh,
    maps_from_sh and convert_sh_basis replace one that is None or < 0;
    convert_sh_to_sf uses the count as passed. With the resulting count
    K >= 1, every operation creates exactly K chunks, whatever the number M
    of active voxels: min(K, M) of them are non-empty. *)
Theorem chunk_count_per_operation (np : F.kernels) (cpu : Z)
  (data : volume (list float)) (nbr : option Z) (K : Z) (h : heap) :
  (0 < cpu)%Z ->
  mask_fits data h ->
  let K_le0 :=
    match nbr with
    | Some n => if (0 <? n)%Z then n else cpu
    | None => cpu
    end in
  let K_lt0 :=
    match nbr with
    | Some n => if (0 <=? n)%Z then n else cpu
    | None => cpu
    end in
  let made (K : Z)
           (r : result (volume bool * list (list (list float)) * list nat) * heap) :=
    exists mask chunks cl,
      fst r = Ok (mask, chunks, cl)
      /\ length chunks = Z.to_nat K
      /\ length (filter (fun c => negb (length c =? 0)) chunks)
         = Nat.min (Z.to_nat K) (Np.count_nonzero (voxels mask)) in
  made K_le0 (fit_from_model_chunks np cpu data nbr h)
  /\ made K_le0 (fit_gamma_chunks np cpu data nbr h)
  /\ (nbr <> Some 0%Z ->
      made K_lt0 (peaks_from_sh_chunks np cpu data nbr h)
      /\ made K_lt0 (maps_from_sh_chunks np cpu data nbr h)
      /\ made K_lt0 (convert_sh_basis_chunks np cpu data nbr h))
  /\ ((0 < K)%Z -> made K (convert_sh_to_sf_chunks np data K h)).
Proof.
  intros Hcpu Hfits K_le0 K_lt0 made.
  assert (Ele : cpu_count_if_none_or_le0 cpu nbr = K_le0).
  { unfold cpu_count_if_none_or_le0, K_le0. destruct nbr as [n|]; [|reflexivity].
    destruct (Z.leb_spec n 0), (Z.ltb_spec 0 n); lia. }
  assert (Elt : cpu_count_if_none_or_lt0 cpu nbr = K_lt0).
  { unfold cpu_count_if_none_or_lt0, K_lt0. destruct nbr as [n|]; [|reflexivity].
    destruct (Z.ltb_spec n 0), (Z.leb_spec 0 n); lia. }
  pose proof (cpu_count_if_none_or_le0_pos nbr Hcpu) as Hle.
  destruct (mask_or_derived_fits np data h Hfits) as (m & Hm & Hs & Hl).
  destruct (fit_from_model_mask_fits np data h Hfits)
    as (m' & h' & Hm' & Hs' & Hl' & _).
  assert (G : forall K0, (0 < K0)%Z ->
                made K0 (masked_chunks (mask_or_derived np data) K0 data h)).
  { intros K0 HK0.
    destruct (masked_chunks_count _ data h Hm Hs Hl HK0) as (c & cl & E & _ & H1 & H2).
    exists m, c, cl. rewrite E. auto. }
  split; [|split; [|split]].
  - unfold fit_from_model_chunks. rewrite Ele in *.
    destruct (masked_chunks_count _ data h Hm' Hs' Hl' Hle) as (c & cl & E & _ & H1 & H2).
    exists m', c, cl. rewrite E. auto.
  - unfold fit_gamma_chunks. rewrite Ele in *. now apply G.
  - intros Hn0. pose proof (cpu_count_if_none_or_lt0_pos Hcpu Hn0) as Hlt.
    unfold peaks_from_sh_chunks, maps_from_sh_chunks, convert_sh_basis_chunks.
    rewrite Elt in *. auto.
  - intros HK. unfold convert_sh_to_sf_chunks. now apply G.
Qed.

Lemma chunk_count_per_operation_witness :
  exists mask chunks cl,
    fst (fit_gamma_chunks F.sequential 4 (Volume (1, 1, 2) [[1]; [1]]%float)
                          (Some (-1)%Z) (Heap None []))
    = Ok (mask, chunks, cl)
    /\ length chunks = 4
    /\ length (filter (fun c => negb (length c =? 0)) chunks) = 2.
Proof.
  destruct (@chunk_count_per_operation F.sequential
              4 (Volume (1, 1, 2) [[1]; [1]]%float) (Some (-1)%Z) 1
              (Heap None []) ltac:(lia) I)
    as (_ & (mask & chunks & cl & E & H1 & H2) & _).
  exists mask, chunks, cl. split; [exact E|]. split; [exact H1|].
  rewrite H2. vm_compute in E. injection E as <- _ _. reflexivity.
Defined.

(** C7 as stated fails: two active voxels and a worker count of 4 give four
    chunks, not max(1, min(4, 2)) = 2. *)
Lemma chunk_count_not_clamped :
  ~ (forall (data : volume (list float)) (K : Z) (mask : volume bool)
            (chunks : list (list (list float))) (cl : list nat) (h' : heap),
       (0 < K)%Z ->
       fit_from_model_chunks F.sequential 8 data (Some K) (Heap None [])
       = (Ok (mask, chunks, cl), h') ->
       0 < Np.count_nonzero (voxels mask) ->
       Z.of_nat (length chunks)
       = Z.max 1 (Z.min K (Z.of_nat (Np.count_nonzero (voxels mask))))).
Proof.
  intros H.
  specialize (H (Volume (1, 1, 2) [[1]; [1]]%float) 4%Z _ _ _ _
                ltac:(lia) eq_refl).
  vm_compute in H. specialize (H ltac:(lia)). discriminate.
Qed.

(** C6 (as the code has it). When the caller passes a mask of the volume's
    spatial shape, fit_from_model hands to its workers the rows of the
    voxels where that mask and the derived mask (channel sum nonzero) are
    both true, and stores this AND into the caller's mask; peaks_from_sh,
    maps_from_sh, convert_sh_basis, convert_sh_to_sf and fit_gamma hand to
    their workers the rows of the voxels of the caller's mask as it is. In
    all six the worker computes nothing for a row without nonzero entry and
    leaves its output as it was created (for convert_sh_basis, the row
    itself). *)
Theorem user_mask_per_operation (np : F.kernels) (cpu : Z)
  (Fit : Type) (model_fit : list float -> option Fit) (nan_fit : Fit)
  (peak_directions : list float -> list (list float) * list float * list Z)
  (gfa : list float -> float) (as_float32 : float -> float)
  (gamma_data2fit : nat -> nat -> list float -> list float)
  (B B_in invB_out vertices : list (list float))
  (absolute_threshold gfa_thr : float) (normalize_peaks : bool)
  (npeaks n_vertices : nat)
  (data : volume (list float))
  (user : volume bool) (nbr : option Z) (K : Z) (lg : list string) :
  shape user = shape data ->
  (0 < cpu)%Z ->
  nbr <> Some 0%Z ->
  (0 < K)%Z ->
  let h := Heap (Some user) lg in
  let anded :=
    Volume (shape user)
           (map (fun p => fst p && snd p)
                (combine (voxels user) (voxels (sum_axis3_astype_bool np data)))) in
  let works_on (mask : volume bool) (h' : heap)
               (r : result (volume bool * list (list (list float)) * list nat) * heap) :=
    exists chunks cl,
      r = (Ok (mask, chunks, cl), h')
      /\ concat chunks = Np.compress (voxels mask) (voxels data) in
  let skipped {T} (untouched : list float -> T -> Prop) (rows : list (list float))
              (out : list T) :=
    Forall2 (fun row o => F.any row = false -> untouched row o) rows out in
  works_on anded (Heap (Some anded) lg) (fit_from_model_chunks np cpu data nbr h)
  /\ (forall x y z b row,
        voxel user x y z = Some b ->
        voxel data x y z = Some row ->
        voxel anded x y z = Some (b && F.truthy (F.np_sum np row)))
  /\ works_on user h (peaks_from_sh_chunks np cpu data nbr h)
  /\ works_on user h (maps_from_sh_chunks np cpu data nbr h)
  /\ works_on user h (convert_sh_basis_chunks np cpu data nbr h)
  /\ works_on user h (convert_sh_to_sf_chunks np data K h)
  /\ works_on user h (fit_gamma_chunks np cpu data nbr h)
  /\ forall (rows : list (list float)) (chunk_id : nat),
       skipped (fun _ o => o = Zero) rows
               (snd (fit_from_model_parallel model_fit nan_fit rows chunk_id))
       /\ skipped (fun _ o => o = repeat 0%float 4) rows
                  (snd (fit_gamma_parallel gamma_data2fit rows chunk_id))
       /\ skipped (fun row o => o = row) rows
                  (snd (convert_sh_basis_parallel np B_in invB_out rows chunk_id))
       /\ skipped (fun _ o => o = repeat 0%float n_vertices) rows
                  (snd (convert_sh_to_sf_parallel np as_float32 B_in n_vertices
                                                  rows chunk_id))
       /\ (forall row,
             F.any row = false ->
             peaks_of_voxel np peak_directions B absolute_threshold npeaks
                            normalize_peaks row
             = (repeat (repeat 0%float 3) npeaks, repeat 0%float npeaks,
                repeat (-1)%Z npeaks))
       /\ (forall st idx row peak_values peak_indices,
             F.any row = false ->
             maps_of_voxel np gfa B vertices gfa_thr st idx row peak_values
                           peak_indices
             = st).
Proof.
  intros Hs Hcpu Hn0 HK h anded works_on skipped.
  pose proof (cpu_count_if_none_or_le0_pos nbr Hcpu) as Hle.
  pose proof (cpu_count_if_none_or_lt0_pos Hcpu Hn0) as Hlt.
  assert (G : forall K0, (0 < K0)%Z ->
                works_on user h (masked_chunks (mask_or_derived np data) K0 data h)).
  { intros K0 HK0.
    destruct (masked_chunks_ok (mask_or_derived np data) data h
                (mask_or_derived_some np data h eq_refl) Hs HK0) as (c & E & Hm).
    exists c, (Np.chunk_offsets c). split; [exact Hm|].
    apply (array_split_lengths _ _ E). }
  split; [|split; [|split; [|split; [|split; [|split; [|split]]]]]];
    try (now apply G).
  - assert (Hstep : fit_from_model_mask np data h
                    = (Ok anded, Heap (Some anded) lg)).
    { unfold fit_from_model_mask, bind, get_mask, ret, imul_mask, h.
      cbn [mask_obj log shape sum_axis3_astype_bool].
      replace (shape_eqb (shape user) (shape data)) with true
        by (symmetry; now apply shape_eqb_eq).
      reflexivity. }
    destruct (masked_chunks_ok (fit_from_model_mask np data) data h Hstep Hs Hle)
      as (c & E & Hm).
    exists c, (Np.chunk_offsets c). split; [exact Hm|].
    apply (array_split_lengths _ _ E).
  - intros x y z b row Hb Hrow.
    destruct user as [su lu], data as [sd ld]. cbn [shape voxels] in *. subst su.
    unfold anded, voxel in *. cbn [shape voxels sum_axis3_astype_bool] in *.
    destruct (in_shape sd x y z); [|discriminate].
    change (b && F.truthy (F.np_sum np row))
      with ((fun p => fst p && snd p) (b, F.truthy (F.np_sum np row))).
    apply map_nth_error.
    apply nth_error_combine; [exact Hb|].
    exact (map_nth_error (fun row => F.truthy (F.np_sum np row)) _ _ Hrow).
  - intros rows chunk_id. unfold skipped.
    split; [|split; [|split; [|split; [|split]]]].
    + unfold fit_from_model_parallel. cbn [snd].
      apply Forall2_map_self. now intros row ->.
    + unfold fit_gamma_parallel. cbn [snd].
      apply Forall2_map_indexed. intros i row. cbn [fst snd]. now intros ->.
    + unfold convert_sh_basis_parallel. cbn [snd].
      apply Forall2_map_self. now intros row ->.
    + unfold convert_sh_to_sf_parallel. cbn [snd].
      apply Forall2_map_self. now intros row ->.
    + intros row Hrow. unfold peaks_of_voxel. now rewrite Hrow.
    + intros st idx row pv pi Hrow. unfold maps_of_voxel. now rewrite Hrow.
Qed.

Lemma user_mask_per_operation_witness :
  exists chunks cl,
    fit_gamma_chunks F.sequential 2
                     (Volume (1, 1, 2) [[1; -1]; [0; 0]]%float) None
                     (Heap (Some (Volume (1, 1, 2) [true; true])) [])
    = (Ok (Volume (1, 1, 2) [true; true], chunks, cl),
       Heap (Some (Volume (1, 1, 2) [true; true])) [])
    /\ concat chunks = [[1; -1]; [0; 0]]%float.
Proof.
  destruct (@user_mask_per_operation F.sequential
              2 (list float) (fun row => Some row) [] one_peak
              (fun _ => 0%float) (fun x => x) (fun _ _ row => row)
              [[1]]%float [[1]]%float [[1]]%float [[1; 0; 0]]%float
              0%float 0%float false 1 1
              (Volume (1, 1, 2) [[1; -1]; [0; 0]]%float)
              (Volume (1, 1, 2) [true; true]) None 1 []
              eq_refl ltac:(lia) ltac:(discriminate) ltac:(lia))
    as (_ & _ & _ & _ & _ & _ & (chunks & cl & E & Hc) & _).
  exists chunks, cl. split; [exact E | exact Hc].
Defined.

(** C6 as stated fails: with a user mask that is true at a voxel whose one
    coefficient is zero, peaks_from_sh keeps that voxel in its mask and
    hands its row to a worker; the AND with the derived mask is false
    there. *)
Lemma user_mask_not_anded :
  ~ (forall (data : volume (list float)) (user mask : volume bool)
            (chunks : list (list (list float))) (cl : list nat) (h' : heap)
            (x y z : nat) (b : bool) (row : list float),
       peaks_from_sh_chunks F.sequential 1 data None (Heap (Some user) [])
       = (Ok (mask, chunks, cl), h') ->
       voxel user x y z = Some b ->
       voxel data x y z = Some row ->
       voxel mask x y z = Some (b && F.any row)).
Proof.
  intros H.
  specialize (H (Volume (1, 1, 1) [[0]]%float) (Volume (1, 1, 1) [true])
                _ _ _ _ 0 0 0 true [0]%float eq_refl eq_refl eq_refl).
  vm_compute in H. discriminate.
Qed.

(** ** What the operations return *)

Lemma place_nil {A} (mask : list bool) (out : list A) : Np.place mask out [] = out.
Proof.
  revert out. induction mask as [|m mask IH]; intros [|o out]; try reflexivity.
  cbn [Np.place]. destruct m; now rewrite IH.
Qed.

Lemma compress_nil {A} (mask : list bool) (ary : list A) :
  length mask = length ary ->
  Np.count_nonzero mask = 0 -> Np.compress mask ary = [].
Proof.
  intros Hl H0. apply length_zero_iff_nil. now rewrite compress_length.
Qed.

(** Scattering the re-assembled chunk outputs: whatever the number of chunks,
    the voxels inside the mask receive, in C order, the outputs of the rows
    inside the mask. *)
Lemma scatter_reassembled {A B} (data : volume A) (mask : volume bool) (K : Z)
  (chunks : list (list A)) (g : list A -> list B) (zero zero' : B) :
  shape mask = shape data ->
  length (voxels mask) = length (voxels data) ->
  Np.array_split (Np.compress (voxels mask) (voxels data)) K = Ok chunks ->
  (forall c, length (g c) = length c) ->
  setitem_mask (zeros (shape data) zero) mask
    (reassemble (Np.chunk_offsets chunks) (pool_map (fun c i => (i, g c)) chunks)
                (repeat zero' (Np.count_nonzero (voxels mask))))
  = Ok (Volume (shape data)
               (Np.place (voxels mask) (repeat zero (size3 (shape data)))
                         (concat (map g chunks)))).
Proof.
  intros Hs Hl E Hg.
  destruct (array_split_lengths _ _ E) as (_ & _ & Hcat).
  assert (Hn : length (concat chunks) = Np.count_nonzero (voxels mask)).
  { rewrite Hcat. now apply compress_length. }
  rewrite (reassemble_all g Hg chunks) by now rewrite repeat_length.
  unfold setitem_mask, zeros. cbn [shape voxels].
  rewrite Hs, shape_eqb_refl. cbn [negb].
  replace (length (concat (map g chunks)) =? Np.count_nonzero (voxels mask))
    with true; [reflexivity|].
  symmetry. apply Nat.eqb_eq. rewrite <- Hn, !length_concat, map_map.
  f_equal. apply map_ext. intros c. apply Hg.
Qed.

Lemma scatter_reassembled_indexed {A B} (data : volume A) (mask : volume bool)
  (K : Z) (chunks : list (list A)) (g : list A -> nat -> list B)
  (zero zero' : B) :
  shape mask = shape data ->
  length (voxels mask) = length (voxels data) ->
  Np.array_split (Np.compress (voxels mask) (voxels data)) K = Ok chunks ->
  (forall c i, length (g c i) = length c) ->
  setitem_mask (zeros (shape data) zero) mask
    (reassemble (Np.chunk_offsets chunks)
                (pool_map (fun c i => (i, g c i)) chunks)
                (repeat zero' (Np.count_nonzero (voxels mask))))
  = Ok (Volume (shape data)
               (Np.place (voxels mask) (repeat zero (size3 (shape data)))
                         (concat (pool_map g chunks)))).
Proof.
  intros Hs Hl E Hg.
  destruct (array_split_lengths _ _ E) as (_ & _ & Hcat).
  assert (Hn : length (concat chunks) = Np.count_nonzero (voxels mask)).
  { rewrite Hcat. now apply compress_length. }
  rewrite (@reassemble_all_indexed _ _ g Hg chunks)
    by now rewrite repeat_length.
  unfold setitem_mask, zeros. cbn [shape voxels].
  rewrite Hs, shape_eqb_refl. cbn [negb].
  replace (length (concat (pool_map g chunks)) =? Np.count_nonzero (voxels mask))
    with true; [reflexivity|].
  symmetry. apply Nat.eqb_eq. rewrite <- Hn. now apply length_concat_pool_map.
Qed.

Lemma concat_map_map {A B} (f : A -> B) (chunks : list (list A)) :
  concat (map (map f) chunks) = map f (concat chunks).
Proof. symmetry. apply concat_map. Qed.

Lemma concat_map_by {A B} (f : A -> B) (g : list A -> list B)
  (chunks : list (list A)) :
  (forall c, g c = map f c) -> concat (map g chunks) = map f (concat chunks).
Proof.
  intros H. rewrite concat_map. f_equal. apply map_ext. exact H.
Qed.

Section OperationResults.
Local Open Scope float_scope.
Variable np : F.kernels.
Variable cpu : Z.
Hypothesis cpu_pos : (0 < cpu)%Z.

(** fit_gamma returns, at the voxels of its mask, one output per row, in
    the order of the rows: what a call of gamma_data2fit on the row
    returned when the row has a nonzero entry, and four zeros otherwise;
    the voxels outside the mask hold four zeros and the heap is left as it
    was. *)
Lemma fit_gamma_result (gamma_data2fit : nat -> nat -> list float -> list float)
  (data : volume (list float)) (nbr : option Z) (h : heap) :
  mask_fits data h ->
  exists mask outs,
    mask_or_derived np data h = (Ok mask, h)
    /\ Forall2 (fun row o =>
                  if F.any row then exists c i, o = gamma_data2fit c i row
                  else o = repeat 0 4)
               (Np.compress (voxels mask) (voxels data)) outs
    /\ fit_gamma np cpu gamma_data2fit data nbr h
       = (Ok (Volume (shape data)
                (Np.place (voxels mask) (repeat (repeat 0 4) (size3 (shape data)))
                          outs)),
          h).
Proof.
  intros Hfits.
  destruct (mask_or_derived_fits np data h Hfits) as (mask & Hm & Hs & Hl).
  pose proof (cpu_count_if_none_or_le0_pos nbr cpu_pos) as HK.
  destruct (masked_chunks_ok _ data h Hm Hs HK) as (chunks & E & Hc).
  exists mask,
    (concat (pool_map (fun c i => snd (fit_gamma_parallel gamma_data2fit c i))
                      chunks)).
  split; [exact Hm|]. split.
  - destruct (array_split_lengths _ _ E) as (_ & _ & <-).
    apply Forall2_concat_pool_map. intros c i.
    unfold fit_gamma_parallel. cbn [snd].
    apply Forall2_map_indexed. intros j row. cbn [fst snd].
    destruct (F.any row); [now exists i, j | reflexivity].
  - unfold fit_gamma, fit_gamma_chunks, bind at 1. rewrite Hc.
    unfold lift.
    change (pool_map (fit_gamma_parallel gamma_data2fit) chunks)
      with (pool_map (fun c i =>
                        (i, snd (fit_gamma_parallel gamma_data2fit c i))) chunks).
    rewrite (@scatter_reassembled_indexed _ _ data mask _ chunks _ _ _ Hs Hl E)
      by (intros c i; unfold fit_gamma_parallel; cbn [snd];
          now rewrite length_map, length_combine, length_seq, Nat.min_id).
    reflexivity.
Qed.

(** fit_from_model returns, under the mask it worked on, the fitted objects
    of the rows that have a nonzero entry. *)
Lemma fit_from_model_result (Fit : Type) (model_fit : list float -> option Fit)
  (nan_fit : Fit) (data : volume (list float)) (nbr : option Z) (h : heap) :
  mask_fits data h ->
  exists mask h',
    fit_from_model_mask np data h = (Ok mask, h')
    /\ fit_from_model np cpu model_fit nan_fit data nbr h
       = (Ok {| fit_array :=
                  Volume (shape data)
                    (Np.place (voxels mask) (repeat Zero (size3 (shape data)))
                       (map (fun row =>
                               if F.any row then
                                 match model_fit row with
                                 | Some fit => Obj fit
                                 | None => Obj nan_fit
                                 end
                               else Zero)
                            (Np.compress (voxels mask) (voxels data))));
                fit_mask := mask |},
          h').
Proof.
  intros Hfits.
  destruct (fit_from_model_mask_fits np data h Hfits) as (mask & h' & Hm & Hs & Hl & _).
  exists mask, h'. split; [exact Hm|].
  pose proof (cpu_count_if_none_or_le0_pos nbr cpu_pos) as HK.
  destruct (masked_chunks_ok _ data h Hm Hs HK) as (chunks & E & Hc).
  unfold fit_from_model, fit_from_model_chunks, bind at 1. rewrite Hc.
  unfold bind, lift, ret, fit_from_model_parallel.
  rewrite (@scatter_reassembled _ _ data mask _ chunks _ _ _ Hs Hl E)
    by (intros c; apply length_map).
  rewrite concat_map_map. destruct (array_split_lengths _ _ E) as (_ & _ & ->).
  reflexivity.
Qed.

(** convert_sh_basis returns the converted rows at the voxels of its mask. *)
Lemma convert_sh_basis_result (B_in invB_out : list (list float))
  (shm_coeff : volume (list float)) (ncoef : nat) (nbr : option Z) (h : heap) :
  mask_fits shm_coeff h ->
  nbr <> Some 0%Z ->
  exists mask,
    mask_or_derived np shm_coeff h = (Ok mask, h)
    /\ convert_sh_basis np cpu B_in invB_out shm_coeff ncoef nbr h
       = (Ok (Volume (shape shm_coeff)
                (Np.place (voxels mask)
                   (repeat (repeat 0 ncoef) (size3 (shape shm_coeff)))
                   (map (fun row =>
                           if F.any row
                           then F.np_vec_mat np (F.np_vec_mat np row B_in) invB_out
                           else row)
                        (Np.compress (voxels mask) (voxels shm_coeff))))),
          h).
Proof.
  intros Hfits Hn0.
  destruct (mask_or_derived_fits np shm_coeff h Hfits) as (mask & Hm & Hs & Hl).
  exists mask. split; [exact Hm|].
  pose proof (cpu_count_if_none_or_lt0_pos cpu_pos Hn0) as HK.
  destruct (masked_chunks_ok _ shm_coeff h Hm Hs HK) as (chunks & E & Hc).
  unfold convert_sh_basis, convert_sh_basis_chunks, bind at 1. rewrite Hc.
  unfold lift, convert_sh_basis_parallel.
  rewrite (@scatter_reassembled _ _ shm_coeff mask _ chunks _ _ _ Hs Hl E)
    by (intros c; apply length_map).
  rewrite concat_map_map. destruct (array_split_lengths _ _ E) as (_ & _ & ->).
  reflexivity.
Qed.

(** convert_sh_to_sf returns the SF rows at the voxels of its mask. *)
Lemma convert_sh_to_sf_result (as_float32 : float -> float)
  (B_in : list (list float)) (n_vertices : nat)
  (shm_coeff : volume (list float)) (dt : dtype) (K : Z) (h : heap) :
  mask_fits shm_coeff h ->
  (0 < K)%Z ->
  exists mask,
    mask_or_derived np shm_coeff h = (Ok mask, h)
    /\ convert_sh_to_sf np as_float32 B_in n_vertices shm_coeff dt K h
       = (Ok (Volume (shape shm_coeff)
                (Np.place (voxels mask)
                   (repeat (repeat 0 n_vertices) (size3 (shape shm_coeff)))
                   (map (fun row =>
                           if F.any row
                           then map as_float32
                                  (F.np_vec_mat np row
                                     match dt with
                                     | float32 => map (map as_float32) B_in
                                     | float64 => B_in
                                     end)
                           else repeat 0 n_vertices)
                        (Np.compress (voxels mask) (voxels shm_coeff))))),
          h).
Proof.
  intros Hfits HK.
  destruct (mask_or_derived_fits np shm_coeff h Hfits) as (mask & Hm & Hs & Hl).
  exists mask. split; [exact Hm|].
  destruct (masked_chunks_ok _ shm_coeff h Hm Hs HK) as (chunks & E & Hc).
  unfold convert_sh_to_sf, convert_sh_to_sf_chunks, bind at 1. rewrite Hc.
  unfold lift, convert_sh_to_sf_parallel.
  rewrite (@scatter_reassembled _ _ shm_coeff mask _ chunks _ _ _ Hs Hl E)
    by (intros c; apply length_map).
  rewrite concat_map_map. destruct (array_split_lengths _ _ E) as (_ & _ & ->).
  reflexivity.
Qed.

(** peaks_from_sh returns, at the voxels of its mask, the three outputs of
    each row. *)
Lemma peaks_from_sh_result
  (peak_directions : list float -> list (list float) * list float * list Z)
  (B : list (list float)) (shm_coeff : volume (list float))
  (absolute_threshold : float) (normalize_peaks : bool) (npeaks : nat)
  (nbr : option Z) (h : heap) :
  mask_fits shm_coeff h ->
  nbr <> Some 0%Z ->
  let per_voxel :=
    peaks_of_voxel np peak_directions B absolute_threshold npeaks normalize_peaks in
  exists mask,
    mask_or_derived np shm_coeff h = (Ok mask, h)
    /\ peaks_from_sh np cpu peak_directions B shm_coeff absolute_threshold
                     normalize_peaks npeaks nbr h
       = (Ok (Volume (shape shm_coeff)
                (Np.place (voxels mask)
                   (repeat (repeat (repeat 0 3) npeaks) (size3 (shape shm_coeff)))
                   (map (fun row => fst (fst (per_voxel row)))
                        (Np.compress (voxels mask) (voxels shm_coeff)))),
              Volume (shape shm_coeff)
                (Np.place (voxels mask)
                   (repeat (repeat 0 npeaks) (size3 (shape shm_coeff)))
                   (map (fun row => snd (fst (per_voxel row)))
                        (Np.compress (voxels mask) (voxels shm_coeff)))),
              Volume (shape shm_coeff)
                (Np.place (voxels mask)
                   (repeat (repeat 0 npeaks) (size3 (shape shm_coeff)))
                   (map (fun row => map F.of_Z (snd (per_voxel row)))
                        (Np.compress (voxels mask) (voxels shm_coeff))))),
          h).
Proof.
  intros Hfits Hn0 per_voxel.
  destruct (mask_or_derived_fits np shm_coeff h Hfits) as (mask & Hm & Hs & Hl).
  exists mask. split; [exact Hm|].
  pose proof (cpu_count_if_none_or_lt0_pos cpu_pos Hn0) as HK.
  destruct (masked_chunks_ok _ shm_coeff h Hm Hs HK) as (chunks & E & Hc).
  unfold peaks_from_sh, peaks_from_sh_chunks, bind at 1. rewrite Hc.
  rewrite !map_pool_map. unfold peaks_from_sh_parallel. cbn [fst snd].
  fold per_voxel.
  unfold bind, lift, ret.
  rewrite (@scatter_reassembled _ _ shm_coeff mask _ chunks
             (fun c => map (fun r => fst (fst r)) (map per_voxel c))
             _ _ Hs Hl E)
    by (intros c; now rewrite !length_map).
  rewrite (@scatter_reassembled _ _ shm_coeff mask _ chunks
             (fun c => map (fun r => snd (fst r)) (map per_voxel c))
             _ _ Hs Hl E)
    by (intros c; now rewrite !length_map).
  rewrite (@scatter_reassembled _ _ shm_coeff mask _ chunks
             (fun c => map (map F.of_Z)
                           (map (fun r => snd r) (map per_voxel c)))
             _ _ Hs Hl E)
    by (intros c; now rewrite !length_map).
  destruct (array_split_lengths _ _ E) as (_ & _ & Hcat).
  rewrite <- Hcat.
  rewrite (concat_map_by (fun row => fst (fst (per_voxel row)))
             (fun c => map (fun r => fst (fst r)) (map per_voxel c)))
    by (intros c; apply map_map).
  rewrite (concat_map_by (fun row => snd (fst (per_voxel row)))
             (fun c => map (fun r => snd (fst r)) (map per_voxel c)))
    by (intros c; apply map_map).
  rewrite (concat_map_by (fun row => map F.of_Z (snd (per_voxel row)))
             (fun c => map (map F.of_Z) (map (fun r => snd r) (map per_voxel c))))
    by (intros c; now rewrite !map_map).
  reflexivity.
Qed.

(** The outputs of fit_from_model and convert_sh_basis do not depend on the
    requested worker count. *)
Lemma fit_from_model_any_worker_count (Fit : Type)
  (model_fit : list float -> option Fit) (nan_fit : Fit)
  (data : volume (list float)) (nbr nbr' : option Z) (h : heap) :
  mask_fits data h ->
  fit_from_model np cpu model_fit nan_fit data nbr h
  = fit_from_model np cpu model_fit nan_fit data nbr' h.
Proof.
  intros Hfits.
  destruct (fit_from_model_result model_fit nan_fit data nbr h Hfits)
    as (m & h1 & Hm & ->).
  destruct (fit_from_model_result model_fit nan_fit data nbr' h Hfits)
    as (m' & h2 & Hm' & ->).
  rewrite Hm in Hm'. now injection Hm' as <- <-.
Qed.

Lemma convert_sh_basis_any_worker_count (B_in invB_out : list (list float))
  (shm_coeff : volume (list float)) (ncoef : nat) (nbr nbr' : option Z)
  (h : heap) :
  mask_fits shm_coeff h ->
  nbr <> Some 0%Z -> nbr' <> Some 0%Z ->
  convert_sh_basis np cpu B_in invB_out shm_coeff ncoef nbr h
  = convert_sh_basis np cpu B_in invB_out shm_coeff ncoef nbr' h.
Proof.
  intros Hfits Hn Hn'.
  destruct (convert_sh_basis_result B_in invB_out shm_coeff ncoef h Hfits Hn)
    as (m & Hm & ->).
  destruct (convert_sh_basis_result B_in invB_out shm_coeff ncoef h Hfits Hn')
    as (m' & Hm' & ->).
  rewrite Hm in Hm'. now injection Hm' as <-.
Qed.
End OperationResults.

(** ** Empty masks and the caller's arrays *)

Import Seeding.

(** C9 (as the code has it). When the mask fit_gamma works on has no active
    voxel, the call completes and returns the array of spatial shape
    [data.shape[0:3]] whose entries are all zero; the heap, and with it the
    logging output, is exactly as before the call: no warning is emitted.
    The warning for an empty mask is the one SeedGenerator's constructor
    logs when the seeding image has no positive voxel. *)
Theorem empty_mask_all_default (np : F.kernels) (cpu : Z)
  (gamma_data2fit : nat -> nat -> list float -> list float)
  (data : volume (list float)) (nbr : option Z) (h : heap) (mask : volume bool) :
  (0 < cpu)%Z ->
  mask_fits data h ->
  mask_or_derived np data h = (Ok mask, h) ->
  Np.count_nonzero (voxels mask) = 0 ->
  fit_gamma np cpu gamma_data2fit data nbr h
  = (Ok (zeros (shape data) (repeat 0%float 4)), h)
  /\ well_shaped (zeros (shape data) (repeat 0%float 4))
  /\ forall img : image,
       where_positive (fdata img) = [] ->
       seeds (fst (SeedGenerator_init img)) = []
       /\ snd (SeedGenerator_init img)
          = ["There are positive voxels in the seeding mask!"%string].
Proof.
  intros Hcpu Hfits Hm H0.
  split; [|split].
  - destruct (fit_gamma_result np Hcpu gamma_data2fit data nbr h Hfits)
      as (mask' & outs & Hm' & Houts & ->).
    rewrite Hm in Hm'. injection Hm' as <-.
    destruct (mask_or_derived_fits np data h Hfits) as (m & Hm2 & _ & Hl).
    rewrite Hm in Hm2. injection Hm2 as <-.
    rewrite (compress_nil _ _ Hl H0) in Houts. inversion Houts.
    now rewrite place_nil.
  - unfold well_shaped, zeros. cbn [shape voxels]. apply repeat_length.
  - intros img Hw. unfold SeedGenerator_init. rewrite Hw. split; reflexivity.
Qed.

Lemma empty_mask_all_default_witness :
  fit_gamma F.sequential 2 (fun _ _ _ => [1; 1; 1; 1]%float)
            (Volume (1, 1, 2) [[0; 0]; [0; 0]]%float) None (Heap None [])
  = (Ok (Volume (1, 1, 2) [[0; 0; 0; 0]; [0; 0; 0; 0]]%float), Heap None []).
Proof.
  exact (proj1 (@empty_mask_all_default F.sequential
                  2 (fun _ _ _ => [1; 1; 1; 1]%float)
                  (Volume (1, 1, 2) [[0; 0]; [0; 0]]%float) None (Heap None [])
                  (Volume (1, 1, 2) [false; false])
                  ltac:(lia) I eq_refl eq_refl)).
Defined.

(** C9 as stated fails: on an all-zero volume fit_gamma returns with nothing
    added to the logging output. *)
Lemma empty_mask_no_warning :
  ~ (forall (data : volume (list float)) (r : volume (list float)) (h' : heap),
       Np.count_nonzero (voxels (sum_axis3_astype_bool F.sequential data)) = 0 ->
       fit_gamma F.sequential 2 (fun _ _ _ => [1; 1; 1; 1]%float) data None
                 (Heap None [])
       = (Ok r, h') ->
       exists msg, log h' = log (Heap None []) ++ [msg]).
Proof.
  intros H.
  destruct (H (Volume (1, 1, 2) [[0; 0]; [0; 0]]%float) _ _ eq_refl eq_refl)
    as (msg & Hmsg).
  vm_compute in Hmsg. discriminate.
Qed.

(** C8. fit_from_model writes through the mask the caller passed: called on
    a volume whose second voxel is all zero, with a mask that is true at both
    voxels, it returns normally and leaves the caller's mask false at the
    second voxel. (The channel sums, 1 + 2 and 0 + 0, are exact.) *)
Theorem fit_from_model_overwrites_caller_mask :
  let data := Volume (1, 1, 2) [[1; 2]; [0; 0]]%float in
  let mask := Volume (1, 1, 2) [true; true] in
  exists r,
    fit_from_model F.sequential 2 (fun row => Some row) [] data (Some 1%Z)
                   (Heap (Some mask) [])
    = (Ok r, Heap (Some (Volume (1, 1, 2) [true; false])) [])
    /\ mask_obj (Heap (Some (Volume (1, 1, 2) [true; false])) []) <> Some mask.
Proof.
  intros data mask. eexists. split.
  - vm_compute. reflexivity.
  - discriminate.
Qed.

(** The other operations never write the caller's mask: the first half of
    each returns the heap it was given. *)
Lemma mask_or_derived_chunks_frame {A} (np : F.kernels)
  (data : volume (list float)) (rows : volume A) (K : Z) (h : heap) :
  snd (masked_chunks (mask_or_derived np data) K rows h) = h.
Proof.
  unfold masked_chunks, bind.
  destruct (mask_obj h) as [m|] eqn:E.
  - rewrite (mask_or_derived_some np data h E). unfold lift, ret.
    destruct (split_masked rows m K) as [[c cl]|e]; reflexivity.
  - rewrite (mask_or_derived_none np data h E). unfold lift, ret.
    destruct (split_masked rows _ K) as [[c cl]|e]; reflexivity.
Qed.

(** ** The running maxima of maps_from_sh *)

Section Maxima.
Local Open Scope float_scope.

Let step (acc : float * float) (r : nat * maps_chunk) : float * float :=
  (F.py_max (snd acc) (max_odf (snd r)), F.py_max (snd acc) (global_max (snd r))).

Lemma maxima_fold_snd (results : list (nat * maps_chunk)) (acc : float * float) :
  snd (fold_left step results acc)
  = fold_left F.py_max (map (fun r => global_max (snd r)) results) (snd acc).
Proof.
  revert acc. induction results as [|r results IH]; intros acc.
  - reflexivity.
  - cbn [fold_left map]. now rewrite IH.
Qed.

(** The second running maximum is the fold of [max] over the chunks'
    [global_max] values. *)
Lemma all_time_global_max_is_fold (results : list (nat * maps_chunk)) :
  snd (all_time_maxima results)
  = fold_left F.py_max (map (fun r => global_max (snd r)) results) neg_infinity.
Proof. exact (maxima_fold_snd results (neg_infinity, neg_infinity)). Qed.

(** The first one is not a running maximum of [max_odf]: after the last
    chunk it is the larger of that chunk's [max_odf] and the running maximum
    of the earlier chunks' [global_max]. *)
Lemma all_time_max_odf_after_last (results : list (nat * maps_chunk))
  (r : nat * maps_chunk) :
  fst (all_time_maxima (results ++ [r]))
  = F.py_max
      (fold_left F.py_max (map (fun r => global_max (snd r)) results) neg_infinity)
      (max_odf (snd r)).
Proof.
  unfold all_time_maxima. rewrite fold_left_app. cbn [fold_left fst].
  f_equal. exact (maxima_fold_snd results (neg_infinity, neg_infinity)).
Qed.
End Maxima.

(** C2. On the results of two chunks with max_odf 8 and 2 (and global_max
    4 and 1), the loop of maps_from_sh ends with all_time_max_odf = 4, while
    the maximum of the chunks' max_odf is 8; all_time_global_max is the
    maximum 4 of the chunks' global_max. *)
Theorem all_time_max_odf_is_not_the_maximum :
  let chunk (max_odf global_max : float) :=
    MapsChunk [] [] [] [] [] (QaRows []) max_odf global_max in
  all_time_maxima [(0, chunk 8%float 4%float); (1, chunk 2%float 1%float)]
  = (4, 4)%float
  /\ fold_left F.py_max [8; 2]%float neg_infinity = 8%float
  /\ fold_left F.py_max [4; 1]%float neg_infinity = 4%float.
Proof. repeat split. Qed.

(** ** maps_from_sh and the number of chunks *)

Section MapsExample.
Local Open Scope float_scope.

(** C1. Take two voxels with one SH coefficient each (8 and 2), one peak
    each (values 4 and 1, index 0), a sphere with the single vertex
    (1, 0, 0), the 1 x 1 SH-to-SF matrix [[1]], no mask and gfa_thr = 0.
    For every gfa that is not below the threshold at the two voxels,
    maps_from_sh returns different rgb and qa maps with one chunk and with
    two chunks. (With one coefficient and one vertex, each sum and product
    of the run has a single term.) *)
Theorem maps_from_sh_depends_on_chunk_count (gfa : list float -> float) :
  (gfa [8] <? 0) = false ->
  (gfa [2] <? 0) = false ->
  let run (nbr_processes : Z) :=
    maps_from_sh F.sequential 8 gfa [[1]] [[1; 0; 0]]
      (Volume (1, 1, 2)%nat [[8]; [2]])
      (Volume (1, 1, 2)%nat [[[1; 0; 0]]; [[1; 0; 0]]])
      (Volume (1, 1, 2)%nat [[4]; [1]])
      (Volume (1, 1, 2)%nat [[0]; [0]])
      1%nat 0 (Some nbr_processes) (Heap None []) in
  exists m1 m2,
    fst (run 1%Z) = Ok m1
    /\ fst (run 2%Z) = Ok m2
    /\ voxels (rgb_map_array m1) = [[255; 0; 0]; [63.75; 0; 0]]
    /\ voxels (rgb_map_array m2) = [[510; 0; 0]; [127.5; 0; 0]]
    /\ voxels (qa_map_array m1) = [[-0.25]; [-0.25]]
    /\ voxels (qa_map_array m2) = [[-1]; [-0.25]].
Proof.
  intros H8 H2 run. unfold run.
  eexists _, _.
  split; [vm_compute; rewrite H8, H2; vm_compute; reflexivity|].
  split; [vm_compute; rewrite H8, H2; vm_compute; reflexivity|].
  repeat split.
Qed.

Lemma maps_from_sh_depends_on_chunk_count_witness :
  exists m1 m2,
    fst (maps_from_sh F.sequential 8 (fun _ => 0.5) [[1]] [[1; 0; 0]]
           (Volume (1, 1, 2)%nat [[8]; [2]])
           (Volume (1, 1, 2)%nat [[[1; 0; 0]]; [[1; 0; 0]]])
           (Volume (1, 1, 2)%nat [[4]; [1]])
           (Volume (1, 1, 2)%nat [[0]; [0]])
           1%nat 0 (Some 1%Z) (Heap None [])) = Ok m1
    /\ fst (maps_from_sh F.sequential 8 (fun _ => 0.5) [[1]] [[1; 0; 0]]
              (Volume (1, 1, 2)%nat [[8]; [2]])
              (Volume (1, 1, 2)%nat [[[1; 0; 0]]; [[1; 0; 0]]])
              (Volume (1, 1, 2)%nat [[4]; [1]])
              (Volume (1, 1, 2)%nat [[0]; [0]])
              1%nat 0 (Some 2%Z) (Heap None [])) = Ok m2
    /\ voxels (rgb_map_array m1) <> voxels (rgb_map_array m2)
    /\ voxels (qa_map_array m1) <> voxels (qa_map_array m2).
Proof.
  destruct (maps_from_sh_depends_on_chunk_count (fun _ => 0.5) eq_refl eq_refl)
    as (m1 & m2 & E1 & E2 & R1 & R2 & Q1 & Q2).
  exists m1, m2. split; [exact E1|]. split; [exact E2|].
  rewrite R1, R2, Q1, Q2. split; intros H.
  - apply (f_equal (fun l => match l with (x :: _) :: _ => x =? 255 | _ => false end))
      in H.
    vm_compute in H. discriminate.
  - apply (f_equal (fun l => match l with (x :: _) :: _ => x =? -0.25 | _ => false end))
      in H.
    vm_compute in H. discriminate.
Defined.
End MapsExample.

(** ** Skipping ahead in the random stream *)

Section SkipAhead.
Variable rng : Type.
Variable RandomState : Z -> rng.
Variable next_double : rng -> float * rng.
Variable shuffle : list nat -> rng -> list nat * rng.

Local Abbreviation draws := (draws next_double).

Lemma draws_add (a b : nat) (g : rng) :
  draws (a + b) g
  = (fst (draws a g) ++ fst (draws b (snd (draws a g))),
     snd (draws b (snd (draws a g)))).
Proof.
  revert g. induction a as [|a IH]; intros g.
  - cbn [Nat.add Seeding.draws fst snd app]. now destruct (draws b g).
  - cbn [Nat.add Seeding.draws]. destruct (next_double g) as [x g1].
    rewrite IH. destruct (draws a g1) as [xs g2]. reflexivity.
Qed.

Lemma random_sample_nonneg (size : Z) (g : rng) :
  (0 <= size)%Z ->
  random_sample next_double size g = Ok (draws (Z.to_nat size) g).
Proof.
  intros H. unfold random_sample.
  destruct (Z.ltb_spec size 0); [lia | reflexivity].
Qed.

Lemma to_nat_batch (n : Z) :
  (100000 < n)%Z ->
  Z.to_nat n = Z.to_nat 100000 + Z.to_nat (n - 100000).
Proof.
  intros H. rewrite <- Z2Nat.inj_add by lia. f_equal. lia.
Qed.

(** The batched loop discards exactly [n] doubles. *)
Lemma skip_random_numbers_discards (n : Z) (g : rng) :
  (0 <= n)%Z ->
  skip_random_numbers next_double n g = Ok (snd (draws (Z.to_nat n) g)).
Proof.
  funelim (skip_random_numbers next_double n g); intros Hn.
  - rewrite random_sample_nonneg in Heq by (clear; lia).
    rewrite (to_nat_batch l), draws_add. cbn [snd].
    set (batch := Z.to_nat 100000) in *. clearbody batch.
    injection Heq as <-. apply H. lia.
  - rewrite random_sample_nonneg in Heq by (clear; lia). discriminate.
  - rewrite random_sample_nonneg in Heq by assumption. now injection Heq as <-.
  - rewrite random_sample_nonneg in Heq by assumption. discriminate.
Qed.

Lemma skip_seeds_discards (n : Z) (g : rng) :
  (0 <= n)%Z ->
  skip_seeds next_double n g = Ok (snd (draws (Z.to_nat n) g)).
Proof.
  funelim (skip_seeds next_double n g); intros Hn; unfold rand in *.
  - rewrite random_sample_nonneg in Heq by (clear; lia).
    rewrite (to_nat_batch l), draws_add. cbn [snd].
    set (batch := Z.to_nat 100000) in *. clearbody batch.
    injection Heq as <-. apply H. lia.
  - rewrite random_sample_nonneg in Heq by (clear; lia). discriminate.
  - rewrite random_sample_nonneg in Heq by assumption. now injection Heq as <-.
  - rewrite random_sample_nonneg in Heq by assumption. discriminate.
Qed.

(** A seed position consumes three doubles of the stream. *)
Lemma get_next_pos_draws_three (self : SeedGenerator) (g : rng)
  (indices : list nat) (which_seed : nat) :
  seeds self <> [] ->
  snd (get_next_pos next_double self g indices which_seed) = snd (draws 3 g).
Proof.
  intros Hs. unfold get_next_pos, uniform.
  destruct (seeds self) as [|s l] eqn:E; [congruence|].
  cbn [length Nat.eqb]. destruct (pixdim self) as [[p0 p1] p2].
  destruct (nth _ (s :: l) _) as [[x y] z].
  cbn [Seeding.draws].
  destruct (next_double g) as [u0 g1], (next_double g1) as [u1 g2],
           (next_double g2) as [u2 g3].
  reflexivity.
Qed.

(** C3. For every seed and every chunk offset o >= 0, the generator that
    init_generator (seed.py) and init_pos (trackable_dataset.py) return for
    the chunk is the generator of the sequential run (offset 0: seeded, then
    the index shuffle every run starts with) after o * 3 doubles have been
    drawn from it and discarded, with the same shuffled indices; so the
    doubles the sequential generator yields after the discarded ones are the
    doubles the chunk's generator yields. For init_pos this is the state
    when np.asscalar returns the offsets it is given. *)
Theorem skip_ahead_equivalence (asscalar : Z -> result Z)
  (self : SeedGenerator) (seed o : Z) :
  (0 <= o)%Z ->
  asscalar 0%Z = Ok 0%Z ->
  asscalar o = Ok o ->
  exists (g0 : rng) (indices : list nat),
    shuffle (seq 0 (length (seeds self))) (RandomState seed) = (indices, g0)
    /\ init_generator RandomState next_double shuffle self seed 0
       = Ok (g0, indices)
    /\ init_generator RandomState next_double shuffle self seed o
       = Ok (snd (draws (Z.to_nat (o * 3)) g0), indices)
    /\ init_pos RandomState next_double shuffle asscalar
                (length (seeds self)) seed 0
       = Ok (g0, indices)
    /\ init_pos RandomState next_double shuffle asscalar
                (length (seeds self)) seed o
       = Ok (snd (draws (Z.to_nat (o * 3)) g0), indices)
    /\ forall n : nat,
         fst (draws (Z.to_nat (o * 3) + n) g0)
         = fst (draws (Z.to_nat (o * 3)) g0)
           ++ fst (draws n (snd (draws (Z.to_nat (o * 3)) g0))).
Proof.
  intros Ho Has0 Has. unfold init_generator, init_pos.
  destruct (shuffle (seq 0 (length (seeds self))) (RandomState seed))
    as [indices g0].
  exists g0, indices.
  rewrite Has0, Has.
  rewrite !skip_random_numbers_discards, !skip_seeds_discards by lia.
  repeat split.
  intros n. now rewrite draws_add.
Qed.
End SkipAhead.

Lemma skip_ahead_equivalence_witness :
  exists (g0 : Z) (indices : list nat),
    init_generator (fun seed => seed) lcg_next lcg_shuffle
                   {| pixdim := (1, 1, 1)%float;
                      seeds := [(0.5, 0.5, 0.5); (1.5, 0.5, 0.5)]%float |}
                   42 0
    = Ok (g0, indices)
    /\ init_generator (fun seed => seed) lcg_next lcg_shuffle
                      {| pixdim := (1, 1, 1)%float;
                         seeds := [(0.5, 0.5, 0.5); (1.5, 0.5, 0.5)]%float |}
                      42 83334
       = Ok (snd (Seeding.draws lcg_next (Z.to_nat (83334 * 3)) g0), indices).
Proof.
  destruct (@skip_ahead_equivalence
              Z (fun seed => seed) lcg_next lcg_shuffle (fun n => Ok n)
              {| pixdim := (1, 1, 1)%float;
                 seeds := [(0.5, 0.5, 0.5); (1.5, 0.5, 0.5)]%float |}
              42%Z 83334%Z ltac:(lia) eq_refl eq_refl)
    as (g0 & indices & _ & H0 & Ho & _).
  exists g0, indices. split; [exact H0 | exact Ho].
Defined.

(** ** Voxel access in a Dataset *)

Lemma getitem_in_range {A} (arr : list A) (i : Z) :
  (0 <= i < Z.of_nat (length arr))%Z ->
  exists a,
    TrackableDataset.getitem arr i = Ok a /\ nth_error arr (Z.to_nat i) = Some a.
Proof.
  intros Hi. unfold TrackableDataset.getitem.
  destruct (Z.ltb_spec i 0); [lia|].
  replace ((0 <=? i) && (i <? Z.of_nat (length arr)))%Z with true
    by (symmetry; apply andb_true_iff; split;
        [apply Z.leb_le | apply Z.ltb_lt]; lia).
  destruct (nth_error arr (Z.to_nat i)) as [a|] eqn:E.
  - exists a. split; reflexivity.
  - apply nth_error_None in E. lia.
Qed.

Lemma clamp_in_range (n c : Z) :
  (0 < n)%Z -> (0 <= Z.max 0 (Z.min (n - 1) c) < n)%Z.
Proof. lia. Qed.

Section VoxelAccess.
Import TrackableDataset.
Context {A : Type}.

(** C10 (as the code has it). In a dataset whose [dim] is the shape of its
    data and has no empty axis, for every integer triple (x, y, z) getVoxelValue returns normally
    the entry of the data at the triple clamped componentwise to
    max(0, min(dim - 1, c)); the clamped triple is inside the array, and it
    is (x, y, z) itself when (x, y, z) is in bound. *)
Theorem getVoxelValue_clamps (self : Dataset A) (x y z : Z) :
  has_shape self ->
  (0 < fst (fst (dim self)) /\ 0 < snd (fst (dim self)) /\ 0 < snd (dim self))%Z ->
  let cx := Z.max 0 (Z.min (fst (fst (dim self)) - 1) x) in
  let cy := Z.max 0 (Z.min (snd (fst (dim self)) - 1) y) in
  let cz := Z.max 0 (Z.min (snd (dim self) - 1) z) in
  (0 <= cx < fst (fst (dim self)))%Z
  /\ (0 <= cy < snd (fst (dim self)))%Z
  /\ (0 <= cz < snd (dim self))%Z
  /\ (isVoxelInBound self x y z = true -> cx = x /\ cy = y /\ cz = z)
  /\ exists plane line v,
       getVoxelValue self x y z = Ok v
       /\ nth_error (data self) (Z.to_nat cx) = Some plane
       /\ nth_error plane (Z.to_nat cy) = Some line
       /\ nth_error line (Z.to_nat cz) = Some v.
Proof.
  intros Hshape Hdim cx cy cz.
  destruct self as [[[X Y] Zd] d].
  unfold getVoxelValue, has_shape, isVoxelInBound in *.
  cbn [dim data fst snd] in *.
  destruct Hshape as [HX Hplanes]. destruct Hdim as (HX0 & HY0 & HZ0).
  pose proof (clamp_in_range x HX0) as Hcx.
  pose proof (clamp_in_range y HY0) as Hcy.
  pose proof (clamp_in_range z HZ0) as Hcz.
  fold cx in Hcx. fold cy in Hcy. fold cz in Hcz.
  assert (Hin : ((x <? X) && (y <? Y) && (z <? Zd) && (x >=? 0) && (y >=? 0)
                 && (z >=? 0))%Z = true -> cx = x /\ cy = y /\ cz = z).
  { rewrite !andb_true_iff, !Z.ltb_lt, !Z.geb_le. subst cx cy cz. lia. }
  split; [exact Hcx|]. split; [exact Hcy|]. split; [exact Hcz|].
  split; [exact Hin|].
  assert (Hget : exists plane line v,
             nth_error d (Z.to_nat cx) = Some plane
             /\ nth_error plane (Z.to_nat cy) = Some line
             /\ nth_error line (Z.to_nat cz) = Some v
             /\ getitem d cx = Ok plane
             /\ getitem plane cy = Ok line
             /\ getitem line cz = Ok v).
  { destruct (@getitem_in_range _ d cx) as (plane & Gp & Np); [lia|].
    pose proof (proj1 (Forall_forall _ _) Hplanes plane (nth_error_In _ _ Np))
      as [HY Hlines].
    destruct (@getitem_in_range _ plane cy) as (line & Gl & Nl); [lia|].
    pose proof (proj1 (Forall_forall _ _) Hlines line (nth_error_In _ _ Nl)) as HZ.
    cbv beta in HZ.
    destruct (@getitem_in_range _ line cz) as (v & Gv & Nv); [lia|].
    exists plane, line, v. auto 10. }
  destruct Hget as (plane & line & v & Np & Nl & Nv & Gp & Gl & Gv).
  exists plane, line, v. split; [|auto].
  destruct ((x <? X) && (y <? Y) && (z <? Zd) && (x >=? 0) && (y >=? 0)
            && (z >=? 0))%Z eqn:E; cbn [negb].
  - destruct (Hin eq_refl) as (Ex & Ey & Ez). rewrite <- Ex, <- Ey, <- Ez.
    now rewrite Gp, Gl.
  - fold cx cy cz. now rewrite Gp, Gl.
Qed.
End VoxelAccess.

Lemma getVoxelValue_clamps_witness :
  TrackableDataset.getVoxelValue
    {| TrackableDataset.dim := (1, 2, 2)%Z;
       TrackableDataset.data := [[[10; 11]; [12; 13]]] |} 5 (-3) 1
  = Ok 11.
Proof.
  destruct (@getVoxelValue_clamps nat
              {| TrackableDataset.dim := (1, 2, 2)%Z;
                 TrackableDataset.data := [[[10; 11]; [12; 13]]] |}
              5%Z (-3)%Z 1%Z)
    as (_ & _ & _ & _ & plane & line & v & E & Hp & Hl & Hv).
  - split; [reflexivity|].
    repeat constructor.
  - repeat split.
  - rewrite E. f_equal.
    vm_compute in Hp. injection Hp as <-.
    vm_compute in Hl. injection Hl as <-.
    vm_compute in Hv. now injection Hv as <-.
Defined.

(** C10 as stated fails on a dataset with an empty axis: with data of shape
    (2, 0, 3), the triple (1, 0, 2) is out of bound, the clamped triple is
    (1, 0, 2) again, and data[1][0] raises IndexError. *)
Lemma getVoxelValue_no_valid_index :
  ~ (forall (self : TrackableDataset.Dataset nat) (x y z : Z),
       TrackableDataset.has_shape self ->
       exists v, TrackableDataset.getVoxelValue self x y z = Ok v).
Proof.
  intros H.
  destruct (H {| TrackableDataset.dim := (2, 0, 3)%Z;
                 TrackableDataset.data := [[]; []] |} 1%Z 0%Z 2%Z)
    as (v & Hv).
  - split; [reflexivity|]. repeat constructor.
  - vm_compute in Hv. discriminate.
Qed.

(** ** The model at work *)

Example array_split_7_by_3 :
  Np.array_split [0; 1; 2; 3; 4; 5; 6] 3 = Ok [[0; 1; 2]; [3; 4]; [5; 6]].
Proof. reflexivity. Qed.

Example array_split_2_by_4 :
  Np.array_split [0; 1] 4 = Ok [[0]; [1]; []; []].
Proof. reflexivity. Qed.

Example array_split_by_0 :
  Np.array_split [0; 1] 0 = Raise ValueError.
Proof. reflexivity. Qed.

(** A worker count of 0 is replaced in fit_gamma and reaches
    [np.array_split] in peaks_from_sh. *)
Example worker_count_zero :
  is_ok (fst (fit_gamma_chunks F.sequential 4 (Volume (1, 1, 2) [[1]; [1]]%float) (Some 0%Z)
                               (Heap None []))) = true
  /\ fst (peaks_from_sh_chunks F.sequential 4 (Volume (1, 1, 2) [[1]; [1]]%float) (Some 0%Z)
                               (Heap None [])) = Raise ValueError.
Proof. split; reflexivity. Qed.

(** A mask of another shape is refused by [data[mask]]. *)
Example mask_of_other_shape :
  fst (fit_gamma F.sequential 4 (fun _ _ row => row)
                 (Volume (1, 1, 2) [[1]; [1]]%float) None
                 (Heap (Some (Volume (1, 2, 1) [true; true])) []))
  = Raise IndexError.
Proof. reflexivity. Qed.

(** A fit that returns the sum of the channels, on a 1 x 2 x 2 volume in
    which one voxel is zero, with one, two and three workers. *)
Example fit_gamma_three_worker_counts :
  let data := Volume (1, 2, 2) [[1; 2]; [0; 0]; [3; 4]; [5; 6]]%float in
  let f := fun (_ _ : nat) row => [F.sum_seq row; 0; 0; 0]%float in
  let expected :=
    Volume (1, 2, 2) [[3; 0; 0; 0]; [0; 0; 0; 0]; [7; 0; 0; 0]; [11; 0; 0; 0]]%float in
  fst (fit_gamma F.sequential 4 f data (Some 1%Z) (Heap None [])) = Ok expected
  /\ fst (fit_gamma F.sequential 4 f data (Some 2%Z) (Heap None [])) = Ok expected
  /\ fst (fit_gamma F.sequential 4 f data (Some 3%Z) (Heap None [])) = Ok expected.
Proof. repeat split. Qed.

(** A mask with more planes than the volume: [mask *= mask_any] broadcasts
    the derived mask over the planes and writes the caller's mask, and then
    [data[mask]] refuses the mask. *)
Example fit_from_model_broadcasts_into_mask :
  fit_from_model F.sequential 2 (fun row => Some row) []
                 (Volume (1, 1, 2) [[1]; [0]]%float) None
                 (Heap (Some (Volume (2, 1, 2) [true; true; true; true])) [])
  = (Raise IndexError,
     Heap (Some (Volume (2, 1, 2) [true; false; true; false])) []).
Proof. reflexivity. Qed.

(** On a volume without active voxel maps_from_sh divides its zero rgb map
    by all_time_max_odf = max(-inf, 0) = 0. *)
Example maps_from_sh_without_active_voxel :
  exists m,
    fst (maps_from_sh F.sequential 2 (fun _ => 0%float) [[1]]%float [[1; 0; 0]]%float
           (Volume (1, 1, 1) [[0]]%float)
           (Volume (1, 1, 1) [[[0; 0; 0]]]%float)
           (Volume (1, 1, 1) [[0]]%float)
           (Volume (1, 1, 1) [[-1]]%float)
           1 0%float None (Heap None []))
    = Ok m
    /\ voxels (rgb_map_array m) = [[nan; nan; nan]]%float.
Proof. eexists. split; [vm_compute; reflexivity | reflexivity]. Qed.

Import Seeding.

Example skip_seven_doubles :
  skip_random_numbers lcg_next 7 1%Z = Ok (snd (draws lcg_next 7 1%Z)).
Proof. reflexivity. Qed.

Example negative_offset_is_refused :
  init_generator (fun seed => seed) lcg_next lcg_shuffle
                 {| pixdim := (1, 1, 1)%float; seeds := [] |} 42 (-1)
  = Raise ValueError.
Proof. reflexivity. Qed.

Example seeds_of_an_image :
  SeedGenerator_init
    (Image (2, 2, 2)%float (Volume (2, 2, 2) [0; 1; 0; 3; 0; 0; 0; 0]%float))
  = ({| pixdim := (2, 2, 2)%float;
        seeds := [(0.5, 0.5, 1.5); (0.5, 1.5, 1.5)]%float |}, []).
Proof. reflexivity. Qed.

Example no_seed_warning :
  snd (SeedGenerator_init
         (Image (2, 2, 2)%float (Volume (2, 2, 2) [0; 0; 0; 0; 0; 0; 0; 0]%float)))
  = ["There are positive voxels in the seeding mask!"%string].
Proof. reflexivity. Qed.

Example getVoxelValue_negative_index :
  TrackableDataset.getitem [10; 11; 12] (-1) = Ok 12
  /\ TrackableDataset.getitem [10; 11; 12] 3 = Raise IndexError.
Proof. split; reflexivity. Qed.

(** ** What each voxel of an output holds *)

Lemma place_compress {A B} (f : A -> B) (zero : B) (mask : list bool)
  (rows : list A) :
  length mask = length rows ->
  Np.place mask (repeat zero (length rows)) (map f (Np.compress mask rows))
  = map (fun p : bool * A => if fst p then f (snd p) else zero)
        (combine mask rows).
Proof.
  revert rows. induction mask as [|m mask IH]; intros [|a rows] H;
    simpl in H; try discriminate; [reflexivity|].
  cbn [length repeat Np.compress combine map fst snd].
  destruct m; cbn [map Np.place]; rewrite IH by lia; reflexivity.
Qed.

Lemma voxel_place_compress {A B} (f : A -> B) (zero : B) (data : volume A)
  (mask : volume bool) (x y z : nat) (b : bool) (row : A) :
  shape mask = shape data ->
  length (voxels mask) = length (voxels data) ->
  well_shaped data ->
  voxel mask x y z = Some b ->
  voxel data x y z = Some row ->
  voxel (Volume (shape data)
           (Np.place (voxels mask) (repeat zero (size3 (shape data)))
              (map f (Np.compress (voxels mask) (voxels data)))))
        x y z
  = Some (if b then f row else zero).
Proof.
  intros Hs Hl Hw Hb Hrow. unfold well_shaped in Hw.
  rewrite <- Hw, place_compress by exact Hl.
  unfold voxel in *. cbn [shape voxels]. rewrite Hs in Hb.
  destruct (in_shape (shape data) x y z); [|discriminate].
  change (if b then f row else zero)
    with ((fun p : bool * A => if fst p then f (snd p) else zero) (b, row)).
  apply map_nth_error. now apply nth_error_combine.
Qed.

Lemma place_length {A} (mask : list bool) (out vals : list A) :
  length (Np.place mask out vals) = length out.
Proof.
  revert out vals. induction mask as [|m mask IH]; intros [|o out] vals;
    try reflexivity.
  cbn [Np.place]. destruct m; [destruct vals|]; cbn [length]; now rewrite IH.
Qed.

Lemma place_compress_Forall2 {A B} (P : A -> B -> Prop) (zero : B)
  (mask : list bool) (rows : list A) (outs : list B) :
  length mask = length rows ->
  Forall2 P (Np.compress mask rows) outs ->
  Forall2 (fun (p : bool * A) o => if fst p then P (snd p) o else o = zero)
          (combine mask rows)
          (Np.place mask (repeat zero (length rows)) outs).
Proof.
  revert rows outs. induction mask as [|m mask IH]; intros [|a rows] outs H;
    simpl in H; try discriminate; intros HF; [constructor|].
  cbn [length repeat Np.compress combine Np.place] in *.
  destruct m.
  - inversion HF as [|? o ? outs' HP HF']; subst.
    constructor; [exact HP | apply IH; [lia | exact HF']].
  - constructor; [reflexivity | apply IH; [lia | exact HF]].
Qed.

Lemma Forall2_nth_error_l {A B} (R : A -> B -> Prop) (l : list A) (l' : list B)
  (i : nat) (a : A) :
  Forall2 R l l' -> nth_error l i = Some a ->
  exists b, nth_error l' i = Some b /\ R a b.
Proof.
  intros HF. revert i. induction HF as [|x y l l' HR HF IH]; intros [|i] Hi;
    try discriminate.
  - injection Hi as <-. now exists y.
  - now apply IH.
Qed.

Lemma voxel_place_compress_Forall2 {A B} (P : A -> B -> Prop) (zero : B)
  (data : volume A) (mask : volume bool) (outs : list B)
  (x y z : nat) (b : bool) (row : A) :
  shape mask = shape data ->
  length (voxels mask) = length (voxels data) ->
  well_shaped data ->
  Forall2 P (Np.compress (voxels mask) (voxels data)) outs ->
  voxel mask x y z = Some b ->
  voxel data x y z = Some row ->
  exists o,
    voxel (Volume (shape data)
             (Np.place (voxels mask) (repeat zero (size3 (shape data))) outs))
          x y z
    = Some o
    /\ if b then P row o else o = zero.
Proof.
  intros Hs Hl Hw HF Hb Hrow. unfold well_shaped in Hw.
  rewrite <- Hw.
  pose proof (place_compress_Forall2 zero _ _ Hl HF) as HF2.
  unfold voxel in *. cbn [shape voxels]. rewrite Hs in Hb.
  destruct (in_shape (shape data) x y z); [|discriminate].
  destruct (@Forall2_nth_error_l _ _ _ _ _ (ravel (shape data) x y z)
              (b, row) HF2) as (o & Ho & HP).
  { now apply nth_error_combine. }
  exists o. split; [exact Ho | exact HP].
Qed.

Section Voxelwise.
Local Open Scope float_scope.
Variable np : F.kernels.
Variable cpu : Z.
Hypothesis cpu_pos : (0 < cpu)%Z.

(** fit_gamma, voxel by voxel: the returned array has the spatial shape of
    the data; a voxel inside the mask whose row has a nonzero entry holds
    what a call of gamma_data2fit on its row returned, every other voxel
    holds four zeros. *)
Theorem fit_gamma_voxelwise
  (gamma_data2fit : nat -> nat -> list float -> list float)
  (data : volume (list float)) (nbr : option Z) (h : heap) :
  mask_fits data h ->
  well_shaped data ->
  exists (mask : volume bool) (fit_array : volume (list float)),
    mask_or_derived np data h = (Ok mask, h)
    /\ fit_gamma np cpu gamma_data2fit data nbr h = (Ok fit_array, h)
    /\ shape fit_array = shape data
    /\ well_shaped fit_array
    /\ forall x y z b row,
         voxel mask x y z = Some b ->
         voxel data x y z = Some row ->
         exists o,
           voxel fit_array x y z = Some o
           /\ if b && F.any row
              then exists chunk_id i, o = gamma_data2fit chunk_id i row
              else o = [0; 0; 0; 0].
Proof.
  intros Hfits Hw.
  destruct (fit_gamma_result np cpu_pos gamma_data2fit data nbr h Hfits)
    as (mask & outs & Hm & Houts & E).
  destruct (mask_or_derived_fits np data h Hfits) as (m & Hm2 & Hs & Hl).
  rewrite Hm in Hm2. injection Hm2 as <-.
  eexists mask, _. split; [exact Hm|]. split; [exact E|].
  split; [reflexivity|]. split.
  - unfold well_shaped. cbn [shape voxels]. now rewrite place_length, repeat_length.
  - intros x y z b row Hb Hrow.
    destruct (@voxel_place_compress_Forall2 _ _ _ (repeat 0 4) data mask outs
                x y z b row Hs Hl Hw Houts Hb Hrow) as (o & Ho & HP).
    exists o. split; [exact Ho|].
    destruct b; cbn [andb]; [|exact HP].
    destruct (F.any row); exact HP.
Qed.

End Voxelwise.

Lemma fit_gamma_voxelwise_witness :
  exists (fit_array : volume (list float)),
    fit_gamma F.sequential 2 (fun _ _ row => map (fun x => x + 1) row)%float
              (Volume (1, 1, 2) [[3; 4; 0; 0]; [0; 0; 0; 0]]%float) None
              (Heap None [])
    = (Ok fit_array, Heap None [])
    /\ voxel fit_array 0 0 0 = Some [4; 5; 1; 1]%float
    /\ voxel fit_array 0 0 1 = Some [0; 0; 0; 0]%float.
Proof.
  destruct (@fit_gamma_voxelwise F.sequential 2 ltac:(lia)
              (fun _ _ row => map (fun x => x + 1) row)%float
              (Volume (1, 1, 2) [[3; 4; 0; 0]; [0; 0; 0; 0]]%float) None
              (Heap None []) I eq_refl)
    as (mask & r & Hm & E & _ & _ & H).
  exists r. split; [exact E|].
  injection Hm as <-. split.
  - destruct (H 0 0 0 true [3; 4; 0; 0]%float eq_refl eq_refl)
      as (o & Ho & c & i & ->).
    exact Ho.
  - destruct (H 0 0 1 false [0; 0; 0; 0]%float eq_refl eq_refl)
      as (o & Ho & ->).
    exact Ho.
Defined.

Lemma voxel_same_extent {A B} (data : volume A) (mask : volume B)
  (x y z : nat) (row : A) :
  shape mask = shape data ->
  length (voxels mask) = length (voxels data) ->
  voxel data x y z = Some row ->
  exists b, voxel mask x y z = Some b.
Proof.
  intros Hs Hl Hrow. unfold voxel in *. rewrite Hs.
  destruct (in_shape (shape data) x y z); [|discriminate].
  destruct (nth_error (voxels mask) (ravel (shape data) x y z)) as [b|] eqn:E.
  - now exists b.
  - apply nth_error_None in E.
    assert (ravel (shape data) x y z < length (voxels data))
      by (apply nth_error_Some; congruence).
    lia.
Qed.

(** The mask fit_from_model works on lies inside the derived mask. *)
Lemma fit_from_model_mask_voxel (np : F.kernels) (data : volume (list float))
  (h h' : heap)
  (mask : volume bool) (x y z : nat) (row : list float) :
  mask_fits data h ->
  fit_from_model_mask np data h = (Ok mask, h') ->
  voxel data x y z = Some row ->
  exists b,
    voxel mask x y z = Some b
    /\ (b = true -> F.truthy (F.np_sum np row) = true).
Proof.
  unfold mask_fits, fit_from_model_mask, bind, get_mask, ret, imul_mask.
  intros Hfits Hm Hrow.
  destruct (mask_obj h) as [user|] eqn:E.
  - destruct Hfits as [Hs Hl].
    cbn [shape sum_axis3_astype_bool] in Hm.
    rewrite E in Hm.
    replace (shape_eqb (shape user) (shape data)) with true in Hm
      by (symmetry; now apply shape_eqb_eq).
    injection Hm as <- _.
    destruct (voxel_same_extent data user x y z Hs Hl Hrow) as (bu & Hbu).
    exists (bu && F.truthy (F.np_sum np row)). split.
    + destruct user as [su lu], data as [sd ld]. cbn [shape voxels] in *.
      subst su. unfold voxel in *. cbn [shape voxels sum_axis3_astype_bool] in *.
      destruct (in_shape sd x y z); [|discriminate].
      change (bu && F.truthy (F.np_sum np row))
        with ((fun p => fst p && snd p) (bu, F.truthy (F.np_sum np row))).
      apply map_nth_error. apply nth_error_combine; [exact Hbu|].
      exact (map_nth_error (fun row => F.truthy (F.np_sum np row)) _ _ Hrow).
    + intros Hb. now apply andb_true_iff in Hb.
  - injection Hm as <- _. exists (F.truthy (F.np_sum np row)). split; [|auto].
    destruct data as [sd ld]. unfold sum_axis3_astype_bool. cbn [shape voxels].
    now apply (voxel_map (fun row => F.truthy (F.np_sum np row))).
Qed.

Section Voxelwise2.
Local Open Scope float_scope.
Variable np : F.kernels.
Variable cpu : Z.
Hypothesis cpu_pos : (0 < cpu)%Z.

(** fit_from_model, voxel by voxel, when the sum numpy computes for a row of
    zeros is zero: every voxel of the mask it returns holds a fitted object
    (the fit of the voxel's row, or the NaN fit when the solver failed on
    that row), and every other voxel holds the integer 0; at a voxel of
    that mask the channel sum numpy computed is nonzero. Nothing is
    logged. *)
Theorem fit_from_model_voxelwise (Fit : Type)
  (model_fit : list float -> option Fit) (nan_fit : Fit)
  (data : volume (list float)) (nbr : option Z) (h : heap) :
  F.sums_zeros np ->
  mask_fits data h ->
  well_shaped data ->
  exists (r : MultiVoxelFit Fit) (h' : heap),
    fit_from_model np cpu model_fit nan_fit data nbr h = (Ok r, h')
    /\ log h' = log h
    /\ shape (fit_array r) = shape data
    /\ well_shaped (fit_array r)
    /\ forall x y z row,
         voxel data x y z = Some row ->
         exists b,
           voxel (fit_mask r) x y z = Some b
           /\ (b = true -> F.truthy (F.np_sum np row) = true)
           /\ voxel (fit_array r) x y z
              = Some (if b then
                        match model_fit row with
                        | Some fit => Obj fit
                        | None => Obj nan_fit
                        end
                      else Zero).
Proof.
  intros Hnp Hfits Hw.
  destruct (fit_from_model_result np cpu_pos model_fit nan_fit data nbr h Hfits)
    as (mask & h' & Hm & E).
  destruct (fit_from_model_mask_fits np data h Hfits)
    as (m & h2 & Hm2 & Hs & Hl & Hlog).
  rewrite Hm in Hm2. injection Hm2 as <- <-.
  eexists _, h'. split; [exact E|]. cbn [fit_array fit_mask].
  split; [exact Hlog|]. split; [reflexivity|]. split.
  - unfold well_shaped. cbn [shape voxels]. now rewrite place_length, repeat_length.
  - intros x y z row Hrow.
    destruct (fit_from_model_mask_voxel np data h x y z Hfits Hm Hrow)
      as (b & Hb & Hsum).
    exists b. split; [exact Hb|]. split; [exact Hsum|].
    erewrite voxel_place_compress by eassumption.
    destruct b; [|reflexivity].
    now rewrite (sum_nonzero_has_nonzero row Hnp (Hsum eq_refl)).
Qed.

(** convert_sh_basis, voxel by voxel: a voxel inside the mask holds what the
    two np.dot calls return, the first on its row and B_in, the second on
    that product and invB_out, or its own row when that row has no nonzero
    entry; a voxel outside the mask holds [ncoef] zeros. *)
Theorem convert_sh_basis_voxelwise (B_in invB_out : list (list float))
  (shm_coeff : volume (list float)) (ncoef : nat) (nbr : option Z) (h : heap) :
  mask_fits shm_coeff h ->
  well_shaped shm_coeff ->
  nbr <> Some 0%Z ->
  exists (mask : volume bool) (out : volume (list float)),
    mask_or_derived np shm_coeff h = (Ok mask, h)
    /\ convert_sh_basis np cpu B_in invB_out shm_coeff ncoef nbr h = (Ok out, h)
    /\ shape out = shape shm_coeff
    /\ well_shaped out
    /\ forall x y z b row,
         voxel mask x y z = Some b ->
         voxel shm_coeff x y z = Some row ->
         voxel out x y z
         = Some (if b then
                   if F.any row
                   then F.np_vec_mat np (F.np_vec_mat np row B_in) invB_out
                   else row
                 else repeat 0 ncoef).
Proof.
  intros Hfits Hw Hn0.
  destruct (convert_sh_basis_result np cpu_pos B_in invB_out shm_coeff ncoef h
              Hfits Hn0) as (mask & Hm & E).
  destruct (mask_or_derived_fits np shm_coeff h Hfits) as (m & Hm2 & Hs & Hl).
  rewrite Hm in Hm2. injection Hm2 as <-.
  eexists mask, _. split; [exact Hm|]. split; [exact E|].
  split; [reflexivity|]. split.
  - unfold well_shaped. cbn [shape voxels]. now rewrite place_length, repeat_length.
  - intros x y z b row Hb Hrow.
    now erewrite voxel_place_compress by eassumption.
Qed.

(** convert_sh_to_sf, voxel by voxel: a voxel inside the mask whose row has
    a nonzero entry holds, rounded to float32, what np.dot returns on its
    row and B_in (B_in rounded to float32 first when dtype is float32);
    every other voxel holds [n_vertices] zeros. *)
Theorem convert_sh_to_sf_voxelwise (as_float32 : float -> float)
  (B_in : list (list float)) (n_vertices : nat)
  (shm_coeff : volume (list float)) (dt : dtype) (K : Z) (h : heap) :
  mask_fits shm_coeff h ->
  well_shaped shm_coeff ->
  (0 < K)%Z ->
  exists (mask : volume bool) (sf_array : volume (list float)),
    mask_or_derived np shm_coeff h = (Ok mask, h)
    /\ convert_sh_to_sf np as_float32 B_in n_vertices shm_coeff dt K h
       = (Ok sf_array, h)
    /\ shape sf_array = shape shm_coeff
    /\ well_shaped sf_array
    /\ forall x y z b row,
         voxel mask x y z = Some b ->
         voxel shm_coeff x y z = Some row ->
         voxel sf_array x y z
         = Some (if b && F.any row
                 then map as_float32
                        (F.np_vec_mat np row
                           match dt with
                           | float32 => map (map as_float32) B_in
                           | float64 => B_in
                           end)
                 else repeat 0 n_vertices).
Proof.
  intros Hfits Hw HK.
  destruct (convert_sh_to_sf_result np as_float32 B_in n_vertices shm_coeff dt h
              Hfits HK) as (mask & Hm & E).
  destruct (mask_or_derived_fits np shm_coeff h Hfits) as (m & Hm2 & Hs & Hl).
  rewrite Hm in Hm2. injection Hm2 as <-.
  eexists mask, _. split; [exact Hm|]. split; [exact E|].
  split; [reflexivity|]. split.
  - unfold well_shaped. cbn [shape voxels]. now rewrite place_length, repeat_length.
  - intros x y z b row Hb Hrow.
    erewrite voxel_place_compress by eassumption.
    now destruct b, (F.any row).
Qed.
End Voxelwise2.

Lemma fit_from_model_voxelwise_witness :
  exists (r : MultiVoxelFit (list float)) (h' : heap),
    fit_from_model F.sequential 2
                   (fun row => if (hd 0 row <? 2)%float then Some row else None)
                   [] (Volume (1, 1, 3) [[1; 2]; [0; 0]; [3; 4]]%float) None
                   (Heap None [])
    = (Ok r, h')
    /\ voxels (fit_array r) = [Obj [1; 2]%float; Zero; Obj []].
Proof.
  destruct (@fit_from_model_voxelwise F.sequential 2 ltac:(lia) (list float)
              (fun row => if (hd 0 row <? 2)%float then Some row else None) []
              (Volume (1, 1, 3) [[1; 2]; [0; 0]; [3; 4]]%float) None
              (Heap None []) sequential_sums_zeros I eq_refl)
    as (r & h' & E & _).
  exists r, h'. split; [exact E|].
  vm_compute in E. injection E as <- _. reflexivity.
Defined.

Lemma convert_sh_basis_voxelwise_witness :
  exists out : volume (list float),
    convert_sh_basis F.sequential 2 [[2]]%float [[3]]%float
                     (Volume (1, 1, 2) [[1]; [0]]%float) 1 None (Heap None [])
    = (Ok out, Heap None [])
    /\ voxel out 0 0 0 = Some [6]%float
    /\ voxel out 0 0 1 = Some [0]%float.
Proof.
  destruct (@convert_sh_basis_voxelwise F.sequential 2 ltac:(lia) [[2]]%float [[3]]%float
              (Volume (1, 1, 2) [[1]; [0]]%float) 1 None (Heap None [])
              I eq_refl ltac:(discriminate))
    as (mask & out & Hm & E & _ & _ & H).
  exists out. split; [exact E|]. injection Hm as <-. split.
  - exact (H 0 0 0 true [1]%float eq_refl eq_refl).
  - exact (H 0 0 1 false [0]%float eq_refl eq_refl).
Defined.

Lemma convert_sh_to_sf_voxelwise_witness :
  exists sf_array : volume (list float),
    convert_sh_to_sf F.sequential (fun x => x) [[2; 4]]%float 2
                     (Volume (1, 1, 2) [[1]; [0]]%float) float64 3
                     (Heap None [])
    = (Ok sf_array, Heap None [])
    /\ voxel sf_array 0 0 0 = Some [2; 4]%float
    /\ voxel sf_array 0 0 1 = Some [0; 0]%float.
Proof.
  destruct (@convert_sh_to_sf_voxelwise F.sequential (fun x => x) [[2; 4]]%float 2
              (Volume (1, 1, 2) [[1]; [0]]%float) float64 3 (Heap None [])
              I eq_refl ltac:(lia))
    as (mask & out & Hm & E & _ & _ & H).
  exists out. split; [exact E|]. injection Hm as <-. split.
  - exact (H 0 0 0 true [1]%float eq_refl eq_refl).
  - exact (H 0 0 1 false [0]%float eq_refl eq_refl).
Defined.

(** ** Peaks *)

Section Peaks.
Local Open Scope float_scope.
Variable np : F.kernels.
Variable peak_directions : list float -> list (list float) * list float * list Z.
Variable B : list (list float).
Variable absolute_threshold : float.
Variable npeaks : nat.

Lemma peaks_of_zero_row (normalize_peaks : bool) (shm : list float) :
  F.any shm = false ->
  peaks_of_voxel np peak_directions B absolute_threshold npeaks normalize_peaks shm
  = (repeat (repeat 0 3) npeaks, repeat 0 npeaks, repeat (-1)%Z npeaks).
Proof. intros H. unfold peaks_of_voxel. now rewrite H. Qed.

(** One voxel of peaks_from_sh_parallel, when [peak_directions] returns as
    many directions and indices as peak values, the ODF being what np.dot
    returns on the row and B, thresholded: each of the three rows has
    [npeaks] entries; the first n = min(npeaks, number of peaks) indices are
    the first n indices found, in the order found, and the entries after
    them are -1; without normalisation the first n values are the first n
    peak values and the entries after them are 0. *)
Theorem peaks_of_voxel_rows (normalize_peaks : bool) (shm : list float) :
  (forall odf,
     length (fst (fst (peak_directions odf))) = length (snd (fst (peak_directions odf)))
     /\ length (snd (peak_directions odf)) = length (snd (fst (peak_directions odf)))) ->
  let out :=
    peaks_of_voxel np peak_directions B absolute_threshold npeaks normalize_peaks shm in
  let odf :=
    map (fun x => if x <? absolute_threshold then 0 else x)
        (F.np_vec_mat np shm B) in
  let found := peak_directions odf in
  let n := if F.any shm then Nat.min npeaks (length (snd (fst found))) else 0%nat in
  length (fst (fst out)) = npeaks
  /\ length (snd (fst out)) = npeaks
  /\ length (snd out) = npeaks
  /\ (F.any shm = true -> firstn n (snd out) = firstn n (snd found))
  /\ skipn n (snd out) = repeat (-1)%Z (npeaks - n)
  /\ skipn n (snd (fst out)) = repeat 0 (npeaks - n)
  /\ (F.any shm = true -> normalize_peaks = false ->
      firstn n (snd (fst out)) = firstn n (snd (fst found))).
Proof.
  intros Hpd out odf found n.
  assert (Hskip : forall (A : Type) (a : A) k,
             skipn k (repeat a npeaks) = repeat a (npeaks - k)).
  { intros A a k. revert k. induction npeaks as [|m IH]; intros [|k];
      try reflexivity. cbn [repeat skipn]. apply IH. }
  unfold out, n, peaks_of_voxel. clear out n.
  destruct (F.any shm) eqn:Hany.
  2:{ cbn [fst snd skipn]. rewrite !repeat_length.
      replace (npeaks - 0)%nat with npeaks by lia.
      repeat split; try reflexivity; discriminate. }
  fold odf. fold found.
  destruct (Hpd odf) as [Hd Hi]. fold found in Hd, Hi.
  destruct found as [[dirs peaks] ind]. cbn [fst snd] in *.
  set (n := Nat.min npeaks (length peaks)).
  assert (Hn1 : n <= npeaks) by apply Nat.le_min_l.
  assert (Hn2 : n <= length peaks) by apply Nat.le_min_r.
  assert (App : forall (A : Type) (l : list A) (a : A),
             n <= length l ->
             length (firstn n l ++ skipn n (repeat a npeaks)) = npeaks
             /\ firstn n (firstn n l ++ skipn n (repeat a npeaks)) = firstn n l
             /\ skipn n (firstn n l ++ skipn n (repeat a npeaks))
                = repeat a (npeaks - n)).
  { intros A l a Hl.
    assert (Hf : length (firstn n l) = n) by (rewrite length_firstn; lia).
    split; [|split].
    - rewrite length_app, Hf, length_skipn, repeat_length. lia.
    - rewrite firstn_app, Hf, Nat.sub_diag, firstn_O, app_nil_r.
      now rewrite firstn_firstn, Nat.min_id.
    - rewrite skipn_app, Hf, Nat.sub_diag. cbn [skipn].
      rewrite (skipn_all2 (firstn n l)) by lia. apply Hskip. }
  destruct (App _ dirs (repeat 0 3) ltac:(lia)) as (Ld & _ & _).
  destruct (App _ peaks 0 ltac:(lia)) as (Lp & Fp & Sp).
  destruct (App _ ind (-1)%Z ltac:(lia)) as (Li & Fi & Si).
  destruct (length peaks =? 0)%nat eqn:E0; cbn [negb].
  - apply Nat.eqb_eq in E0. assert (Hn0 : n = 0%nat) by lia.
    clearbody n. subst n.
    cbn [fst snd firstn skipn]. rewrite !repeat_length, Nat.sub_0_r.
    repeat split; reflexivity.
  - fold n. destruct normalize_peaks; cbn [fst snd].
    + rewrite Fp, Sp.
      split.
      { rewrite length_map, length_combine, Ld, length_app, length_map,
          length_firstn, repeat_length. lia. }
      split.
      { rewrite length_app, length_map, length_firstn, repeat_length. lia. }
      split; [exact Li|]. split; [intros _; exact Fi|]. split; [exact Si|].
      split; [|discriminate].
      rewrite skipn_app, length_map, length_firstn.
      replace (Nat.min n (length peaks)) with n by lia.
      rewrite Nat.sub_diag. cbn [skipn].
      rewrite skipn_all2 by (rewrite length_map, length_firstn; lia).
      reflexivity.
    + repeat split; auto.
Qed.
End Peaks.

Lemma peaks_of_voxel_rows_witness :
  length (snd (peaks_of_voxel F.sequential
                 three_peaks
                 [[1]]%float 0%float 2 false [1]%float))
  = 2
  /\ skipn 2 (snd (peaks_of_voxel F.sequential
                     three_peaks
                     [[1]]%float 0%float 2 false [1]%float))
     = [].
Proof.
  destruct (@peaks_of_voxel_rows F.sequential
              three_peaks
              [[1]]%float 0%float 2 false [1]%float
              (fun _ => conj eq_refl eq_refl))
    as (_ & _ & Hl & _ & Hs & _).
  split; [exact Hl | exact Hs].
Defined.

Section PeaksVolume.
Local Open Scope float_scope.
Variable np : F.kernels.
Variable cpu : Z.
Hypothesis cpu_pos : (0 < cpu)%Z.

(** peaks_from_sh, voxel by voxel: a voxel inside the mask holds the three
    rows computed from its coefficients, the indices converted to floats; a
    voxel outside the mask holds zeros in all three arrays. So the index
    array is -1 at a voxel of the mask without signal and 0 at a voxel
    outside the mask. *)
Theorem peaks_from_sh_voxelwise
  (peak_directions : list float -> list (list float) * list float * list Z)
  (B : list (list float)) (shm_coeff : volume (list float))
  (absolute_threshold : float) (normalize_peaks : bool) (npeaks : nat)
  (nbr : option Z) (h : heap) :
  mask_fits shm_coeff h ->
  well_shaped shm_coeff ->
  nbr <> Some 0%Z ->
  exists (mask : volume bool) (peak_dirs : volume (list (list float)))
         (peak_values peak_indices : volume (list float)),
    mask_or_derived np shm_coeff h = (Ok mask, h)
    /\ peaks_from_sh np cpu peak_directions B shm_coeff absolute_threshold
                     normalize_peaks npeaks nbr h
       = (Ok (peak_dirs, peak_values, peak_indices), h)
    /\ forall x y z b row,
         voxel mask x y z = Some b ->
         voxel shm_coeff x y z = Some row ->
         let out :=
           peaks_of_voxel np peak_directions B absolute_threshold npeaks
                          normalize_peaks row in
         voxel peak_dirs x y z
         = Some (if b then fst (fst out) else repeat (repeat 0 3) npeaks)
         /\ voxel peak_values x y z
            = Some (if b then snd (fst out) else repeat 0 npeaks)
         /\ voxel peak_indices x y z
            = Some (if b then map F.of_Z (snd out) else repeat 0 npeaks)
         /\ (b = true -> F.any row = false ->
             voxel peak_indices x y z = Some (repeat (-1) npeaks)).
Proof.
  intros Hfits Hw Hn0.
  destruct (peaks_from_sh_result np cpu_pos peak_directions B shm_coeff
              absolute_threshold normalize_peaks npeaks h Hfits Hn0)
    as (mask & Hm & E).
  destruct (mask_or_derived_fits np shm_coeff h Hfits) as (m & Hm2 & Hs & Hl).
  rewrite Hm in Hm2. injection Hm2 as <-.
  eexists mask, _, _, _. split; [exact Hm|]. split; [exact E|].
  intros x y z b row Hb Hrow out.
  assert (Hi : voxel
                 (Volume (shape shm_coeff)
                    (Np.place (voxels mask)
                       (repeat (repeat 0 npeaks) (size3 (shape shm_coeff)))
                       (map (fun row =>
                               map F.of_Z
                                 (snd (peaks_of_voxel np peak_directions B
                                         absolute_threshold npeaks
                                         normalize_peaks row)))
                            (Np.compress (voxels mask) (voxels shm_coeff)))))
                 x y z
               = Some (if b then map F.of_Z (snd out) else repeat 0 npeaks)).
  { now erewrite voxel_place_compress by eassumption. }
  split; [now erewrite voxel_place_compress by eassumption|].
  split; [now erewrite voxel_place_compress by eassumption|].
  split; [exact Hi|].
  intros -> Hany. rewrite Hi. unfold out.
  rewrite (peaks_of_zero_row _ _ _ _ _ _ _ Hany). cbn [snd].
  f_equal. clear. induction npeaks as [|n IH]; [reflexivity|].
  cbn [repeat map]. now rewrite IH.
Qed.
End PeaksVolume.

Lemma peaks_from_sh_voxelwise_witness :
  exists peak_dirs peak_values peak_indices,
    peaks_from_sh F.sequential 2 one_peak [[1]]%float
                  (Volume (1, 1, 2) [[1]; [0]]%float) 0%float false 2 None
                  (Heap (Some (Volume (1, 1, 2) [false; true])) [])
    = (Ok (peak_dirs, peak_values, peak_indices),
       Heap (Some (Volume (1, 1, 2) [false; true])) [])
    /\ voxel peak_indices 0 0 0 = Some [0; 0]%float
    /\ voxel peak_indices 0 0 1 = Some [-1; -1]%float.
Proof.
  destruct (@peaks_from_sh_voxelwise F.sequential 2 ltac:(lia)
              one_peak [[1]]%float
              (Volume (1, 1, 2) [[1]; [0]]%float) 0%float false 2 None
              (Heap (Some (Volume (1, 1, 2) [false; true])) [])
              (conj eq_refl eq_refl) eq_refl ltac:(discriminate))
    as (mask & d & v & i & Hm & E & H).
  exists d, v, i. split; [exact E|]. injection Hm as <-. split.
  - exact (proj1 (proj2 (proj2 (H 0 0 0 false [1]%float eq_refl eq_refl)))).
  - exact (proj2 (proj2 (proj2 (H 0 0 1 true [0]%float eq_refl eq_refl)))
             eq_refl eq_refl).
Defined.

(** ** Worker counts, errors and the heap *)

Section WorkerCounts.
Local Open Scope float_scope.
Variable np : F.kernels.
Variable cpu : Z.
Hypothesis cpu_pos : (0 < cpu)%Z.

(** The results of fit_from_model, convert_sh_basis, convert_sh_to_sf and
    peaks_from_sh, and the heap they leave, are the same for any two worker
    counts that np.array_split accepts. (fit_gamma is not among them: its
    fit starts from random parameters.) *)
Theorem results_independent_of_worker_count
  (Fit : Type) (model_fit : list float -> option Fit) (nan_fit : Fit)
  (peak_directions : list float -> list (list float) * list float * list Z)
  (as_float32 : float -> float)
  (B B_in invB_out : list (list float)) (absolute_threshold : float)
  (normalize_peaks : bool) (npeaks ncoef n_vertices : nat) (dt : dtype)
  (data : volume (list float)) (nbr nbr' : option Z) (K K' : Z) (h : heap) :
  mask_fits data h ->
  fit_from_model np cpu model_fit nan_fit data nbr h
  = fit_from_model np cpu model_fit nan_fit data nbr' h
  /\ (nbr <> Some 0%Z -> nbr' <> Some 0%Z ->
      convert_sh_basis np cpu B_in invB_out data ncoef nbr h
      = convert_sh_basis np cpu B_in invB_out data ncoef nbr' h
      /\ peaks_from_sh np cpu peak_directions B data absolute_threshold
                       normalize_peaks npeaks nbr h
         = peaks_from_sh np cpu peak_directions B data absolute_threshold
                         normalize_peaks npeaks nbr' h)
  /\ ((0 < K)%Z -> (0 < K')%Z ->
      convert_sh_to_sf np as_float32 B_in n_vertices data dt K h
      = convert_sh_to_sf np as_float32 B_in n_vertices data dt K' h).
Proof.
  intros Hfits. split; [|split].
  - destruct (fit_from_model_result np cpu_pos model_fit nan_fit data nbr h Hfits)
      as (m & h1 & Hm & ->).
    destruct (fit_from_model_result np cpu_pos model_fit nan_fit data nbr' h Hfits)
      as (m' & h2 & Hm' & ->).
    rewrite Hm in Hm'. now injection Hm' as <- <-.
  - intros Hn Hn'. split.
    + destruct (convert_sh_basis_result np cpu_pos B_in invB_out data ncoef h
                  Hfits Hn) as (m & Hm & ->).
      destruct (convert_sh_basis_result np cpu_pos B_in invB_out data ncoef h
                  Hfits Hn') as (m' & Hm' & ->).
      rewrite Hm in Hm'. now injection Hm' as <-.
    + destruct (peaks_from_sh_result np cpu_pos peak_directions B data
                  absolute_threshold normalize_peaks npeaks h Hfits Hn)
        as (m & Hm & ->).
      destruct (peaks_from_sh_result np cpu_pos peak_directions B data
                  absolute_threshold normalize_peaks npeaks h Hfits Hn')
        as (m' & Hm' & ->).
      rewrite Hm in Hm'. now injection Hm' as <-.
  - intros HK HK'.
    destruct (convert_sh_to_sf_result np as_float32 B_in n_vertices data dt h
                Hfits HK) as (m & Hm & ->).
    destruct (convert_sh_to_sf_result np as_float32 B_in n_vertices data dt h
                Hfits HK') as (m' & Hm' & ->).
    rewrite Hm in Hm'. now injection Hm' as <-.
Qed.
End WorkerCounts.

Lemma results_independent_of_worker_count_witness :
  fit_from_model F.sequential 4 (fun row => Some row) []
                 (Volume (1, 2, 2) [[1; 2]; [0; 0]; [3; 4]; [5; 6]]%float)
                 (Some 1%Z) (Heap None [])
  = fit_from_model F.sequential 4 (fun row => Some row) []
                   (Volume (1, 2, 2) [[1; 2]; [0; 0]; [3; 4]; [5; 6]]%float)
                   (Some 3%Z) (Heap None []).
Proof.
  exact (proj1
    (@results_independent_of_worker_count F.sequential 4 ltac:(lia)
       (list float) (fun row => Some row) []
       one_peak (fun x => x) [[1]]%float [[1]]%float [[1]]%float 0%float
       false 1 1 1 float64
       (Volume (1, 2, 2) [[1; 2]; [0; 0]; [3; 4]; [5; 6]]%float)
       (Some 1%Z) (Some 3%Z) 1%Z 1%Z (Heap None []) I)).
Defined.

Lemma leaves_heap_ret {A} (a : A) : leaves_heap (ret a).
Proof. intros h. reflexivity. Qed.

Lemma leaves_heap_lift {A} (r : result A) : leaves_heap (lift r).
Proof. intros h. reflexivity. Qed.

Lemma leaves_heap_bind {A B} (c : M A) (k : A -> M B) :
  leaves_heap c -> (forall a, leaves_heap (k a)) -> leaves_heap (bind c k).
Proof.
  intros Hc Hk h. unfold bind. specialize (Hc h).
  destruct (c h) as [[a|e] h1]; cbn [snd] in *; subst h1; [apply Hk | reflexivity].
Qed.

Lemma leaves_heap_mask_or_derived (np : F.kernels) (data : volume (list float)) :
  leaves_heap (mask_or_derived np data).
Proof.
  intros h. unfold mask_or_derived, bind, get_mask, ret.
  now destruct (mask_obj h).
Qed.

Lemma leaves_heap_masked_chunks {A} (step : M (volume bool)) (K : Z)
  (data : volume A) :
  leaves_heap step -> leaves_heap (masked_chunks step K data).
Proof.
  intros Hs. unfold masked_chunks.
  apply leaves_heap_bind; [exact Hs|]. intros mask.
  apply leaves_heap_bind; [apply leaves_heap_lift|]. intros [chunks cl].
  apply leaves_heap_ret.
Qed.

Lemma only_logs_of_leaves_heap {A} (c : M A) : leaves_heap c -> only_logs c.
Proof.
  intros H h. rewrite (H h). split; [reflexivity|]. exists []. symmetry. apply app_nil_r.
Qed.

Lemma only_logs_bind {A B} (c : M A) (k : A -> M B) :
  only_logs c -> (forall a, only_logs (k a)) -> only_logs (bind c k).
Proof.
  intros Hc Hk h. unfold bind. destruct (Hc h) as [Hm [l Hl]].
  destruct (c h) as [[a|e] h1]; cbn [snd] in *.
  - destruct (Hk a h1) as [Hm2 [l2 Hl2]].
    split; [congruence|]. exists (l ++ l2). now rewrite Hl2, Hl, app_assoc.
  - split; [exact Hm|]. now exists l.
Qed.

Lemma only_logs_warning (msg : string) : only_logs (logging_warning msg).
Proof. intros h. split; [reflexivity|]. now exists [msg]. Qed.

(** peaks_from_sh, convert_sh_basis, convert_sh_to_sf and fit_gamma leave
    the caller's mask and the logging output exactly as they were, whether
    they return or raise; maps_from_sh leaves the caller's mask as it was
    and can only append to the logging output. *)
Theorem operations_leave_the_mask (np : F.kernels)
  (cpu : Z) (gamma_data2fit : nat -> nat -> list float -> list float)
  (peak_directions : list float -> list (list float) * list float * list Z)
  (gfa : list float -> float) (as_float32 : float -> float)
  (B B_in invB_out vertices : list (list float))
  (absolute_threshold gfa_thr : float)
  (normalize_peaks : bool) (npeaks ncoef n_vertices : nat) (dt : dtype)
  (data : volume (list float)) (peak_dirs : volume (list (list float)))
  (peak_values peak_indices : volume (list float))
  (nbr : option Z) (K : Z) :
  leaves_heap (peaks_from_sh np cpu peak_directions B data absolute_threshold
                             normalize_peaks npeaks nbr)
  /\ leaves_heap (convert_sh_basis np cpu B_in invB_out data ncoef nbr)
  /\ leaves_heap (convert_sh_to_sf np as_float32 B_in n_vertices data dt K)
  /\ leaves_heap (fit_gamma np cpu gamma_data2fit data nbr)
  /\ only_logs (maps_from_sh np cpu gfa B vertices data peak_dirs peak_values
                             peak_indices npeaks gfa_thr nbr).
Proof.
  assert (Hc : forall K0 (d : volume (list float)),
             leaves_heap (masked_chunks (mask_or_derived np d) K0 d)).
  { intros. apply leaves_heap_masked_chunks, leaves_heap_mask_or_derived. }
  split; [|split; [|split; [|split]]].
  - unfold peaks_from_sh, peaks_from_sh_chunks.
    apply leaves_heap_bind; [apply Hc|]. intros [[mask chunks] cl].
    repeat (apply leaves_heap_bind; [apply leaves_heap_lift|]; intros ?).
    apply leaves_heap_ret.
  - unfold convert_sh_basis, convert_sh_basis_chunks.
    apply leaves_heap_bind; [apply Hc|]. intros [[mask chunks] cl].
    apply leaves_heap_lift.
  - unfold convert_sh_to_sf, convert_sh_to_sf_chunks.
    apply leaves_heap_bind; [apply Hc|]. intros [[mask chunks] cl].
    apply leaves_heap_lift.
  - unfold fit_gamma, fit_gamma_chunks.
    apply leaves_heap_bind; [apply Hc|]. intros [[mask chunks] cl].
    apply leaves_heap_lift.
  - unfold maps_from_sh, maps_from_sh_chunks.
    apply only_logs_bind; [apply only_logs_of_leaves_heap, Hc|].
    intros [[mask chunks] cl].
    do 3 (apply only_logs_bind;
          [apply only_logs_of_leaves_heap, leaves_heap_lift|]; intros [? ?]).
    destruct (all_time_maxima _) as [amo agm].
    do 6 (apply only_logs_bind;
          [apply only_logs_of_leaves_heap, leaves_heap_lift|]; intros ?).
    apply only_logs_bind.
    + destruct (afd_all_one _);
        [apply only_logs_warning | apply only_logs_of_leaves_heap, leaves_heap_ret].
    + intros _. apply only_logs_of_leaves_heap, leaves_heap_ret.
Qed.

(** ** What the operations raise *)

Lemma masked_chunks_other_shape {A} (step : M (volume bool)) (K : Z)
  (data : volume A) (h h' : heap) (mask : volume bool) :
  step h = (Ok mask, h') ->
  shape mask <> shape data ->
  masked_chunks step K data h = (Raise IndexError, h').
Proof.
  intros Hs Hne.
  unfold masked_chunks, bind, lift, split_masked, getitem_mask. rewrite Hs.
  destruct (shape_eqb (shape mask) (shape data)) eqn:E; [|reflexivity].
  apply shape_eqb_eq in E. contradiction.
Qed.

Lemma masked_chunks_no_sections {A} (step : M (volume bool)) (K : Z)
  (data : volume A) (h h' : heap) (mask : volume bool) :
  step h = (Ok mask, h') ->
  shape mask = shape data ->
  (K <= 0)%Z ->
  masked_chunks step K data h = (Raise ValueError, h').
Proof.
  intros Hs Hsh HK.
  unfold masked_chunks, bind, lift, split_masked, getitem_mask, Np.array_split.
  rewrite Hs, Hsh, shape_eqb_refl.
  replace (K <=? 0)%Z with true by (symmetry; now apply Z.leb_le).
  reflexivity.
Qed.

Section Raises.
Local Open Scope float_scope.
Variable np : F.kernels.
Variable cpu : Z.
Variable gamma_data2fit : nat -> nat -> list float -> list float.
Variable peak_directions : list float -> list (list float) * list float * list Z.
Variable gfa : list float -> float.
Variable as_float32 : float -> float.

(** A mask whose spatial shape is not the volume's makes peaks_from_sh,
    maps_from_sh, convert_sh_basis, convert_sh_to_sf and fit_gamma raise
    IndexError (at [data[mask]]), for every worker count, with nothing
    logged and the mask untouched. *)
Theorem mask_of_other_shape_raises_IndexError
  (B B_in invB_out vertices : list (list float))
  (absolute_threshold gfa_thr : float)
  (normalize_peaks : bool) (npeaks ncoef n_vertices : nat) (dt : dtype)
  (data : volume (list float)) (peak_dirs : volume (list (list float)))
  (peak_values peak_indices : volume (list float))
  (nbr : option Z) (K : Z) (h : heap) (user : volume bool) :
  mask_obj h = Some user ->
  shape user <> shape data ->
  peaks_from_sh np cpu peak_directions B data absolute_threshold
                normalize_peaks npeaks nbr h = (Raise IndexError, h)
  /\ maps_from_sh np cpu gfa B vertices data peak_dirs peak_values peak_indices
                  npeaks gfa_thr nbr h = (Raise IndexError, h)
  /\ convert_sh_basis np cpu B_in invB_out data ncoef nbr h = (Raise IndexError, h)
  /\ convert_sh_to_sf np as_float32 B_in n_vertices data dt K h
     = (Raise IndexError, h)
  /\ fit_gamma np cpu gamma_data2fit data nbr h = (Raise IndexError, h).
Proof.
  intros Hu Hne.
  pose proof (mask_or_derived_some np data h Hu) as Hm.
  assert (Hc : forall K0,
             masked_chunks (mask_or_derived np data) K0 data h = (Raise IndexError, h))
    by (intros K0; eapply masked_chunks_other_shape; eassumption).
  repeat split.
  - unfold peaks_from_sh, peaks_from_sh_chunks, bind at 1. now rewrite Hc.
  - unfold maps_from_sh, maps_from_sh_chunks, bind at 1. now rewrite Hc.
  - unfold convert_sh_basis, convert_sh_basis_chunks, bind at 1. now rewrite Hc.
  - unfold convert_sh_to_sf, convert_sh_to_sf_chunks, bind at 1. now rewrite Hc.
  - unfold fit_gamma, fit_gamma_chunks, bind at 1. now rewrite Hc.
Qed.

(** With a mask that fits (or none), a worker count of 0 makes
    peaks_from_sh, maps_from_sh (its peak arrays having the volume's
    spatial shape) and convert_sh_basis raise ValueError at np.array_split:
    only negative counts are replaced by cpu_count(). convert_sh_to_sf, which
    replaces nothing, raises it for every count below 1. The heap is left as
    it was. *)
Theorem no_workers_raises_ValueError
  (B B_in invB_out vertices : list (list float))
  (absolute_threshold gfa_thr : float)
  (normalize_peaks : bool) (npeaks ncoef n_vertices : nat) (dt : dtype)
  (data : volume (list float)) (peak_dirs : volume (list (list float)))
  (peak_values peak_indices : volume (list float)) (K : Z) (h : heap) :
  mask_fits data h ->
  shape peak_dirs = shape data ->
  shape peak_values = shape data ->
  shape peak_indices = shape data ->
  (K <= 0)%Z ->
  peaks_from_sh np cpu peak_directions B data absolute_threshold
                normalize_peaks npeaks (Some 0%Z) h = (Raise ValueError, h)
  /\ maps_from_sh np cpu gfa B vertices data peak_dirs peak_values peak_indices
                  npeaks gfa_thr (Some 0%Z) h = (Raise ValueError, h)
  /\ convert_sh_basis np cpu B_in invB_out data ncoef (Some 0%Z) h
     = (Raise ValueError, h)
  /\ convert_sh_to_sf np as_float32 B_in n_vertices data dt K h
     = (Raise ValueError, h).
Proof.
  intros Hfits _ _ _ HK.
  destruct (mask_or_derived_fits np data h Hfits) as (mask & Hm & Hs & _).
  assert (Hc : forall K0, (K0 <= 0)%Z ->
             masked_chunks (mask_or_derived np data) K0 data h = (Raise ValueError, h))
    by (intros K0 HK0; eapply masked_chunks_no_sections; eassumption).
  repeat split.
  - unfold peaks_from_sh, peaks_from_sh_chunks, bind at 1.
    now rewrite Hc by (cbn; lia).
  - unfold maps_from_sh, maps_from_sh_chunks, bind at 1.
    now rewrite Hc by (cbn; lia).
  - unfold convert_sh_basis, convert_sh_basis_chunks, bind at 1.
    now rewrite Hc by (cbn; lia).
  - unfold convert_sh_to_sf, convert_sh_to_sf_chunks, bind at 1.
    now rewrite Hc by exact HK.
Qed.

(** With no mask passed, and the sum numpy computes for a row of zeros being
    zero, every row a worker of any of the six operations receives has a
    nonzero entry: the workers' [.any()] test never fails then, and no
    voxel inside the derived mask keeps the default value for that
    reason. *)
Theorem derived_mask_rows_are_nonzero
  (data : volume (list float)) (nbr : option Z) (K : Z) (h h' : heap)
  (mask : volume bool) (chunks : list (list (list float))) (cl : list nat) :
  F.sums_zeros np ->
  mask_obj h = None ->
  fit_from_model_chunks np cpu data nbr h = (Ok (mask, chunks, cl), h')
  \/ peaks_from_sh_chunks np cpu data nbr h = (Ok (mask, chunks, cl), h')
  \/ maps_from_sh_chunks np cpu data nbr h = (Ok (mask, chunks, cl), h')
  \/ convert_sh_basis_chunks np cpu data nbr h = (Ok (mask, chunks, cl), h')
  \/ convert_sh_to_sf_chunks np data K h = (Ok (mask, chunks, cl), h')
  \/ fit_gamma_chunks np cpu data nbr h = (Ok (mask, chunks, cl), h') ->
  Forall (Forall (fun row => F.any row = true)) chunks.
Proof.
  intros Hnp Hn Hops.
  assert (Hd : mask_or_derived np data h = (Ok (sum_axis3_astype_bool np data), h))
    by now apply mask_or_derived_none.
  assert (Hf : fit_from_model_mask np data h
               = (Ok (sum_axis3_astype_bool np data), h))
    by (unfold fit_from_model_mask, bind, get_mask, ret; now rewrite Hn).
  assert (Hrows : Forall (fun row => F.any row = true)
                    (Np.compress (map (fun row => F.truthy (F.np_sum np row))
                                      (voxels data))
                                 (voxels data))).
  { generalize (voxels data) as l.
    induction l as [|row l IH]; cbn [map Np.compress]; [constructor|].
    destruct (F.truthy (F.np_sum np row)) eqn:E; [|exact IH].
    constructor; [now apply (sum_nonzero_has_nonzero row Hnp) | exact IH]. }
  assert (Hall : forall K0,
             masked_chunks (mask_or_derived np data) K0 data h
             = (Ok (mask, chunks, cl), h')
             \/ masked_chunks (fit_from_model_mask np data) K0 data h
                = (Ok (mask, chunks, cl), h') ->
             Forall (Forall (fun row => F.any row = true)) chunks).
  { intros K0 Hc.
    assert (Hsplit : Np.array_split
                       (Np.compress (voxels (sum_axis3_astype_bool np data))
                                    (voxels data)) K0 = Ok chunks).
    { destruct Hc as [Hc | Hc]; apply masked_chunks_inv in Hc as (Hstep & E & _).
      - rewrite Hd in Hstep. injection Hstep as <- <-. exact E.
      - rewrite Hf in Hstep. injection Hstep as <- <-. exact E. }
    destruct (array_split_lengths _ _ Hsplit) as (_ & _ & Hcat).
    cbn [sum_axis3_astype_bool voxels] in Hcat.
    rewrite <- Hcat in Hrows. clear - Hrows.
    induction chunks as [|c cs IH]; [constructor|].
    cbn [concat] in Hrows. apply Forall_app in Hrows as [H1 H2].
    constructor; [exact H1 | now apply IH]. }
  destruct Hops as [H | [H | [H | [H | [H | H]]]]];
    refine (Hall _ _); (left; exact H) || (right; exact H).
Qed.
End Raises.

Lemma mask_of_other_shape_raises_IndexError_witness :
  fit_gamma F.sequential 4 (fun _ _ row => row)
            (Volume (1, 1, 2) [[1; 2]; [3; 4]]%float) None
            (Heap (Some (Volume (1, 1, 1) [true])) [])
  = (Raise IndexError, Heap (Some (Volume (1, 1, 1) [true])) []).
Proof.
  refine (proj2 (proj2 (proj2 (proj2
    (@mask_of_other_shape_raises_IndexError F.sequential 4
       (fun _ _ row => row) one_peak (fun _ => 0%float)
       (fun x => x) [[1]]%float [[1]]%float [[1]]%float [[1; 0; 0]]%float
       0%float 0%float false 1 1 1 float64
       (Volume (1, 1, 2) [[1; 2]; [3; 4]]%float)
       (Volume (1, 1, 2) [[[1; 0; 0]]; [[1; 0; 0]]]%float)
       (Volume (1, 1, 2) [[1]; [1]]%float)
       (Volume (1, 1, 2) [[0]; [0]]%float)
       None 1%Z (Heap (Some (Volume (1, 1, 1) [true])) [])
       (Volume (1, 1, 1) [true]) eq_refl _))))).
  cbn. discriminate.
Defined.

Lemma no_workers_raises_ValueError_witness :
  convert_sh_basis F.sequential 4 [[1]]%float [[1]]%float
                   (Volume (1, 1, 2) [[1]; [3]]%float) 1 (Some 0%Z)
                   (Heap None [])
  = (Raise ValueError, Heap None []).
Proof.
  refine (proj1 (proj2 (proj2
    (@no_workers_raises_ValueError F.sequential 4 one_peak (fun _ => 0%float) (fun x => x)
       [[1]]%float [[1]]%float [[1]]%float [[1; 0; 0]]%float
       0%float 0%float false 1 1 1 float64
       (Volume (1, 1, 2) [[1]; [3]]%float)
       (Volume (1, 1, 2) [[[1; 0; 0]]; [[1; 0; 0]]]%float)
       (Volume (1, 1, 2) [[1]; [1]]%float)
       (Volume (1, 1, 2) [[0]; [0]]%float)
       0%Z (Heap None []) I eq_refl eq_refl eq_refl _)))).
  lia.
Defined.

Lemma derived_mask_rows_are_nonzero_witness :
  Forall (Forall (fun row => F.any row = true))
         [[[1; 2]; [3; -3; 1]]; [[5; 6]]]%float.
Proof.
  refine (@derived_mask_rows_are_nonzero F.sequential 4
            (Volume (1, 2, 2) [[1; 2]; [0; 0]; [3; -3; 1]; [5; 6]]%float)
            (Some 2%Z) 1%Z (Heap None []) (Heap None [])
            (Volume (1, 2, 2) [true; false; true; true])
            _ [0; 2; 3]%nat sequential_sums_zeros eq_refl _).
  do 5 right. vm_compute. reflexivity.
Defined.

(** ** maps_from_sh: what a chunk returns *)

Lemma setitem_at {A} (l t : list A) (x v : A) (i : nat) :
  i = length l -> setitem (l ++ x :: t) i v = l ++ v :: t.
Proof.
  intros ->. unfold setitem.
  rewrite firstn_app, firstn_all, Nat.sub_diag, firstn_O, app_nil_r.
  rewrite skipn_app, skipn_all2 by lia.
  replace (S (length l) - length l) with 1 by lia. reflexivity.
Qed.

Section MapsWorker.
Local Open Scope float_scope.
Variable np : F.kernels.
Variable gfa : list float -> float.
Variable B vertices : list (list float).
Variable gfa_thr : float.
Variable npeaks : nat.

Let step (st : maps_chunk) (r : nat * (list float * list float * list float)) : maps_chunk :=
  maps_of_voxel np gfa B vertices gfa_thr st (fst r)
                (fst (fst (snd r))) (snd (fst (snd r))) (snd (snd r)).

Let nufo' (v : (list float * list float * list float)) := nufo_of_voxel np gfa B gfa_thr (fst (fst v)) (snd v).
Let afd_max' (v : (list float * list float * list float)) :=
  afd_max_of_voxel np gfa B gfa_thr (fst (fst v)) (snd (fst v)) (snd v).
Let afd_sum' (v : (list float * list float * list float)) := afd_sum_of_voxel np gfa B gfa_thr (fst (fst v)) (snd v).
Let gfa' (v : (list float * list float * list float)) := gfa_of_voxel np gfa B (fst (fst v)).
Let rgb' (v : (list float * list float * list float)) := rgb_of_voxel np B vertices (fst (fst v)).

Let inv (n : nat) (done : list (list float * list float * list float)) (m : nat) (st : maps_chunk) : Prop :=
  nufo_map st = map nufo' done ++ repeat 0 m
  /\ afd_max st = map afd_max' done ++ repeat 0 m
  /\ afd_sum st = map afd_sum' done ++ repeat 0 m
  /\ rgb_map st = map rgb' done ++ repeat (repeat 0 3) m
  /\ gfa_map st = map gfa' done ++ repeat 0 m
  /\ qa_map st
     = match find (fun v => peaks_read np gfa B gfa_thr (fst (fst v)) (snd v))
                  (rev done) with
       | Some v =>
           QaRow (map (fun x => x - F.min (odf_of_voxel np B (fst (fst v))))
                      (snd (fst v)))
       | None => QaRows (repeat (repeat 0 npeaks) n)
       end.

Lemma maps_of_voxel_inv (n : nat) (done : list (list float * list float * list float)) (v : (list float * list float * list float))
  (m : nat) (st : maps_chunk) :
  inv n done (S m) st ->
  inv n (done ++ [v]) m (step st (length done, v)).
Proof.
  intros (Hn & Ha & Hs & Hr & Hg & Hq).
  destruct st as [nu am su rg gf qa mo gm]. cbn [nufo_map afd_max afd_sum
    rgb_map gfa_map qa_map] in *. subst nu am su rg gf qa.
  destruct v as [[shm pv] pi].
  unfold inv, step, maps_of_voxel, nufo', afd_max', afd_sum', gfa', rgb',
    nufo_of_voxel, afd_max_of_voxel, afd_sum_of_voxel, gfa_of_voxel,
    rgb_of_voxel, peaks_read.
  cbn [fst snd max_odf global_max nufo_map afd_max afd_sum rgb_map gfa_map qa_map].
  rewrite !map_app, rev_app_distr. cbn [map rev app find fst snd repeat].
  fold (odf_of_voxel np B shm). fold (peak_count pi).
  unfold peaks_read. cbn [fst snd].
  destruct (F.any shm) eqn:Eany; cbn [andb negb].
  2:{ cbn [nufo_map afd_max afd_sum rgb_map gfa_map qa_map].
      rewrite <- !app_assoc. cbn [app]. repeat split; reflexivity. }
  destruct (0 <? F.np_sum np (odf_of_voxel np B shm)) eqn:Esum;
    destruct (gfa (odf_of_voxel np B shm) <? gfa_thr) eqn:Egfa; cbn [negb andb];
    try destruct (peak_count pi =? 0)%nat eqn:Ecount; cbn [negb andb];
    cbn [nufo_map afd_max afd_sum rgb_map gfa_map qa_map];
    rewrite ?setitem_at by (now rewrite length_map);
    rewrite <- !app_assoc; cbn [app]; repeat split; reflexivity.
Qed.

Lemma maps_fold_inv (n : nat) (todo done : list (list float * list float * list float)) (st : maps_chunk) :
  inv n done (length todo) st ->
  inv n (done ++ todo) 0
      (fold_left step (combine (seq (length done) (length todo)) todo) st).
Proof.
  revert done st. induction todo as [|v todo IH]; intros done st H.
  - now rewrite app_nil_r.
  - cbn [length seq combine fold_left].
    replace (done ++ v :: todo) with ((done ++ [v]) ++ todo)
      by now rewrite <- app_assoc.
    replace (S (length done)) with (length (done ++ [v]))
      by (rewrite length_app; cbn; lia).
    apply IH. now apply maps_of_voxel_inv.
Qed.

Lemma maps_chunk_fields
  (shm_coeff peak_values peak_indices : list (list float)) (chunk_id : nat) :
  length peak_values = length shm_coeff ->
  length peak_indices = length shm_coeff ->
  let rows := combine (combine shm_coeff peak_values) peak_indices in
  let r := maps_from_sh_parallel np gfa B vertices gfa_thr npeaks
                                 shm_coeff peak_values peak_indices chunk_id in
  fst r = chunk_id
  /\ nufo_map (snd r)
     = map (fun v => nufo_of_voxel np gfa B gfa_thr (fst (fst v)) (snd v)) rows
  /\ afd_max (snd r)
     = map (fun v => afd_max_of_voxel np gfa B gfa_thr (fst (fst v)) (snd (fst v))
                                      (snd v)) rows
  /\ afd_sum (snd r)
     = map (fun v => afd_sum_of_voxel np gfa B gfa_thr (fst (fst v)) (snd v)) rows
  /\ rgb_map (snd r) = map (fun v => rgb_of_voxel np B vertices (fst (fst v))) rows
  /\ gfa_map (snd r) = map (fun v => gfa_of_voxel np gfa B (fst (fst v))) rows
  /\ qa_map (snd r) = qa_of_chunk np gfa B gfa_thr npeaks rows.
Proof.
  intros Hpv Hpi rows r.
  assert (Hlen : length rows = length shm_coeff)
    by (unfold rows; rewrite !length_combine; lia).
  split; [reflexivity|].
  unfold r, maps_from_sh_parallel. cbn [snd]. fold rows.
  clearbody rows. clear r.
  pose proof (@maps_fold_inv (length shm_coeff) rows []
                (MapsChunk (repeat 0 (length shm_coeff))
                           (repeat 0 (length shm_coeff))
                           (repeat 0 (length shm_coeff))
                           (repeat (repeat 0 3) (length shm_coeff))
                           (repeat 0 (length shm_coeff))
                           (QaRows (repeat (repeat 0 npeaks) (length shm_coeff)))
                           0 neg_infinity)) as H.
  cbn [length app] in H. rewrite Hlen in H.
  specialize (H ltac:(repeat split)).
  destruct H as (Hn & Ha & Hs & Hr & Hg & Hq).
  rewrite app_nil_r in Hn, Ha, Hs, Hr, Hg.
  repeat split; try assumption.
  unfold qa_of_chunk. now rewrite Hlen.
Qed.

(** What a call of maps_from_sh_parallel returns for a chunk whose three
    arrays have the same number of rows, those of [peak_values] and
    [peak_indices] having [npeaks] entries each: its chunk_id; in nufo_map, afd_max,
    afd_sum, gfa_map and rgb_map, at every index, a value computed from the
    rows of that voxel alone (zero unless the row has a nonzero entry, and,
    for the first three, unless its peaks are read); in qa_map not an array
    of rows but the one row of the last voxel of the chunk whose peaks were
    read, when there is one. *)
Theorem maps_from_sh_parallel_voxelwise
  (shm_coeff peak_values peak_indices : list (list float)) (chunk_id : nat) :
  length peak_values = length shm_coeff ->
  length peak_indices = length shm_coeff ->
  Forall (fun row => length row = npeaks) peak_values ->
  Forall (fun row => length row = npeaks) peak_indices ->
  let rows := combine (combine shm_coeff peak_values) peak_indices in
  let r := maps_from_sh_parallel np gfa B vertices gfa_thr npeaks
                                 shm_coeff peak_values peak_indices chunk_id in
  fst r = chunk_id
  /\ nufo_map (snd r)
     = map (fun v => nufo_of_voxel np gfa B gfa_thr (fst (fst v)) (snd v)) rows
  /\ afd_max (snd r)
     = map (fun v => afd_max_of_voxel np gfa B gfa_thr (fst (fst v)) (snd (fst v))
                                      (snd v)) rows
  /\ afd_sum (snd r)
     = map (fun v => afd_sum_of_voxel np gfa B gfa_thr (fst (fst v)) (snd v)) rows
  /\ rgb_map (snd r) = map (fun v => rgb_of_voxel np B vertices (fst (fst v))) rows
  /\ gfa_map (snd r) = map (fun v => gfa_of_voxel np gfa B (fst (fst v))) rows
  /\ qa_map (snd r) = qa_of_chunk np gfa B gfa_thr npeaks rows.
Proof.
  intros Hpv Hpi _ _ rows r.
  assert (Hlen : length rows = length shm_coeff)
    by (unfold rows; rewrite !length_combine; lia).
  split; [reflexivity|].
  unfold r, maps_from_sh_parallel. cbn [snd]. fold rows.
  clearbody rows. clear r.
  pose proof (@maps_fold_inv (length shm_coeff) rows []
                (MapsChunk (repeat 0 (length shm_coeff))
                           (repeat 0 (length shm_coeff))
                           (repeat 0 (length shm_coeff))
                           (repeat (repeat 0 3) (length shm_coeff))
                           (repeat 0 (length shm_coeff))
                           (QaRows (repeat (repeat 0 npeaks) (length shm_coeff)))
                           0 neg_infinity)) as H.
  cbn [length app] in H. rewrite Hlen in H.
  specialize (H ltac:(repeat split)).
  destruct H as (Hn & Ha & Hs & Hr & Hg & Hq).
  rewrite app_nil_r in Hn, Ha, Hs, Hr, Hg.
  repeat split; try assumption.
  unfold qa_of_chunk. now rewrite Hlen.
Qed.
End MapsWorker.

(** ** maps_from_sh: four arrays cut by one mask *)

Lemma compress_map {A B} (f : A -> B) (mask : list bool) (l : list A) :
  Np.compress mask (map f l) = map f (Np.compress mask l).
Proof.
  revert l. induction mask as [|m mask IH]; intros [|a l]; try reflexivity.
  cbn [map Np.compress]. destruct m; cbn [map]; now rewrite IH.
Qed.

Lemma slice_map {A B} (f : A -> B) (l : list A) (st en : nat) :
  Np.slice (map f l) st en = map f (Np.slice l st en).
Proof. unfold Np.slice. now rewrite skipn_map, firstn_map. Qed.

Lemma array_split_map {A B} (f : A -> B) (l : list A) (K : Z)
  (chunks : list (list A)) :
  Np.array_split l K = Ok chunks ->
  Np.array_split (map f l) K = Ok (map (map f) chunks).
Proof.
  unfold Np.array_split. destruct (K <=? 0)%Z; [discriminate|].
  intros [= <-]. rewrite length_map, map_map. f_equal.
  apply map_ext. intros i. apply slice_map.
Qed.

Lemma chunk_offsets_map {A B} (f : A -> B) (chunks : list (list A)) :
  Np.chunk_offsets (map (map f) chunks) = Np.chunk_offsets chunks.
Proof.
  unfold Np.chunk_offsets. rewrite map_map. do 2 f_equal.
  apply map_ext. intros c. apply length_map.
Qed.

Lemma map_fst_combine {A B} (l : list A) (s : list B) :
  length s = length l -> map fst (combine l s) = l.
Proof.
  revert s. induction l as [|a l IH]; intros [|b s] H; simpl in H;
    try discriminate; [reflexivity|].
  cbn [combine map fst]. f_equal. apply IH. lia.
Qed.

Lemma map_snd_combine {A B} (l : list A) (s : list B) :
  length s = length l -> map snd (combine l s) = s.
Proof.
  revert s. induction l as [|a l IH]; intros [|b s] H; simpl in H;
    try discriminate; [reflexivity|].
  cbn [combine map snd]. f_equal. apply IH. lia.
Qed.

Lemma combine_map_map {A B C} (f : A -> B) (g : A -> C) (l : list A) :
  combine (map f l) (map g l) = map (fun x => (f x, g x)) l.
Proof. induction l as [|a l IH]; [reflexivity|]. cbn. now rewrite IH. Qed.

Lemma combine_map_left {A B C} (f : A -> B) (l : list A) (s : list C) :
  combine (map f l) s = map (fun p => (f (fst p), snd p)) (combine l s).
Proof.
  revert s. induction l as [|a l IH]; intros [|c s]; try reflexivity.
  cbn. now rewrite IH.
Qed.

Lemma pool_map_ext {A B} (w w' : A -> nat -> B) (chunks : list A) :
  (forall c i, w c i = w' c i) -> pool_map w chunks = pool_map w' chunks.
Proof. intros H. unfold pool_map. apply map_ext. intros [c i]. apply H. Qed.

Lemma split_masked_map {A B} (f : A -> B) (data : volume A) (data' : volume B)
  (mask : volume bool) (K : Z) (chunks : list (list A)) :
  shape mask = shape data ->
  Np.array_split (Np.compress (voxels mask) (voxels data)) K = Ok chunks ->
  shape data' = shape data ->
  voxels data' = map f (voxels data) ->
  split_masked data' mask K = Ok (map (map f) chunks, Np.chunk_offsets chunks).
Proof.
  intros Hs E Hs' Hv. unfold split_masked, getitem_mask.
  rewrite Hs', Hs, shape_eqb_refl, Hv, compress_map.
  rewrite (array_split_map f _ _ E). now rewrite chunk_offsets_map.
Qed.

(** The loop of maps_from_sh over the chunk results, for [qa_map]: a chunk
    that returns an array of rows writes them, one that returns a single
    row has it broadcast to its rows. *)
Section ReassemblyQa.
Context {A : Type}.
Variable s : list A -> maps_chunk.
Variable chunks : list (list A).
Variable tmp0 : list (list float).
Hypothesis tmp0_length : length tmp0 = length (concat chunks).

Let g (c : list A) : list (list float) :=
  match qa_map (s c) with
  | QaRows rows => rows
  | QaRow row => repeat row (length c)
  end.

Hypothesis g_length : forall c, length (g c) = length c.

Lemma concat_firstn_le (n : nat) :
  length (concat (firstn n chunks)) <= length (concat chunks).
Proof.
  rewrite <- (firstn_skipn n chunks) at 2.
  rewrite concat_app, length_app. lia.
Qed.

Lemma reassemble_qa_prefix (n : nat) :
  n <= length chunks ->
  reassemble_qa (Np.chunk_offsets chunks)
                (pool_map (fun c i => (i, s c)) (firstn n chunks)) tmp0
  = reassemble (Np.chunk_offsets chunks)
               (pool_map (fun c i => (i, g c)) (firstn n chunks)) tmp0.
Proof.
  induction n as [|n IH]; intros Hn; [reflexivity|].
  rewrite (firstn_S_snoc chunks [] (n := n)) by lia.
  rewrite !pool_map_snoc. unfold reassemble_qa, reassemble in *.
  rewrite !fold_left_app, IH by lia. cbn [fold_left fst snd].
  set (c := nth n chunks []).
  assert (Hg : g c = match qa_map (s c) with
                     | QaRows rows => rows
                     | QaRow row => repeat row (length c)
                     end) by reflexivity.
  destruct (qa_map (s c)) as [rows|row]; rewrite Hg; [reflexivity|].
  unfold Np.slice_fill, Np.slice_assign. do 3 f_equal.
  pose proof (reassemble_prefix g g_length chunks tmp0 tmp0_length (n := n)
                ltac:(lia)) as Hp.
  unfold reassemble, Np.slice_assign in Hp. rewrite Hp. clear Hp.
  rewrite length_firstn, Nat.min_l by lia.
  unfold Np.chunk_offsets.
  rewrite !nth_cumsum_zero_cons by (rewrite length_map; lia).
  rewrite list_sum_firstn_S by (rewrite length_map; lia).
  rewrite !firstn_map, <- !length_concat.
  rewrite (nth_indep _ 0 (length (@nil A))) by (rewrite length_map; lia).
  rewrite map_nth. fold c.
  set (pre := firstn n chunks).
  assert (Hpre : length (concat (map g pre)) = length (concat pre)).
  { rewrite !length_concat, map_map. f_equal.
    apply map_ext. intros a. apply g_length. }
  assert (Hle : length (concat pre) + length c <= length tmp0).
  { rewrite tmp0_length.
    pose proof (concat_firstn_le (S n)) as H.
    rewrite (firstn_S_snoc chunks [] (n := n)) in H by lia.
    rewrite concat_app, length_app in H. cbn [concat] in H.
    rewrite app_nil_r in H. exact H. }
  rewrite length_slice.
  - lia.
  - rewrite length_app, length_skipn, Hpre. lia.
Qed.

Lemma reassemble_qa_all :
  reassemble_qa (Np.chunk_offsets chunks) (pool_map (fun c i => (i, s c)) chunks) tmp0
  = reassemble (Np.chunk_offsets chunks) (pool_map (fun c i => (i, g c)) chunks) tmp0.
Proof.
  pose proof (reassemble_qa_prefix (n := length chunks) (Nat.le_refl _)) as H.
  now rewrite firstn_all in H.
Qed.
End ReassemblyQa.

(** ** maps_from_sh: what the maps hold *)

Lemma bind_ok {A B} (c : M A) (k : A -> M B) (h h' : heap) (a : A) :
  c h = (Ok a, h') -> bind c k h = k a h'.
Proof. intros H. unfold bind. now rewrite H. Qed.

Lemma bind_lift_ok {A B} (r : result A) (k : A -> M B) (h : heap) (a : A) :
  r = Ok a -> bind (lift r) k h = k a h.
Proof. intros ->. reflexivity. Qed.

Section MapsVolume.
Local Open Scope float_scope.
Variable np : F.kernels.
Variable cpu : Z.
Hypothesis cpu_pos : (0 < cpu)%Z.
Variable gfa : list float -> float.
Variable B vertices : list (list float).
Variable gfa_thr : float.
Variable npeaks : nat.
Variable shm_coeff : volume (list float).
Variable peak_dirs : volume (list (list float)).
Variable peak_values peak_indices : volume (list float).
Hypothesis dirs_shape : shape peak_dirs = shape shm_coeff.
Hypothesis dirs_length : length (voxels peak_dirs) = length (voxels shm_coeff).
Hypothesis values_shape : shape peak_values = shape shm_coeff.
Hypothesis values_length : length (voxels peak_values) = length (voxels shm_coeff).
Hypothesis indices_shape : shape peak_indices = shape shm_coeff.
Hypothesis indices_length : length (voxels peak_indices) = length (voxels shm_coeff).

(** The four arrays as one, voxel by voxel. *)
Let zipped : volume (list float * list (list float) * list float * list float) :=
  Volume (shape shm_coeff)
         (combine (combine (combine (voxels shm_coeff) (voxels peak_dirs))
                           (voxels peak_values))
                  (voxels peak_indices)).

Let sh (v : list float * list (list float) * list float * list float) :=
  fst (fst (fst v)).
Let pd (v : list float * list (list float) * list float * list float) :=
  snd (fst (fst v)).
Let pv (v : list float * list (list float) * list float * list float) :=
  snd (fst v).
Let pi (v : list float * list (list float) * list float * list float) :=
  snd v.

Lemma zipped_length : length (voxels zipped) = length (voxels shm_coeff).
Proof. unfold zipped. cbn [voxels]. rewrite !length_combine. lia. Qed.

Lemma zipped_sh : voxels shm_coeff = map sh (voxels zipped).
Proof.
  unfold zipped, sh. cbn [voxels].
  rewrite <- (map_map (fun v => fst (fst v)) fst), <- (map_map fst fst).
  rewrite !map_fst_combine; rewrite ?length_combine; try lia. reflexivity.
Qed.

Lemma zipped_pd : voxels peak_dirs = map pd (voxels zipped).
Proof.
  unfold zipped, pd. cbn [voxels].
  rewrite <- (map_map (fun v => fst (fst v)) snd), <- (map_map fst fst).
  rewrite !map_fst_combine, map_snd_combine; rewrite ?length_combine; try lia.
  reflexivity.
Qed.

Lemma zipped_pv : voxels peak_values = map pv (voxels zipped).
Proof.
  unfold zipped, pv. cbn [voxels].
  rewrite <- (map_map fst snd).
  rewrite !map_fst_combine, map_snd_combine; rewrite ?length_combine; try lia.
  reflexivity.
Qed.

Lemma zipped_pi : voxels peak_indices = map pi (voxels zipped).
Proof.
  unfold zipped, pi. cbn [voxels].
  rewrite map_snd_combine; rewrite ?length_combine; try lia.
  reflexivity.
Qed.

(** The state a worker returns for a chunk of zipped rows. *)
Let st (c : list (list float * list (list float) * list float * list float))
  : maps_chunk :=
  snd (maps_from_sh_parallel np gfa B vertices gfa_thr npeaks
                             (map sh c) (map pv c) (map pi c) 0).

Lemma st_fields (c : list (list float * list (list float) * list float * list float)) :
  nufo_map (st c) = map (fun v => nufo_of_voxel np gfa B gfa_thr (sh v) (pi v)) c
  /\ afd_max (st c)
     = map (fun v => afd_max_of_voxel np gfa B gfa_thr (sh v) (pv v) (pi v)) c
  /\ afd_sum (st c) = map (fun v => afd_sum_of_voxel np gfa B gfa_thr (sh v) (pi v)) c
  /\ rgb_map (st c) = map (fun v => rgb_of_voxel np B vertices (sh v)) c
  /\ gfa_map (st c) = map (fun v => gfa_of_voxel np gfa B (sh v)) c
  /\ length (match qa_map (st c) with
             | QaRows rows => rows
             | QaRow row => repeat row (length c)
             end) = length c.
Proof.
  destruct (@maps_chunk_fields np gfa B vertices gfa_thr npeaks
              (map sh c) (map pv c) (map pi c) 0)
    as (_ & Hn & Ha & Hs & Hr & Hg & Hq); [now rewrite !length_map ..|].
  fold (st c) in Hn, Ha, Hs, Hr, Hg, Hq.
  rewrite !combine_map_map in Hn, Ha, Hs, Hr, Hg, Hq.
  rewrite map_map in Hn, Ha, Hs, Hr, Hg.
  repeat split; try assumption.
  rewrite Hq. unfold qa_of_chunk.
  destruct (find _ _); now rewrite repeat_length, ?length_map.
Qed.

Lemma maps_from_sh_result (nbr : option Z) (h : heap) :
  mask_fits shm_coeff h ->
  nbr <> Some 0%Z ->
  let V {T} (f : list float * list (list float) * list float * list float -> T)
        (zero : T) (mask : volume bool) :=
    Volume (shape shm_coeff)
           (Np.place (voxels mask) (repeat zero (size3 (shape shm_coeff)))
                     (map f (Np.compress (voxels mask) (voxels zipped)))) in
  exists mask d qa h',
    mask_or_derived np shm_coeff h = (Ok mask, h)
    /\ maps_from_sh np cpu gfa B vertices shm_coeff peak_dirs peak_values
                    peak_indices npeaks gfa_thr nbr h
       = (Ok (Maps
                (V (fun v => nufo_of_voxel np gfa B gfa_thr (sh v) (pi v)) 0 mask)
                (V (fun v => afd_max_of_voxel np gfa B gfa_thr (sh v) (pv v) (pi v))
                   0 mask)
                (V (fun v => afd_sum_of_voxel np gfa B gfa_thr (sh v) (pi v)) 0 mask)
                (imul_rows
                   (idiv_rows (V (fun v => rgb_of_voxel np B vertices (sh v))
                                 (repeat 0 3) mask) d)
                   255)
                (V (fun v => gfa_of_voxel np gfa B (sh v)) 0 mask)
                qa),
          h')
    /\ mask_obj h' = mask_obj h.
Proof.
  intros Hfits Hn0 V.
  destruct (mask_or_derived_fits np shm_coeff h Hfits) as (mask & Hm & Hs & Hl).
  pose proof (cpu_count_if_none_or_lt0_pos cpu_pos Hn0) as HK.
  set (K := cpu_count_if_none_or_lt0 cpu nbr) in *.
  pose proof (array_split_ok (Np.compress (voxels mask) (voxels zipped)) HK) as Ez.
  set (zc := map _ (seq 0 (Z.to_nat K))) in Ez. clearbody zc.
  assert (Hsz : shape mask = shape zipped) by exact Hs.
  assert (Hlz : length (voxels mask) = length (voxels zipped))
    by now rewrite zipped_length.
  pose proof (split_masked_map sh zipped shm_coeff mask K Hsz Ez eq_refl zipped_sh)
    as Hsh.
  pose proof (split_masked_map pd zipped peak_dirs mask K Hsz Ez dirs_shape zipped_pd)
    as Hpd.
  pose proof (split_masked_map pv zipped peak_values mask K Hsz Ez values_shape
                               zipped_pv) as Hpv.
  pose proof (split_masked_map pi zipped peak_indices mask K Hsz Ez indices_shape
                               zipped_pi) as Hpi.
  assert (Hchunks : masked_chunks (mask_or_derived np shm_coeff) K shm_coeff h
                    = (Ok (mask, map (map sh) zc, Np.chunk_offsets zc), h)).
  { unfold masked_chunks. erewrite bind_ok by exact Hm.
    erewrite bind_lift_ok by exact Hsh. reflexivity. }
  exists mask.
  unfold maps_from_sh, maps_from_sh_chunks. fold K.
  erewrite bind_ok by exact Hchunks. cbv beta iota zeta.
  erewrite bind_lift_ok by exact Hpd. cbv beta iota zeta.
  erewrite bind_lift_ok by exact Hpv. cbv beta iota zeta.
  erewrite bind_lift_ok by exact Hpi. cbv beta iota zeta.
  match goal with
  | |- context [all_time_maxima ?r] =>
      assert (Hr : r = pool_map (fun c i => (i, st c)) zc)
  end.
  { rewrite !combine_map_map, combine_map_left, map_map, length_map.
    unfold pool_map. apply map_ext. intros [c i]. reflexivity. }
  rewrite Hr. clear Hr.
  destruct (all_time_maxima _) as [d d']. exists d.
  rewrite !map_pool_map. cbn [fst snd].
  assert (Hset : forall (T : Type)
                   (g : list (list float * list (list float) * list float * list float)
                        -> list T)
                   (f : list float * list (list float) * list float * list float -> T)
                   (zero zero' : T),
             (forall c, g c = map f c) ->
             setitem_mask (zeros (shape shm_coeff) zero) mask
               (reassemble (Np.chunk_offsets zc) (pool_map (fun c i => (i, g c)) zc)
                           (repeat zero' (Np.count_nonzero (voxels mask))))
             = Ok (V T f zero mask)).
  { intros T g f zero zero' Hg.
    pose proof (@scatter_reassembled _ _ zipped mask K zc g zero zero' Hsz Hlz Ez)
      as Hsc.
    change (shape zipped) with (shape shm_coeff) in Hsc.
    rewrite Hsc by (intros c; now rewrite Hg, length_map).
    rewrite (concat_map_by f g zc Hg).
    destruct (array_split_lengths _ _ Ez) as (_ & _ & ->). reflexivity. }
  assert (Hcount : length (repeat (repeat 0 npeaks) (Np.count_nonzero (voxels mask)))
                   = length (concat zc)).
  { destruct (array_split_lengths _ _ Ez) as (_ & _ & ->).
    rewrite repeat_length. symmetry. now apply compress_length. }
  assert (Hqa_len : forall c,
             length (match qa_map (st c) with
                     | QaRows rows => rows
                     | QaRow row => repeat row (length c)
                     end) = length c)
    by (intros c; apply (st_fields c)).
  rewrite (reassemble_qa_all st zc _ Hcount Hqa_len).
  pose proof (@scatter_reassembled _ _ zipped mask K zc _ (repeat 0 npeaks)
                (repeat 0 npeaks) Hsz Hlz Ez Hqa_len) as Hqa.
  change (shape zipped) with (shape shm_coeff) in Hqa.
  destruct (afd_all_one
              (V float (fun v => afd_max_of_voxel np gfa B gfa_thr (sh v) (pv v) (pi v))
                 0 mask)) eqn:Eafd;
    (eexists _, _; split; [exact Hm|]; split;
     [ erewrite bind_lift_ok
         by (apply (Hset _ (fun c => nufo_map (st c))
                      (fun v => nufo_of_voxel np gfa B gfa_thr (sh v) (pi v)));
             intros c; apply (st_fields c));
       erewrite bind_lift_ok
         by (apply (Hset _ (fun c => afd_max (st c))
                      (fun v => afd_max_of_voxel np gfa B gfa_thr (sh v) (pv v) (pi v)));
             intros c; apply (st_fields c));
       erewrite bind_lift_ok
         by (apply (Hset _ (fun c => afd_sum (st c))
                      (fun v => afd_sum_of_voxel np gfa B gfa_thr (sh v) (pi v)));
             intros c; apply (st_fields c));
       erewrite bind_lift_ok
         by (apply (Hset _ (fun c => rgb_map (st c))
                      (fun v => rgb_of_voxel np B vertices (sh v)));
             intros c; apply (st_fields c));
       erewrite bind_lift_ok
         by (apply (Hset _ (fun c => gfa_map (st c))
                      (fun v => gfa_of_voxel np gfa B (sh v)));
             intros c; apply (st_fields c));
       erewrite bind_lift_ok by exact Hqa;
       rewrite Eafd; reflexivity
     | reflexivity ]).
Qed.

Lemma voxel_zipped (x y z : nat) (s v i : list float) :
  voxel shm_coeff x y z = Some s ->
  voxel peak_values x y z = Some v ->
  voxel peak_indices x y z = Some i ->
  exists d0, voxel zipped x y z = Some (s, d0, v, i).
Proof.
  intros H1 H3 H4.
  destruct (@voxel_same_extent _ _ shm_coeff peak_dirs x y z s dirs_shape
              dirs_length H1) as [d0 H2].
  exists d0. unfold voxel in *. unfold zipped. cbn [shape voxels].
  rewrite dirs_shape in H2. rewrite values_shape in H3.
  rewrite indices_shape in H4.
  destruct (in_shape (shape shm_coeff) x y z); [|discriminate].
  now repeat apply nth_error_combine.
Qed.

(** maps_from_sh, voxel by voxel, for arrays of one spatial extent, the peak
    arrays holding [npeaks] peaks at every voxel, and a worker count that
    np.array_split accepts: it returns, leaving the
    caller's mask as it was; in the nufo, afd_max, afd_sum and gfa maps a
    voxel inside the mask holds a value computed from its own rows alone
    and a voxel outside holds 0, whatever the number of chunks; the rgb map
    holds the voxel's own rgb row divided by one number common to all
    voxels, times 255. *)
Theorem maps_from_sh_voxelwise (nbr : option Z) (h : heap) :
  mask_fits shm_coeff h ->
  nbr <> Some 0%Z ->
  well_shaped shm_coeff ->
  Forall (fun dirs => length dirs = npeaks) (voxels peak_dirs) ->
  Forall (fun row => length row = npeaks) (voxels peak_values) ->
  Forall (fun row => length row = npeaks) (voxels peak_indices) ->
  exists (mask : volume bool) (m : maps) (h' : heap) (d : float),
    mask_or_derived np shm_coeff h = (Ok mask, h)
    /\ maps_from_sh np cpu gfa B vertices shm_coeff peak_dirs peak_values
                    peak_indices npeaks gfa_thr nbr h = (Ok m, h')
    /\ mask_obj h' = mask_obj h
    /\ forall x y z b s v i,
         voxel mask x y z = Some b ->
         voxel shm_coeff x y z = Some s ->
         voxel peak_values x y z = Some v ->
         voxel peak_indices x y z = Some i ->
         voxel (nufo_map_array m) x y z
         = Some (if b then nufo_of_voxel np gfa B gfa_thr s i else 0)
         /\ voxel (afd_max_array m) x y z
            = Some (if b then afd_max_of_voxel np gfa B gfa_thr s v i else 0)
         /\ voxel (afd_sum_array m) x y z
            = Some (if b then afd_sum_of_voxel np gfa B gfa_thr s i else 0)
         /\ voxel (gfa_map_array m) x y z
            = Some (if b then gfa_of_voxel np gfa B s else 0)
         /\ voxel (rgb_map_array m) x y z
            = Some (map (fun c => c * 255)
                      (map (fun c => c / d)
                         (if b then rgb_of_voxel np B vertices s else [0; 0; 0]))).
Proof.
  intros Hfits Hn0 Hw _ _ _.
  destruct (@maps_from_sh_result nbr h Hfits Hn0) as (mask & d & qa & h' & Hm & E & Hh).
  destruct (mask_or_derived_fits np shm_coeff h Hfits) as (m0 & Hm0 & Hs & Hl).
  rewrite Hm in Hm0. injection Hm0 as <-.
  assert (Hsz : shape mask = shape zipped) by exact Hs.
  assert (Hlz : length (voxels mask) = length (voxels zipped))
    by now rewrite zipped_length.
  assert (Hwz : well_shaped zipped).
  { unfold well_shaped. rewrite zipped_length. exact Hw. }
  eexists mask, _, h', d. split; [exact Hm|]. split; [exact E|].
  split; [exact Hh|].
  intros x y z b s v i Hb H1 H3 H4.
  destruct (voxel_zipped x y z H1 H3 H4) as [d0 Hz].
  cbn [nufo_map_array afd_max_array afd_sum_array gfa_map_array rgb_map_array].
  repeat split.
  - exact (@voxel_place_compress _ _ _ 0 zipped mask x y z b _ Hsz Hlz Hwz Hb Hz).
  - exact (@voxel_place_compress _ _ _ 0 zipped mask x y z b _ Hsz Hlz Hwz Hb Hz).
  - exact (@voxel_place_compress _ _ _ 0 zipped mask x y z b _ Hsz Hlz Hwz Hb Hz).
  - exact (@voxel_place_compress _ _ _ 0 zipped mask x y z b _ Hsz Hlz Hwz Hb Hz).
  - unfold imul_rows, idiv_rows. cbn [shape voxels].
    apply voxel_map. apply voxel_map.
    exact (@voxel_place_compress _ _ (fun v => rgb_of_voxel np B vertices (sh v))
                                 (repeat 0 3) zipped mask x y z b _
                                 Hsz Hlz Hwz Hb Hz).
Qed.

End MapsVolume.

Lemma maps_from_sh_parallel_voxelwise_witness :
  let r := maps_from_sh_parallel F.sequential (fun _ => 0.5%float) [[1]]%float
             [[1; 0; 0]]%float 0%float 1
             [[8]; [2]]%float [[4]; [1]]%float [[0]; [0]]%float 0 in
  nufo_map (snd r) = [1; 1]%float
  /\ afd_max (snd r) = [4; 1]%float
  /\ qa_map (snd r) = QaRow [-1]%float.
Proof.
  pose proof (@maps_from_sh_parallel_voxelwise F.sequential
                (fun _ => 0.5%float) [[1]]%float
                [[1; 0; 0]]%float 0%float 1
                [[8]; [2]]%float [[4]; [1]]%float [[0]; [0]]%float 0
                eq_refl eq_refl ltac:(repeat constructor)
                ltac:(repeat constructor)) as H.
  cbv zeta in H. destruct H as (_ & Hn & Ha & _ & _ & _ & Hq).
  intros r. unfold r. rewrite Hn, Ha, Hq. repeat split.
Defined.

Lemma maps_from_sh_voxelwise_witness :
  exists (m : maps) (h' : heap),
    maps_from_sh F.sequential 8 (fun _ => 0.5%float) [[1]]%float
      [[1; 0; 0]]%float
      (Volume (1, 1, 2) [[8]; [2]]%float)
      (Volume (1, 1, 2) [[[1; 0; 0]]; [[1; 0; 0]]]%float)
      (Volume (1, 1, 2) [[4]; [1]]%float)
      (Volume (1, 1, 2) [[0]; [0]]%float)
      1 0%float (Some 2%Z) (Heap None []) = (Ok m, h')
    /\ voxel (nufo_map_array m) 0 0 0 = Some 1%float
    /\ voxel (afd_max_array m) 0 0 1 = Some 1%float
    /\ voxel (gfa_map_array m) 0 0 1 = Some 0.5%float.
Proof.
  destruct (@maps_from_sh_voxelwise F.sequential 8 ltac:(lia)
              (fun _ => 0.5%float)
              [[1]]%float [[1; 0; 0]]%float 0%float 1
              (Volume (1, 1, 2) [[8]; [2]]%float)
              (Volume (1, 1, 2) [[[1; 0; 0]]; [[1; 0; 0]]]%float)
              (Volume (1, 1, 2) [[4]; [1]]%float)
              (Volume (1, 1, 2) [[0]; [0]]%float)
              eq_refl eq_refl eq_refl eq_refl eq_refl eq_refl
              (Some 2%Z) (Heap None []) I ltac:(discriminate) eq_refl
              ltac:(repeat constructor) ltac:(repeat constructor)
              ltac:(repeat constructor))
    as (mask & m & h' & d & Hm & E & _ & H).
  exists m, h'. split; [exact E|].
  injection Hm as <-.
  destruct (H 0 0 0 true [8]%float [4]%float [0]%float
              eq_refl eq_refl eq_refl eq_refl) as (Hn & _).
  destruct (H 0 0 1 true [2]%float [1]%float [0]%float
              eq_refl eq_refl eq_refl eq_refl) as (_ & Ha & _ & Hg & _).
  rewrite Hn, Ha, Hg. repeat split.
Defined.

(** ** Seeds, one after the other *)

Section SeedRuns.
Variable rng : Type.
Variable RandomState : Z -> rng.
Variable next_double : rng -> float * rng.
Variable shuffle : list nat -> rng -> list nat * rng.

Lemma get_next_pos_run (self : SeedGenerator) (indices : list nat)
  (k a : nat) (g : rng) :
  seeds self <> [] ->
  fold_left (fun g w => snd (get_next_pos next_double self g indices w))
            (seq a k) g
  = snd (draws next_double (k * 3) g).
Proof.
  intros Hs. revert a g. induction k as [|k IH]; intros a g; [reflexivity|].
  cbn [seq fold_left]. rewrite IH, get_next_pos_draws_three by exact Hs.
  change (S k * 3) with (3 + k * 3). now rewrite draws_add.
Qed.

Lemma skip_random_numbers_negative (n : Z) (g : rng) :
  (n < 0)%Z -> skip_random_numbers next_double n g = Raise ValueError.
Proof.
  funelim (skip_random_numbers next_double n g); intros Hn;
    try (exfalso; clear - l Hn; lia);
    unfold random_sample in Heq;
    destruct (Z.ltb_spec n 0) as [_|Hge]; try (exfalso; clear - Hn Hge; lia);
    congruence.
Qed.

Lemma skip_seeds_negative (n : Z) (g : rng) :
  (n < 0)%Z -> skip_seeds next_double n g = Raise ValueError.
Proof.
  funelim (skip_seeds next_double n g); intros Hn;
    try (exfalso; clear - l Hn; lia);
    unfold rand, random_sample in Heq;
    destruct (Z.ltb_spec n 0) as [_|Hge]; try (exfalso; clear - Hn Hge; lia);
    congruence.
Qed.

(** With at least one seed voxel, the generator that init_generator returns
    for the chunk that starts at seed number k is the generator of the run
    from seed number 0 after k calls of get_next_pos, with the same indices:
    each call consumes the three doubles the skip-ahead counts for a seed. *)
Theorem chunk_generator_is_sequential_generator (self : SeedGenerator)
  (seed : Z) (k : nat) :
  seeds self <> [] ->
  exists (g0 : rng) (indices : list nat),
    init_generator RandomState next_double shuffle self seed 0 = Ok (g0, indices)
    /\ init_generator RandomState next_double shuffle self seed (Z.of_nat k)
       = Ok (fold_left
               (fun g w => snd (get_next_pos next_double self g indices w))
               (seq 0 k) g0,
             indices).
Proof.
  intros Hs. unfold init_generator.
  destruct (shuffle (seq 0 (length (seeds self))) (RandomState seed))
    as [indices g0].
  exists g0, indices.
  rewrite !skip_random_numbers_discards by lia.
  rewrite get_next_pos_run by exact Hs.
  split; [reflexivity|].
  now replace (Z.to_nat (Z.of_nat k * 3)) with (k * 3) by lia.
Qed.

(** A negative chunk offset makes init_generator raise ValueError: the loop
    is skipped and the generator is asked for a negative number of doubles.
    init_pos raises ValueError in the same way when np.asscalar returns the
    offset, and raises what np.asscalar raises when it does not. *)
Theorem negative_offset_raises_ValueError (asscalar : Z -> result Z)
  (self : SeedGenerator) (n_seeds : nat) (seed o : Z) :
  (o < 0)%Z ->
  init_generator RandomState next_double shuffle self seed o = Raise ValueError
  /\ (asscalar o = Ok o ->
      init_pos RandomState next_double shuffle asscalar n_seeds seed o
      = Raise ValueError)
  /\ (forall e, asscalar o = Raise e ->
                init_pos RandomState next_double shuffle asscalar n_seeds seed o
                = Raise e).
Proof.
  intros Ho. unfold init_generator, init_pos.
  destruct (shuffle (seq 0 (length (seeds self))) (RandomState seed)) as [i1 g1].
  destruct (shuffle (seq 0 n_seeds) (RandomState seed)) as [i2 g2].
  rewrite skip_random_numbers_negative by lia.
  split; [reflexivity|]. split.
  - intros ->. now rewrite skip_seeds_negative by lia.
  - now intros e ->.
Qed.

(** Seed numbers wrap around the seed voxels: from the same generator state
    and with the same indices, seed number k + len(self.seeds) gets the
    position of seed number k and leaves the same generator. *)
Theorem get_next_pos_wraps_around (self : SeedGenerator) (g : rng)
  (indices : list nat) (k : nat) :
  get_next_pos next_double self g indices (k + length (seeds self))
  = get_next_pos next_double self g indices k.
Proof.
  unfold get_next_pos.
  destruct (length (seeds self) =? 0); [reflexivity|].
  replace (k + length (seeds self)) with (k + 1 * length (seeds self)) by lia.
  now rewrite Nat.Div0.mod_add.
Qed.
End SeedRuns.

Lemma chunk_generator_is_sequential_generator_witness :
  exists (g0 : Z) (indices : list nat),
    init_generator (fun seed => seed) lcg_next lcg_shuffle
                   {| pixdim := (1, 1, 1)%float;
                      seeds := [(0.5, 0.5, 0.5); (1.5, 0.5, 0.5)]%float |}
                   42 5
    = Ok (fold_left
            (fun g w =>
               snd (get_next_pos lcg_next
                      {| pixdim := (1, 1, 1)%float;
                         seeds := [(0.5, 0.5, 0.5); (1.5, 0.5, 0.5)]%float |}
                      g indices w))
            (seq 0 5) g0,
          indices).
Proof.
  destruct (@chunk_generator_is_sequential_generator Z (fun seed => seed)
              lcg_next lcg_shuffle
              {| pixdim := (1, 1, 1)%float;
                 seeds := [(0.5, 0.5, 0.5); (1.5, 0.5, 0.5)]%float |}
              42%Z 5 ltac:(discriminate))
    as (g0 & indices & _ & H).
  exists g0, indices. exact H.
Defined.

Lemma negative_offset_raises_ValueError_witness :
  init_pos (fun seed => seed) lcg_next lcg_shuffle (fun n => Ok n) 2 42 (-1)
  = Raise ValueError
  /\ init_pos (fun seed => seed) lcg_next lcg_shuffle
              (fun _ => Raise AttributeError) 2 42 (-1)
     = Raise AttributeError.
Proof.
  split.
  - exact (proj1 (proj2
      (@negative_offset_raises_ValueError Z (fun seed => seed) lcg_next
         lcg_shuffle (fun n => Ok n)
         {| pixdim := (1, 1, 1)%float; seeds := [] |}
         2 42%Z (-1)%Z ltac:(lia))) eq_refl).
  - exact (proj2 (proj2
      (@negative_offset_raises_ValueError Z (fun seed => seed) lcg_next
         lcg_shuffle (fun _ => Raise AttributeError)
         {| pixdim := (1, 1, 1)%float; seeds := [] |}
         2 42%Z (-1)%Z ltac:(lia))) AttributeError eq_refl).
Defined.

(** ** The seeds of a seeding mask *)

Lemma unravel_ravel (s : nat * nat * nat) (x y z : nat) :
  in_shape s x y z = true -> unravel s (ravel s x y z) = (x, y, z).
Proof.
  destruct s as [[X Y] Zd]. unfold in_shape, unravel, ravel.
  rewrite !andb_true_iff, !Nat.ltb_lt. intros [[Hx Hy] Hz].
  assert (E1 : ((x * Y + y) * Zd + z) / Zd = x * Y + y)
    by (symmetry; apply Nat.div_unique with z; [exact Hz | lia]).
  assert (E2 : ((x * Y + y) * Zd + z) mod Zd = z)
    by (symmetry; apply Nat.mod_unique with (x * Y + y); [exact Hz | lia]).
  assert (E3 : (x * Y + y) mod Y = y)
    by (symmetry; apply Nat.mod_unique with x; [exact Hy | lia]).
  assert (E4 : ((x * Y + y) * Zd + z) / (Y * Zd) = x).
  { symmetry. apply Nat.div_unique with (y * Zd + z); [nia | lia]. }
  now rewrite E1, E2, E3, E4.
Qed.

Lemma ravel_unravel (s : nat * nat * nat) (i : nat) :
  i < size3 s ->
  in_shape s (fst (fst (unravel s i))) (snd (fst (unravel s i)))
           (snd (unravel s i)) = true
  /\ ravel s (fst (fst (unravel s i))) (snd (fst (unravel s i)))
           (snd (unravel s i)) = i.
Proof.
  destruct s as [[X Y] Zd]. unfold in_shape, unravel, ravel, size3.
  cbn [fst snd]. intros Hi.
  assert (HZ : 0 < Zd) by nia. assert (HY : 0 < Y) by nia.
  pose proof (Nat.div_mod_eq i Zd) as D1.
  pose proof (Nat.mod_upper_bound i Zd ltac:(lia)) as B1.
  pose proof (Nat.div_mod_eq (i / Zd) Y) as D2.
  pose proof (Nat.mod_upper_bound (i / Zd) Y ltac:(lia)) as B2.
  assert (E : i / (Y * Zd) = i / Zd / Y)
    by (rewrite (Nat.mul_comm Y Zd); symmetry; apply Nat.Div0.div_div).
  rewrite E.
  assert (Hq : i / Zd < X * Y)
    by (apply Nat.Div0.div_lt_upper_bound; lia).
  assert (Ha : i / Zd / Y < X)
    by (apply Nat.Div0.div_lt_upper_bound; lia).
  set (q := i / Zd) in *. set (r := i mod Zd) in *.
  set (a := q / Y) in *. set (b := q mod Y) in *.
  split.
  - rewrite !andb_true_iff, !Nat.ltb_lt. repeat split; assumption.
  - clearbody q r a b. subst i q. lia.
Qed.

Lemma in_combine_seq {A} (l : list A) (a i : nat) (v : A) :
  In (i, v) (combine (seq a (length l)) l)
  <-> a <= i /\ nth_error l (i - a) = Some v.
Proof.
  revert a. induction l as [|x l IH]; intros a.
  - cbn. split; [tauto|]. intros [_ H]. now destruct (i - a).
  - cbn [length seq combine In]. rewrite IH. split.
    + intros [[= <- <-] | [Ha Hn]].
      * split; [lia|]. now rewrite Nat.sub_diag.
      * split; [lia|]. replace (i - a) with (S (i - S a)) by lia. exact Hn.
    + intros [Ha Hn]. destruct (Nat.eq_dec a i) as [<-|Hne].
      * left. rewrite Nat.sub_diag in Hn. cbn in Hn. congruence.
      * right. split; [lia|].
        replace (i - a) with (S (i - S a)) in Hn by lia. exact Hn.
Qed.

Lemma where_positive_voxels (data : volume float) (x y z : nat) :
  well_shaped data ->
  In (x, y, z) (where_positive data)
  <-> exists v, voxel data x y z = Some v /\ (0 <? v)%float = true.
Proof.
  intros Hw. unfold where_positive, well_shaped in *.
  rewrite in_map_iff. split.
  - intros ([i v] & Hc & Hin). cbn [fst] in Hc.
    apply filter_In in Hin as [Hin Hv]. cbn [snd] in Hv.
    apply in_combine_seq in Hin as [_ Hn]. rewrite Nat.sub_0_r in Hn.
    assert (Hi : i < size3 (shape data))
      by (rewrite <- Hw; apply nth_error_Some; congruence).
    destruct (ravel_unravel (shape data) Hi) as [Hs Hr].
    rewrite Hc in Hs, Hr. cbn [fst snd] in Hs, Hr.
    exists v. split; [|exact Hv]. unfold voxel. now rewrite Hs, Hr.
  - intros (v & Hvox & Hv). unfold voxel in Hvox.
    destruct (in_shape (shape data) x y z) eqn:Hs; [|discriminate].
    exists (ravel (shape data) x y z, v). cbn [fst]. split.
    + now apply unravel_ravel.
    + apply filter_In. split; [|exact Hv].
      apply in_combine_seq. rewrite Nat.sub_0_r. split; [lia | exact Hvox].
Qed.

(** SeedGenerator.__init__ on a 3-D image with no axis of length one (which
    np.squeeze would drop): the seeds are the centres
    (x + 0.5, y + 0.5, z + 0.5) of the voxels whose value is above 0 (a NaN
    voxel is none), one seed per such voxel; the warning is logged exactly
    when there is no such voxel, and then get_next_pos returns the empty
    list without drawing from the generator. *)
Theorem SeedGenerator_init_seeds (img : image) :
  well_shaped (fdata img) ->
  fst (fst (shape (fdata img))) <> 1
  /\ snd (fst (shape (fdata img))) <> 1
  /\ snd (shape (fdata img)) <> 1 ->
  let self := fst (SeedGenerator_init img) in
  let warnings := snd (SeedGenerator_init img) in
  let centre (x y z : nat) :=
    (F.of_nat x + 0.5, F.of_nat y + 0.5, F.of_nat z + 0.5)%float in
  let positive (x y z : nat) :=
    exists v, voxel (fdata img) x y z = Some v /\ (0 <? v)%float = true in
  pixdim self = zooms img
  /\ (forall x y z, positive x y z -> In (centre x y z) (seeds self))
  /\ (forall s, In s (seeds self) ->
                exists x y z, positive x y z /\ s = centre x y z)
  /\ length (seeds self)
     = length (filter (fun v => (0 <? v)%float) (voxels (fdata img)))
  /\ (warnings = [] <-> exists x y z, positive x y z)
  /\ (warnings <> [] ->
      warnings = ["There are positive voxels in the seeding mask!"%string]
      /\ forall (rng : Type) (next_double : rng -> float * rng) (g : rng)
                (indices : list nat) (which_seed : nat),
           get_next_pos next_double self g indices which_seed = (None, g)).
Proof.
  intros Hw _ self warnings centre positive.
  set (cs := seeds self).
  assert (Hcs : cs = map (fun c : nat * nat * nat =>
                            let '(x, y, z) := c in centre x y z)
                         (where_positive (fdata img))).
  { unfold cs, self, SeedGenerator_init. cbv zeta.
    match goal with |- context [if ?b then _ else _] => destruct b end;
      reflexivity. }
  assert (Hself : self = {| pixdim := zooms img; seeds := cs |}).
  { unfold cs, self, SeedGenerator_init. cbv zeta.
    match goal with |- context [if ?b then _ else _] => destruct b end;
      reflexivity. }
  assert (Hwarn : warnings
                  = if length cs =? 0
                    then ["There are positive voxels in the seeding mask!"%string]
                    else []).
  { unfold cs, self, warnings, SeedGenerator_init. cbv zeta.
    match goal with |- context [if ?b then _ else _] => destruct b eqn:E end;
      cbn [fst snd seeds]; now rewrite E. }
  clearbody cs.
  assert (Hin : forall x y z, positive x y z -> In (centre x y z) cs).
  { intros x y z Hp. apply (@where_positive_voxels _ x y z Hw) in Hp.
    rewrite Hcs. apply in_map_iff. now exists (x, y, z). }
  assert (Hout : forall s, In s cs -> exists x y z, positive x y z /\ s = centre x y z).
  { intros s Hs. rewrite Hcs in Hs.
    apply in_map_iff in Hs as ([[x y] z] & <- & Hc).
    exists x, y, z. split; [|reflexivity].
    now apply (@where_positive_voxels _ x y z Hw). }
  rewrite Hself, Hwarn. cbn [pixdim seeds].
  split; [reflexivity|]. split; [exact Hin|]. split; [exact Hout|]. split.
  { rewrite Hcs. unfold where_positive. rewrite !length_map.
    generalize 0 as a. generalize (voxels (fdata img)) as l.
    induction l as [|v l IH]; intros a; [reflexivity|].
    cbn [length seq combine filter snd].
    destruct (0 <? v)%float; cbn [length]; now rewrite IH. }
  split.
  - clear Hcs. destruct cs as [|c cs']; cbn [length Nat.eqb].
    + split; [discriminate|]. intros (x & y & z & Hp).
      destruct (Hin x y z Hp).
    + split; [intros _ | reflexivity].
      destruct (Hout c (or_introl eq_refl)) as (x & y & z & Hp & _).
      now exists x, y, z.
  - clear Hcs. destruct cs as [|c cs']; cbn [length Nat.eqb]; [|congruence].
    intros _. split; reflexivity.
Qed.

Lemma SeedGenerator_init_seeds_witness :
  In (0.5, 1.5, 1.5)%float
     (seeds (fst (SeedGenerator_init
                    (Image (2, 2, 2)%float
                           (Volume (2, 2, 2) [0; 1; nan; 3; 0; 0; 0; 0]%float)))))
  /\ length (seeds (fst (SeedGenerator_init
                           (Image (2, 2, 2)%float
                                  (Volume (2, 2, 2)
                                          [0; 1; nan; 3; 0; 0; 0; 0]%float)))))
     = 2.
Proof.
  pose proof (@SeedGenerator_init_seeds
                (Image (2, 2, 2)%float
                       (Volume (2, 2, 2) [0; 1; nan; 3; 0; 0; 0; 0]%float))
                eq_refl ltac:(cbn; lia)) as H.
  cbv zeta in H. destruct H as (_ & Hin & _ & Hlen & _).
  split.
  - exact (Hin 0 1 1 (ex_intro _ 3%float (conj eq_refl eq_refl))).
  - exact Hlen.
Defined.

(** ** Voxel access: clamping twice, and empty axes *)

Lemma getitem_ok_in {A} (arr : list A) (i : Z) (a : A) :
  TrackableDataset.getitem arr i = Ok a -> In a arr.
Proof.
  unfold TrackableDataset.getitem.
  destruct ((0 <=? _) && (_ <? _))%Z; [|discriminate].
  destruct (nth_error arr _) as [b|] eqn:E; [|discriminate].
  intros [= <-]. now apply nth_error_In in E.
Qed.

Lemma getitem_raises_IndexError {A} (arr : list A) (i : Z) (e : exn) :
  TrackableDataset.getitem arr i = Raise e -> e = IndexError.
Proof.
  unfold TrackableDataset.getitem.
  destruct ((0 <=? _) && (_ <? _))%Z; [|congruence].
  destruct (nth_error arr _); congruence.
Qed.

Lemma getitem_empty {A} (arr : list A) (i : Z) :
  length arr = 0 -> TrackableDataset.getitem arr i = Raise IndexError.
Proof.
  intros H. apply length_zero_iff_nil in H. subst arr.
  unfold TrackableDataset.getitem. cbn [length Z.of_nat].
  destruct (i <? 0)%Z eqn:E.
  - replace ((0 <=? i + 0) && (i + 0 <? 0))%Z with false; [reflexivity|].
    symmetry. apply andb_false_iff. left. apply Z.leb_gt.
    apply Z.ltb_lt in E. lia.
  - replace ((0 <=? i) && (i <? 0))%Z with false; [reflexivity|].
    symmetry. apply andb_false_iff. now right.
Qed.

Section VoxelClamping.
Import TrackableDataset.
Context {A : Type}.

(** getVoxelValue gives the same result, value or exception, at a triple
    and at the triple clamped componentwise to max(0, min(dim - 1, c)), for
    every dataset and every integer triple: clamping a second time changes
    nothing, also when an axis is empty. *)
Theorem getVoxelValue_at_clamped_triple (self : Dataset A) (x y z : Z) :
  let clamp (n c : Z) := Z.max 0 (Z.min (n - 1) c) in
  getVoxelValue self x y z
  = getVoxelValue self (clamp (fst (fst (dim self))) x)
                  (clamp (snd (fst (dim self))) y)
                  (clamp (snd (dim self)) z).
Proof.
  intros clamp. destruct self as [[[X Y] Zd] d].
  unfold getVoxelValue, isVoxelInBound. cbn [dim data fst snd].
  fold (clamp X x) (clamp Y y) (clamp Zd z).
  fold (clamp X (clamp X x)) (clamp Y (clamp Y y)) (clamp Zd (clamp Zd z)).
  assert (Hsame : forall a b c,
             ((a <? X) && (b <? Y) && (c <? Zd) && (a >=? 0) && (b >=? 0)
              && (c >=? 0))%Z = true ->
             clamp X a = a /\ clamp Y b = b /\ clamp Zd c = c).
  { intros a b c. rewrite !andb_true_iff, !Z.ltb_lt, !Z.geb_le.
    unfold clamp. lia. }
  assert (Hidem : forall n c, clamp n (clamp n c) = clamp n c)
    by (intros n c; unfold clamp; lia).
  destruct ((x <? X) && (y <? Y) && (z <? Zd) && (x >=? 0) && (y >=? 0)
            && (z >=? 0))%Z eqn:E1; cbn [negb].
  - destruct (Hsame x y z E1) as (-> & -> & ->). now rewrite E1.
  - destruct ((clamp X x <? X) && (clamp Y y <? Y) && (clamp Zd z <? Zd)
              && (clamp X x >=? 0) && (clamp Y y >=? 0)
              && (clamp Zd z >=? 0))%Z eqn:E2; cbn [negb]; [reflexivity|].
    now rewrite !Hidem.
Qed.

(** In a dataset with an empty axis, getVoxelValue raises IndexError at
    every integer triple: no coordinate is in bound and the clamped
    coordinate 0 of the empty axis is outside the array. *)
Theorem getVoxelValue_empty_axis (self : Dataset A) (x y z : Z) :
  has_shape self ->
  (fst (fst (dim self)) = 0 \/ snd (fst (dim self)) = 0 \/ snd (dim self) = 0)%Z ->
  getVoxelValue self x y z = Raise IndexError.
Proof.
  destruct self as [[[X Y] Zd] d].
  unfold has_shape, getVoxelValue. cbn [dim data fst snd].
  intros [HX Hplanes] Hempty.
  destruct (if negb _ then _ else _) as [[cx cy] cz].
  destruct (getitem d cx) as [plane|e] eqn:Ep.
  2:{ now rewrite (getitem_raises_IndexError _ _ Ep). }
  apply getitem_ok_in in Ep.
  pose proof (proj1 (Forall_forall _ _) Hplanes plane Ep) as [HY Hlines].
  destruct (getitem plane cy) as [line|e] eqn:El.
  2:{ now rewrite (getitem_raises_IndexError _ _ El). }
  apply getitem_ok_in in El.
  pose proof (proj1 (Forall_forall _ _) Hlines line El) as HZ. cbv beta in HZ.
  destruct Hempty as [H0 | [H0 | H0]].
  - destruct d; [destruct Ep | cbn [length] in HX; lia].
  - destruct plane; [destruct El | cbn [length] in HY; lia].
  - apply getitem_empty. lia.
Qed.
End VoxelClamping.

Lemma getVoxelValue_empty_axis_witness :
  TrackableDataset.getVoxelValue
    {| TrackableDataset.dim := (2, 0, 3)%Z;
       TrackableDataset.data := [[]; []] : list (list (list nat)) |} 1 0 2
  = Raise IndexError.
Proof.
  apply (@getVoxelValue_empty_axis nat
           {| TrackableDataset.dim := (2, 0, 3)%Z;
              TrackableDataset.data := [[]; []] |} 1%Z 0%Z 2%Z).
  - split; [reflexivity|]. repeat constructor.
  - right. left. reflexivity.
Defined.

(** ** The checks on input and output paths *)

Section PathChecks.
Import IoUtils.
Local Open Scope string_scope.
Variable isfile : string -> bool.

Lemma checks_in_order (check : string -> outcome) (required : list string)
  (optional : option (list (option string))) :
  match check_required check required with
  | Returns => check_optional check (or_empty optional)
  | ParserError message => ParserError message
  end
  = check_required check (checked_paths required optional).
Proof.
  unfold checked_paths. induction required as [|p required IH].
  - cbn [check_required app]. induction (or_empty optional) as [|[q|] l IHl].
    + reflexivity.
    + cbn [check_optional flat_map app check_required].
      now destruct (check q).
    + exact IHl.
  - cbn [check_required app]. now destruct (check p).
Qed.

Lemma check_required_returns (check : string -> outcome) (paths : list string) :
  check_required check paths = Returns
  <-> forall p, In p paths -> check p = Returns.
Proof.
  induction paths as [|q paths IH]; cbn [check_required In].
  - split; [intros _ p [] | reflexivity].
  - destruct (check q) eqn:E.
    + rewrite IH. split.
      * intros H p [<- | Hp]; [exact E | now apply H].
      * intros H p Hp. apply H. now right.
    + split; [discriminate|]. intros H.
      specialize (H q (or_introl eq_refl)). congruence.
Qed.

Lemma check_required_error (check : string -> outcome) (paths : list string)
  (message : string) :
  check_required check paths = ParserError message
  <-> exists pre p post,
        paths = (pre ++ p :: post)%list
        /\ (forall q, In q pre -> check q = Returns)
        /\ check p = ParserError message.
Proof.
  induction paths as [|q paths IH]; cbn [check_required].
  - split; [discriminate|]. intros (pre & p & post & E & _).
    now destruct pre.
  - destruct (check q) eqn:Eq.
    + rewrite IH. split.
      * intros (pre & p & post & -> & Hpre & Hp).
        exists (q :: pre), p, post. split; [reflexivity|]. split; [|exact Hp].
        intros r [<- | Hr]; [exact Eq | now apply Hpre].
      * intros (pre & p & post & E & Hpre & Hp).
        destruct pre as [|r pre]; cbn [app] in E; injection E as <- ->.
        -- congruence.
        -- exists pre, p, post. split; [reflexivity|]. split; [|exact Hp].
           intros s Hs. apply Hpre. now right.
    + split.
      * intros [= <-]. exists [], q, paths.
        split; [reflexivity|]. split; [intros r [] | exact Eq].
      * intros (pre & p & post & E & Hpre & Hp).
        destruct pre as [|r pre]; cbn [app] in E; injection E as <- ->.
        -- congruence.
        -- specialize (Hpre q (or_introl eq_refl)). congruence.
Qed.

(** assert_inputs_exist returns exactly when every required path and every
    optional path that is not None is a file; otherwise it calls
    parser.error once, naming the first path, in the order required then
    optional, that is not a file. *)
Theorem assert_inputs_exist_checks (required : list string)
  (optional : option (list (option string))) :
  (assert_inputs_exist isfile required optional = Returns
   <-> forall p, In p (checked_paths required optional) -> isfile p = true)
  /\ forall message,
       assert_inputs_exist isfile required optional = ParserError message
       <-> exists pre p post,
             checked_paths required optional = (pre ++ p :: post)%list
             /\ (forall q, In q pre -> isfile q = true)
             /\ isfile p = false
             /\ message = "Input file " ++ p ++ " does not exist".
Proof.
  unfold assert_inputs_exist. rewrite checks_in_order.
  set (check := fun path : string =>
                  if negb (isfile path)
                  then ParserError ("Input file " ++ path ++ " does not exist")
                  else Returns).
  assert (Hret : forall p, check p = Returns <-> isfile p = true).
  { intros p. unfold check. destruct (isfile p); cbn [negb];
      split; congruence. }
  assert (Herr : forall p m,
             check p = ParserError m
             <-> isfile p = false /\ m = "Input file " ++ p ++ " does not exist").
  { intros p m. unfold check. destruct (isfile p); cbn [negb].
    - split; [discriminate | intros [? _]; discriminate].
    - split; [intros [= <-]; now split | intros [_ ->]; reflexivity]. }
  split.
  - rewrite check_required_returns. split; intros H p Hp; apply Hret; now apply H.
  - intros message. rewrite check_required_error. split.
    + intros (pre & p & post & E & Hpre & Hp). apply Herr in Hp as [Hp ->].
      exists pre, p, post. repeat split; try assumption.
      intros q Hq. apply Hret. now apply Hpre.
    + intros (pre & p & post & E & Hpre & Hp & ->).
      exists pre, p, post. split; [exact E|]. split.
      * intros q Hq. apply Hret. now apply Hpre.
      * apply Herr. now split.
Qed.

(** assert_outputs_exists always returns when -f was given; without -f it
    returns exactly when no required path and no optional path that is not
    None is a file, and otherwise calls parser.error once, naming the first
    path, in the order required then optional, that is a file. *)
Theorem assert_outputs_exists_checks (required : list string)
  (optional : option (list (option string))) :
  assert_outputs_exists isfile true required optional = Returns
  /\ (assert_outputs_exists isfile false required optional = Returns
      <-> forall p, In p (checked_paths required optional) -> isfile p = false)
  /\ forall message,
       assert_outputs_exists isfile false required optional = ParserError message
       <-> exists pre p post,
             checked_paths required optional = (pre ++ p :: post)%list
             /\ (forall q, In q pre -> isfile q = false)
             /\ isfile p = true
             /\ message = "Output file " ++ p
                          ++ " exists. Use -f to force overwriting".
Proof.
  unfold assert_outputs_exists. rewrite !checks_in_order. split.
  { apply check_required_returns. intros p _. cbn [negb].
    now rewrite andb_false_r. }
  set (check := fun path : string =>
                  if isfile path && negb false
                  then ParserError ("Output file " ++ path
                                    ++ " exists. Use -f to force overwriting")
                  else Returns).
  assert (Hret : forall p, check p = Returns <-> isfile p = false).
  { intros p. unfold check. destruct (isfile p); cbn [negb andb];
      split; congruence. }
  assert (Herr : forall p m,
             check p = ParserError m
             <-> isfile p = true
                 /\ m = "Output file " ++ p
                        ++ " exists. Use -f to force overwriting").
  { intros p m. unfold check. destruct (isfile p); cbn [negb andb].
    - split; [intros [= <-]; now split | intros [_ ->]; reflexivity].
    - split; [discriminate | intros [? _]; discriminate]. }
  split.
  - rewrite check_required_returns. split; intros H p Hp; apply Hret; now apply H.
  - intros message. rewrite check_required_error. split.
    + intros (pre & p & post & E & Hpre & Hp). apply Herr in Hp as [Hp ->].
      exists pre, p, post. repeat split; try assumption.
      intros q Hq. apply Hret. now apply Hpre.
    + intros (pre & p & post & E & Hpre & Hp & ->).
      exists pre, p, post. split; [exact E|]. split.
      * intros q Hq. apply Hret. now apply Hpre.
      * apply Herr. now split.
Qed.

(** A script whose inputs pass assert_inputs_exist and whose outputs pass
    assert_outputs_exists without -f, on the same file system, writes to
    none of the paths it reads. *)
Theorem checked_outputs_are_no_inputs
  (inputs outputs : list string)
  (optional_inputs optional_outputs : option (list (option string))) (p : string) :
  assert_inputs_exist isfile inputs optional_inputs = Returns ->
  assert_outputs_exists isfile false outputs optional_outputs = Returns ->
  In p (checked_paths inputs optional_inputs) ->
  ~ In p (checked_paths outputs optional_outputs).
Proof.
  unfold assert_inputs_exist, assert_outputs_exists.
  rewrite !checks_in_order, !check_required_returns.
  intros Hin Hout Hp Hq.
  specialize (Hin p Hp). specialize (Hout p Hq). cbv beta in Hin, Hout.
  destruct (isfile p); cbn [negb andb] in *; discriminate.
Qed.
End PathChecks.

Lemma checked_outputs_are_no_inputs_witness :
  ~ In "bundle.trk"%string
       (IoUtils.checked_paths ["mean_map.nii"%string] (Some [None])).
Proof.
  apply (@checked_outputs_are_no_inputs
           (fun p => (p =? "bundle.trk")%string || (p =? "pdds.nii")%string)
           ["bundle.trk"; "pdds.nii"]%string ["mean_map.nii"%string]
           None (Some [None]) "bundle.trk"%string eq_refl eq_refl).
  left. reflexivity.
Defined.

(** ** PYTHON_VERSION and the line it is read from *)

Section VersionLine.
Import Version.
Local Open Scope string_scope.

Lemma append_assoc (a b c : string) : (a ++ b) ++ c = a ++ (b ++ c).
Proof. induction a as [|x a IH]; [reflexivity|]. cbn. now rewrite IH. Qed.

Lemma split_dot_not_nil (s : string) : split_dot s <> [].
Proof.
  destruct s as [|c s]; cbn [split_dot]; [discriminate|].
  destruct (Ascii.eqb c "."); [discriminate|].
  destruct (split_dot s); discriminate.
Qed.

(** Joining the pieces with dots gives the string back. *)
Lemma concat_split_dot (s : string) : String.concat "." (split_dot s) = s.
Proof.
  induction s as [|c s IH]; [reflexivity|]. cbn [split_dot].
  pose proof (split_dot_not_nil s) as Hne.
  destruct (Ascii.eqb_spec c ".") as [->|Hc].
  - destruct (split_dot s) as [|p rest]; [congruence|].
    cbn [String.concat] in *. rewrite IH. reflexivity.
  - destruct (split_dot s) as [|p rest]; [congruence|].
    destruct rest as [|q rest]; cbn [String.concat] in *.
    + now rewrite IH.
    + rewrite <- IH. reflexivity.
Qed.

Lemma no_newline_tail (c : ascii) (s : string) :
  no_newline (String c s) -> c <> newline /\ no_newline s.
Proof.
  intros H. split; [apply H; now left|]. intros d Hd. apply H. now right.
Qed.

Lemma rstrip_no_newline (s : string) : no_newline s -> rstrip_newline s = s.
Proof.
  induction s as [|c s IH]; [reflexivity|]. intros H.
  apply no_newline_tail in H as [Hc Hs]. cbn [rstrip_newline].
  rewrite (IH Hs). destruct s; [|reflexivity].
  now destruct (Ascii.eqb_spec c newline).
Qed.

Lemma rstrip_line (s : string) :
  no_newline s -> rstrip_newline (s ++ String newline "") = s.
Proof.
  induction s as [|c s IH]; intros H.
  - reflexivity.
  - apply no_newline_tail in H as [Hc Hs].
    cbn [append rstrip_newline]. rewrite (IH Hs). destruct s; [|reflexivity].
    now destruct (Ascii.eqb_spec c newline).
Qed.

Lemma strip_line (body line : string) :
  no_newline body ->
  line = body \/ line = body ++ String newline "" ->
  strip_newline line = body.
Proof.
  intros H [-> | ->]; unfold strip_newline.
  - destruct body as [|c s]; [reflexivity|].
    pose proof (no_newline_tail H) as [Hc _]. cbn [lstrip_newline].
    destruct (Ascii.eqb_spec c newline); [contradiction|].
    now apply rstrip_no_newline.
  - destruct body as [|c s].
    + reflexivity.
    + pose proof (no_newline_tail H) as [Hc _]. cbn [append lstrip_newline].
      destruct (Ascii.eqb_spec c newline); [contradiction|].
      exact (rstrip_line H).
Qed.

(** PYTHON_VERSION, for the first line of .python-version with or without
    its newline: a line of three dot-separated pieces, or of four with the
    fourth not empty, gives the line itself after "=="; a line of two pieces
    gives it followed by ".*"; a line without a dot raises IndexError. *)
Theorem PYTHON_VERSION_of_line (body line : string) :
  no_newline body ->
  line = body \/ line = body ++ String newline "" ->
  let pieces := split_dot body in
  (length pieces = 1 -> PYTHON_VERSION line = Raise IndexError)
  /\ (length pieces = 2 -> PYTHON_VERSION line = Ok ("==" ++ body ++ ".*"))
  /\ (length pieces = 3 \/ (length pieces = 4 /\ nth 3 pieces "" <> "") ->
      PYTHON_VERSION line = Ok ("==" ++ body)).
Proof.
  intros Hbody Hline pieces. unfold PYTHON_VERSION.
  rewrite (strip_line Hbody Hline). fold pieces.
  pose proof (concat_split_dot body) as Hcat. fold pieces in Hcat.
  destruct pieces as [|a [|b [|c [|e [|f rest]]]]]; cbn [length nth];
    (split; [intros [=] | split; [intros [=] | intros [[=] | [[=] He]]]]);
    try reflexivity.
  - cbn [String.concat] in *. rewrite <- Hcat.
    now rewrite !append_assoc.
  - cbn [String.concat] in *. now rewrite Hcat.
  - destruct e as [|x e]; [congruence|].
    cbn [String.concat] in *. rewrite <- Hcat.
    now rewrite !append_assoc.
Qed.
End VersionLine.

Lemma PYTHON_VERSION_of_line_witness :
  Version.PYTHON_VERSION ("3.7.2" ++ String Version.newline "")%string
  = Ok "==3.7.2"%string
  /\ Version.PYTHON_VERSION "3.7"%string = Ok "==3.7.*"%string.
Proof.
  split.
  - refine (proj2 (proj2 (@PYTHON_VERSION_of_line "3.7.2"%string _ _ _)) _).
    + intros c Hc. cbn in Hc.
      repeat (destruct Hc as [<- | Hc]; [discriminate|]). destruct Hc.
    + right. reflexivity.
    + left. reflexivity.
  - refine (proj1 (proj2 (@PYTHON_VERSION_of_line "3.7"%string _ _ _)) _).
    + intros c Hc. cbn in Hc.
      repeat (destruct Hc as [<- | Hc]; [discriminate|]). destruct Hc.
    + left. reflexivity.
    + reflexivity.
Defined.
